(** * Sampling core of conky's OpenBSD back end (src/data/os/openbsd.cc)

  A shallow embedding of [update_cpu_usage] and [update_net_stats]:
  the machine integers are [Z] with their wrap-around written out, the
  [float] and [double] values are IEEE 754 binary32 and binary64 numbers
  in the executable model of the Standard Library ([SpecFloat]), the
  per-CPU arrays are lists updated by index and the per-interface
  statistics are a finite map keyed by the interface name. *)

From Stdlib Require Import ZArith Bool List Lia.
From Stdlib Require Import Floats.SpecFloat.
From stdpp Require Import base list gmap strings.
From stdpp Require Import pretty.

Local Open Scope Z_scope.

(** ** Machine integers *)

Module MachineInt.

(** [u_int64_t]: arithmetic modulo 2^64. *)
Definition two64 : Z := 2 ^ 64.
Definition u64 (z : Z) : Z := z mod two64.

(** [long long]: two's complement on 64 bits. *)
Definition two63 : Z := 2 ^ 63.
Definition s64 (z : Z) : Z := (z + two63) mod two64 - two63.

Definition in_u64 (z : Z) : Prop := 0 <= z < two64.
Definition in_s64 (z : Z) : Prop := - two63 <= z < two63.

Definition u64_add (a b : Z) : Z := u64 (a + b).
Definition u64_sub (a b : Z) : Z := u64 (a - b).
Definition s64_add (a b : Z) : Z := s64 (a + b).
Definition s64_sub (a b : Z) : Z := s64 (a - b).

End MachineInt.
Export MachineInt.

(** ** Floating point: binary32 for [float], binary64 for [double] *)

Module Fp.

Definition prec32 : Z := 24.
Definition emax32 : Z := 128.
Definition prec64 : Z := 53.
Definition emax64 : Z := 1024.

(** Conversion of an integer to [float] / [double]: round to nearest,
    ties to even. *)
Definition f32_of_Z (z : Z) : spec_float := binary_normalize prec32 emax32 z 0 false.
Definition f64_of_Z (z : Z) : spec_float := binary_normalize prec64 emax64 z 0 false.

Definition f32_div : spec_float -> spec_float -> spec_float := SFdiv prec32 emax32.
Definition f64_div : spec_float -> spec_float -> spec_float := SFdiv prec64 emax64.
Definition f64_sub : spec_float -> spec_float -> spec_float := SFsub prec64 emax64.

Definition fzero : spec_float := S754_zero false.
Definition f32_one : spec_float := f32_of_Z 1.

(** The [double] literal [0.0001]: the binary64 number nearest to 1/10000. *)
Definition f64_0_0001 : spec_float := f64_div (f64_of_Z 1) (f64_of_Z 10000).

(** [lo <= x <= hi] in the order of the floating-point comparison. *)
Definition SFbetween (lo hi x : spec_float) : Prop :=
  SFleb lo x = true /\ SFleb x hi = true.

(** Constants used in the statements below. *)
Definition f32_quarter : spec_float := S754_finite false 8388608 (-25).
Definition f64_one : spec_float := f64_of_Z 1.
Definition f64_0_00005 : spec_float := f64_div (f64_of_Z 1) (f64_of_Z 20000).

(** *** Reading the rounding of [SpecFloat] arithmetically

    [shifted q l s] is the record [shr] produces when the mantissa [q]
    loses [s] low bits, [rounded q l s] the mantissa after
    [round_nearest_even], and [renorm32 k e] the binary32 number built
    from a mantissa [k] of 24 bits, or of 25 bits after a carry. *)
Definition shifted (q : Z) (l : location) (s : Z) : shr_record :=
  match s with
  | Z.pos p => Pos.iter shr_1 (shr_record_of_loc q l) p
  | _ => shr_record_of_loc q l
  end.

Definition rounded (q : Z) (l : location) (s : Z) : Z :=
  let mrs := shifted q l s in
  round_nearest_even (shr_m mrs) (loc_of_shr_record mrs).

Definition renorm32 (k e : Z) : spec_float :=
  if k <? 2 ^ 24 then S754_finite false (Z.to_pos k) e
  else S754_finite false (2 ^ 23)%positive (e + 1).

(** The mantissa kept when [n] loses its [s] low bits, ties to even. *)
Definition rne_shift (n s : Z) : Z :=
  let k := n / 2 ^ s in
  let rem := n mod 2 ^ s in
  let half := 2 ^ (s - 1) in
  if (half <? rem) || ((rem =? half) && Z.odd k) then k + 1 else k.

(** A positive normal binary32 number: sign +, mantissa of 24 bits. *)
Definition normal32 (x : spec_float) (m : positive) (e : Z) : Prop :=
  x = S754_finite false m e /\ 2 ^ 23 <= Z.pos m < 2 ^ 24.

(** The order of two positive normal numbers, on mantissa and exponent. *)
Definition le_normal (m : positive) (e : Z) (m' : positive) (e' : Z) : Prop :=
  e < e' \/ (e = e' /\ Z.pos m <= Z.pos m').

End Fp.
Export Fp.

(** ** CPU utilization: [struct cpu_load], [get_cpu_count], [update_cpu_usage] *)

Module Cpu.

(** [struct cpu_load { u_int64_t old_used; u_int64_t old_total; }] *)
Record cpu_load := { old_used : Z; old_total : Z }.

Definition zero_load : cpu_load := {| old_used := 0; old_total := 0 |}.

(** The globals the function works on: [init_cpu], [info.cpu_count],
    the array [info.cpu_usage] and the array [cpu_loads].  Before
    [get_cpu_count] has run both arrays are null: the empty list. *)
Record cpu_state := {
  init_cpu : Z;
  cpu_count : Z;
  cpu_usage : list spec_float;
  cpu_loads : list cpu_load
}.

(** What the three [sysctl] calls answer during one update; [None] is a
    call that returns non-zero. *)
Record sysctl_env := {
  hw_ncpu : option Z;
  kern_cp_time : option (list Z);
  kern_cp_time2 : nat -> option (list Z)
}.

(** [total - cpu_loads[n].old_total], in [u_int64_t]. *)
Definition tick_delta (l : cpu_load) (total : Z) : Z := u64_sub total (old_total l).

(** The value assigned to [info.cpu_usage[n]]:
<<
  if ((total - cpu_loads[n].old_total) != 0) {
    const float diff_used = (float)(used - cpu_loads[n].old_used);
    const float diff_total = (float)(total - cpu_loads[n].old_total);
    info.cpu_usage[n] = diff_used / diff_total;
  } else {
    info.cpu_usage[n] = 0;
  }
>> *)
Definition usage_fraction (l : cpu_load) (used total : Z) : spec_float :=
  if negb (tick_delta l total =? 0) then
    let diff_used := f32_of_Z (u64_sub used (old_used l)) in
    let diff_total := f32_of_Z (tick_delta l total) in
    f32_div diff_used diff_total
  else fzero.

(** The block the source runs for index 0 and again, in the loop, for
    every index [n = i + 1]: compute the fraction from slot [n], then
    overwrite slot [n] with the new pair.  The source indexes the arrays
    only inside their bounds (0 .. cpu_count); a list update outside
    the bounds does nothing and a read there yields [zero_load]. *)
Definition sample_slot (n : nat) (used total : Z) (st : cpu_state) : cpu_state :=
  let l := default zero_load (cpu_loads st !! n) in
  {| init_cpu := init_cpu st;
     cpu_count := cpu_count st;
     cpu_usage := <[n := usage_fraction l used total]> (cpu_usage st);
     cpu_loads := <[n := {| old_used := used; old_total := total |}]> (cpu_loads st) |}.

(** [get_cpu_count]: both arrays are [calloc]ed with [cpu_count + 1]
    zeroed elements ([calloc] is taken to succeed; on failure the source
    stops the process with [CRIT_ERR]). *)
Definition get_cpu_count (ncpu : option Z) (st : cpu_state) : cpu_state :=
  let count := match ncpu with Some c => c | None => 1 end in
  {| init_cpu := init_cpu st;
     cpu_count := count;
     cpu_usage := replicate (Z.to_nat (count + 1)) fzero;
     cpu_loads := replicate (Z.to_nat (count + 1)) zero_load |}.

Definition set_init_cpu (v : Z) (st : cpu_state) : cpu_state :=
  {| init_cpu := v; cpu_count := cpu_count st;
     cpu_usage := cpu_usage st; cpu_loads := cpu_loads st |}.

Section States.

(** [CPUSTATES] and [CP_IDLE] come from <sys/sched.h>. *)
Variables CPUSTATES CP_IDLE : nat.

(** [for (j = 0; j < CPUSTATES; ++j) total += cp[j];] with [total] a
    [u_int64_t]. *)
Definition sum_states (cp : list Z) : Z :=
  fold_left (fun acc j => u64_add acc (nth j cp 0)) (seq 0 CPUSTATES) 0.

(** [used = total - cp[CP_IDLE]] *)
Definition used_of (cp : list Z) : Z := u64_sub (sum_states cp) (nth CP_IDLE cp 0).

(** The loop over the CPUs; [todo] counts the iterations left and [i]
    is the loop variable. *)
Fixpoint cpu_loop (env : sysctl_env) (todo i : nat) (st : cpu_state) : Z * cpu_state :=
  match todo with
  | O => (0, st)
  | S todo' =>
      match kern_cp_time2 env i with
      | None => (1, st)
      | Some cp_time2 =>
          cpu_loop env todo' (S i)
            (sample_slot (S i) (used_of cp_time2) (sum_states cp_time2) st)
      end
  end.

Definition update_cpu_usage (env : sysctl_env) (st : cpu_state) : Z * cpu_state :=
  let st1 :=
    if init_cpu st =? 0 then set_init_cpu 1 (get_cpu_count (hw_ncpu env) st) else st in
  match kern_cp_time env with
  | None => (1, st1)
  | Some cp_time =>
      let st2 := sample_slot 0 (used_of cp_time) (sum_states cp_time) st1 in
      cpu_loop env (Z.to_nat (cpu_count st2)) 0 st2
  end.

End States.

(** *** Vocabulary of the statements *)

Definition load_in_range (l : cpu_load) : Prop :=
  in_u64 (old_used l) /\ in_u64 (old_total l).


Definition load_100_1000 : cpu_load := {| old_used := 100; old_total := 1000 |}.
Definition load_4000_5000 : cpu_load := {| old_used := 4000; old_total := 5000 |}.

Definition one_slot (l : cpu_load) : cpu_state :=
  {| init_cpu := 1; cpu_count := 0; cpu_usage := [fzero]; cpu_loads := [l] |}.

Definition two_slots (l0 l1 : cpu_load) : cpu_state :=
  {| init_cpu := 1; cpu_count := 1; cpu_usage := [fzero; fzero]; cpu_loads := [l0; l1] |}.

End Cpu.
Export Cpu.


(** ** Network byte counters: [update_net_stats] *)

Module Net.

(** Constants of the OpenBSD headers <net/if.h> and <sys/socket.h>. *)
Definition IFF_UP : Z := 1.
Definition AF_INET : Z := 2.
Definition AF_LINK : Z := 18.

(** [struct sockaddr]: the byte [sa_len], the byte [sa_family], then the
    bytes of [sa_data] (14 of them in [struct sockaddr]; the address
    [ifa_addr] points to may have more). *)
Record sockaddr := { sa_len : Z; sa_family : Z; sa_data : list Z }.

(** An address as the bytes it occupies, and back. *)
Definition sockaddr_bytes (a : sockaddr) : list Z := sa_len a :: sa_family a :: sa_data a.

Definition sockaddr_of_bytes (b : list Z) : sockaddr :=
  {| sa_len := nth 0 b 0; sa_family := nth 1 b 0; sa_data := drop 2 b |}.

(** [memcpy(&(ns->addr), iftmp->ifa_addr, iftmp->ifa_addr->sa_len)]: the
    first [sa_len] bytes of the source replace those of the destination,
    the bytes after them are kept.  (A source shorter than its [sa_len],
    or a [sa_len] above the size of [ns->addr], makes the copy run past
    an object: the model then copies the bytes there are and lets the
    destination grow.) *)
Definition memcpy_addr (dst src : sockaddr) : sockaddr :=
  let n := Z.to_nat (sa_len src) in
  sockaddr_of_bytes (take n (sockaddr_bytes src) ++ drop n (sockaddr_bytes dst)).

(** [struct if_data]: the two byte counters ([u_int64_t] on OpenBSD). *)
Record if_data := { ifi_ibytes : Z; ifi_obytes : Z }.

(** One element of the list [getifaddrs] returns; [ifa_next] is the tail
    of the Rocq list. *)
Record ifaddrs := {
  ifa_name : string;
  ifa_flags : Z;
  ifa_addr : sockaddr;
  ifa_data : if_data
}.

(** Modelled from the spec: [struct net_stat] is declared in net_stat.h,
    which is not part of the sources.  Its fields are the EntityState of
    the spec: the last raw readings, the accumulated totals (64-bit),
    the last computed rates, and the flag and address the function also
    writes.  The integer fields are [long long], as the locals [r], [t],
    [last_recv] and [last_trans] they are copied to and from. *)
Record net_stat := {
  up : Z;
  addr : sockaddr;
  last_read_recv : Z;
  last_read_trans : Z;
  recv : Z;
  trans : Z;
  recv_speed : spec_float;
  trans_speed : spec_float
}.

Definition set_up (v : Z) (ns : net_stat) : net_stat :=
  {| up := v; addr := addr ns;
     last_read_recv := last_read_recv ns; last_read_trans := last_read_trans ns;
     recv := recv ns; trans := trans ns;
     recv_speed := recv_speed ns; trans_speed := trans_speed ns |}.

Definition set_addr (a : sockaddr) (ns : net_stat) : net_stat :=
  {| up := up ns; addr := a;
     last_read_recv := last_read_recv ns; last_read_trans := last_read_trans ns;
     recv := recv ns; trans := trans ns;
     recv_speed := recv_speed ns; trans_speed := trans_speed ns |}.

(** The amount added to an accumulated total:
<<
  if (r < ns->last_read_recv) {
    ns->recv += ((long long)4294967295U - ns->last_read_recv) + r;
  } else {
    ns->recv += (r - ns->last_read_recv);
  }
>> *)
Definition raw_delta (last r : Z) : Z :=
  if r <? last then s64_add (s64_sub 4294967295 last) r else s64_sub r last.

(** The overflow rule in the words of the spec (section 4.2, W = 32). *)
Definition spec_raw_delta (prev_raw new_raw : Z) : Z :=
  if new_raw >=? prev_raw then new_raw - prev_raw
  else (2 ^ 32 - 1 - prev_raw) + new_raw.

(** The counter part of the loop body, run for an AF_LINK entry of an
    interface that is up: accumulate both directions, remember the raw
    readings and compute the speeds over [delta] seconds.  [last_recv]
    and [last_trans] are the totals as they were when the entry was
    reached. *)
Definition account (delta : spec_float) (d : if_data) (ns : net_stat) : net_stat :=
  let last_recv := recv ns in
  let last_trans := trans ns in
  let r := s64 (ifi_ibytes d) in
  let t := s64 (ifi_obytes d) in
  let recv' := s64_add (recv ns) (raw_delta (last_read_recv ns) r) in
  let trans' := s64_add (trans ns) (raw_delta (last_read_trans ns) t) in
  {| up := up ns; addr := addr ns;
     last_read_recv := r; last_read_trans := t;
     recv := recv'; trans := trans';
     recv_speed := f64_div (f64_of_Z (s64_sub recv' last_recv)) delta;
     trans_speed := f64_div (f64_of_Z (s64_sub trans' last_trans)) delta |}.

(** The inner loop
<<
      for (iftmp = ifa->ifa_next;
           iftmp != nullptr && strcmp(ifa->ifa_name, iftmp->ifa_name) == 0;
           iftmp = iftmp->ifa_next) {
        if (iftmp->ifa_addr->sa_family == AF_INET) {
          memcpy(&(ns->addr), iftmp->ifa_addr, iftmp->ifa_addr->sa_len);
        }
      }
>>
    over the entries that follow with the same name: the first [sa_len]
    bytes of each AF_INET one are copied over [ns->addr]. *)
Fixpoint copy_inet_addr (name : string) (rest : list ifaddrs) (a : sockaddr) : sockaddr :=
  match rest with
  | [] => a
  | iftmp :: rest' =>
      if String.eqb name (ifa_name iftmp) then
        copy_inet_addr name rest'
          (if sa_family (ifa_addr iftmp) =? AF_INET then memcpy_addr a (ifa_addr iftmp)
           else a)
      else a
  end.

Section Store.

(** The content of a state that [get_net_stat] has just created. *)
Variable fresh : net_stat.

(** Modelled from the spec: [get_net_stat] is defined in net_stat.cc, which
    is not part of the sources.  It returns the state stored under the
    interface name and, for a name never seen, creates a fresh state
    (the spec's UnknownEntity policy); it does not fail.  The function
    writes through the pointer it gets, which is [<[name := _]>] here. *)
Definition get_net_stat (name : string) (store : gmap string net_stat) : net_stat :=
  default fresh (store !! name).

(** The body of the loop over the interface addresses, for the entry
    [ifa] followed by [rest], as a function of the state [ns] points to. *)
Definition entry_update (delta : spec_float) (ifa : ifaddrs) (rest : list ifaddrs)
    (ns : net_stat) : net_stat :=
  if negb (Z.land (ifa_flags ifa) IFF_UP =? 0) then
    let ns1 := set_up 1 ns in
    if negb (sa_family (ifa_addr ifa) =? AF_LINK) then ns1
    else
      let ns2 := set_addr (copy_inet_addr (ifa_name ifa) rest (addr ns1)) ns1 in
      account delta (ifa_data ifa) ns2
  else set_up 0 ns.

(** One iteration: [ns = get_net_stat(ifa->ifa_name, ...)], then the
    body writes through [ns]. *)
Definition process_entry (delta : spec_float) (ifa : ifaddrs) (rest : list ifaddrs)
    (store : gmap string net_stat) : gmap string net_stat :=
  let ns := get_net_stat (ifa_name ifa) store in
  <[ifa_name ifa := entry_update delta ifa rest ns]> store.

(** [for (ifa = ifap; ifa; ifa = ifa->ifa_next)] *)
Fixpoint ifa_loop (delta : spec_float) (l : list ifaddrs)
    (store : gmap string net_stat) : gmap string net_stat :=
  match l with
  | [] => store
  | ifa :: rest => ifa_loop delta rest (process_entry delta ifa rest store)
  end.

(** The inputs of one call: the two time stamps (globals of conky.h,
    [double]) and the answer of [getifaddrs] ([None] when it fails). *)
Record net_env := {
  current_update_time : spec_float;
  last_update_time : spec_float;
  getifaddrs : option (list ifaddrs)
}.

Definition elapsed (env : net_env) : spec_float :=
  f64_sub (current_update_time env) (last_update_time env).

(** The function: the guard on the elapsed time
<<
  delta = current_update_time - last_update_time;
  if (delta <= 0.0001) { return 0; }
  if (getifaddrs(&ifap) < 0) { return 0; }
>>
    then the loop.  The result is the return value and the store. *)
Definition update_net_stats (env : net_env) (store : gmap string net_stat)
    : Z * gmap string net_stat :=
  let delta := elapsed env in
  if SFleb delta f64_0_0001 then (0, store)
  else
    match getifaddrs env with
    | None => (0, store)
    | Some ifap => (0, ifa_loop delta ifap store)
    end.

(** A sequence of calls, one per refresh of the monitor. *)
Definition run (calls : list net_env) (store : gmap string net_stat)
    : gmap string net_stat :=
  fold_left (fun s env => snd (update_net_stats env s)) calls store.

End Store.

(** *** Vocabulary of the statements *)

(** A reading of a 32-bit byte counter. *)
Definition counter32 (z : Z) : Prop := 0 <= z < 2 ^ 32.

Definition readings_ok (ifa : ifaddrs) : Prop :=
  counter32 (ifi_ibytes (ifa_data ifa)) /\ counter32 (ifi_obytes (ifa_data ifa)).

Definition call_ok (env : net_env) : Prop :=
  match getifaddrs env with
  | Some ifap => Forall readings_ok ifap
  | None => True
  end.

Definition grows (ns ns' : net_stat) : Prop :=
  recv ns <= recv ns' /\ trans ns <= trans ns'.

(** The reading of section 7 (UnknownEntity): the first sample of an
    interface never seen before leaves the totals where the fresh state
    has them and reports zero speeds. *)
Definition first_sample_reports_zero (fresh : net_stat) : Prop :=
  forall (delta : spec_float) (ifa : ifaddrs) (rest : list ifaddrs)
         (store : gmap string net_stat),
    store !! ifa_name ifa = None ->
    Z.land (ifa_flags ifa) IFF_UP <> 0 ->
    sa_family (ifa_addr ifa) = AF_LINK ->
    readings_ok ifa ->
    SFleb delta f64_0_0001 = false ->
    let ns' := get_net_stat fresh (ifa_name ifa) (process_entry fresh delta ifa rest store) in
    recv ns' = recv fresh /\ trans ns' = trans fresh /\
    SFeqb (recv_speed ns') fzero = true /\ SFeqb (trans_speed ns') fzero = true.

Definition no_addr : sockaddr :=
  {| sa_len := 0; sa_family := 0; sa_data := replicate 14 0 |}.
Definition link_addr : sockaddr :=
  {| sa_len := 20; sa_family := AF_LINK; sa_data := replicate 18 0 |}.
Definition inet_addr : sockaddr :=
  {| sa_len := 16; sa_family := AF_INET;
     sa_data := [0; 0; 10; 0; 0; 1; 0; 0; 0; 0; 0; 0; 0; 0] |}.

Definition zero_net_stat : net_stat :=
  {| up := 0; addr := no_addr; last_read_recv := 0; last_read_trans := 0;
     recv := 0; trans := 0; recv_speed := fzero; trans_speed := fzero |}.

Definition wrapped_stat : net_stat :=
  {| up := 1; addr := no_addr; last_read_recv := 4294967290; last_read_trans := 100;
     recv := 0; trans := 0; recv_speed := fzero; trans_speed := fzero |}.

Definition link_entry (name : string) (ibytes obytes : Z) : ifaddrs :=
  {| ifa_name := name; ifa_flags := 1; ifa_addr := link_addr;
     ifa_data := {| ifi_ibytes := ibytes; ifi_obytes := obytes |} |}.

Definition inet_entry (name : string) : ifaddrs :=
  {| ifa_name := name; ifa_flags := 1; ifa_addr := inet_addr;
     ifa_data := {| ifi_ibytes := 0; ifi_obytes := 0 |} |}.

Definition call_at (last now : spec_float) (ifap : list ifaddrs) : net_env :=
  {| current_update_time := now; last_update_time := last; getifaddrs := Some ifap |}.

Definition call_1 : net_env := call_at fzero f64_one [link_entry "em0" 4294967290 100].
Definition call_2 : net_env := call_at f64_one (f64_of_Z 2) [link_entry "em0" 5 300].

End Net.
Export Net.

(** ** CPU utilization: vocabulary for whole calls of [update_cpu_usage] *)

Module CpuCalls.

(** The state [update_cpu_usage] works on once the first-call block
<<
  if (init_cpu == 0) {
    get_cpu_count();
    init_cpu = 1;
  }
>>
    is done. *)
Definition after_init (env : sysctl_env) (st : cpu_state) : cpu_state :=
  if init_cpu st =? 0 then set_init_cpu 1 (get_cpu_count (hw_ncpu env) st) else st.

(** Both arrays have the [cpu_count + 1] elements [get_cpu_count]
    allocates. *)
Definition slots_ok (st : cpu_state) : Prop :=
  0 <= cpu_count st /\
  length (cpu_usage st) = Z.to_nat (cpu_count st + 1) /\
  length (cpu_loads st) = Z.to_nat (cpu_count st + 1).

(** The per-CPU reads of the CPUs below [n] all succeed. *)
Definition cpus_read (env : sysctl_env) (n : nat) : Prop :=
  forall i : nat, (i < n)%nat -> is_Some (kern_cp_time2 env i).

(** The exact sum of the tick counts of the [CPUSTATES] states. *)
Definition tick_sum (CPUSTATES : nat) (cp : list Z) : Z :=
  fold_left (fun acc j => acc + nth j cp 0) (seq 0 CPUSTATES) 0.

(** A later reading of the same counters: no state's count is negative
    or went backwards, and the sum fits [u_int64_t]. *)
Definition ticks_advance (CPUSTATES : nat) (cp_old cp_new : list Z) : Prop :=
  (forall j : nat, 0 <= nth j cp_old 0 <= nth j cp_new 0) /\
  tick_sum CPUSTATES cp_new < two64.

(** The slot of a CPU: the stored pair and the stored fraction. *)
Definition slot (st : cpu_state) (n : nat) : option cpu_load * option spec_float :=
  (cpu_loads st !! n, cpu_usage st !! n).

(** The pair the function stores for a reading. *)
Definition load_of (CPUSTATES CP_IDLE : nat) (cp : list Z) : cpu_load :=
  {| old_used := used_of CPUSTATES CP_IDLE cp; old_total := sum_states CPUSTATES cp |}.

Definition env_of (ncpu : option Z) (cp : option (list Z)) (cp2 : nat -> option (list Z))
    : sysctl_env :=
  {| hw_ncpu := ncpu; kern_cp_time := cp; kern_cp_time2 := cp2 |}.

(** The state before the first call. *)
Definition unallocated : cpu_state :=
  {| init_cpu := 0; cpu_count := 0; cpu_usage := []; cpu_loads := [] |}.

(** Two readings of six states, the last one idle: 1000 ticks of which
    875 idle, then 2000 of which 1810 idle. *)
Definition ticks_1 : list Z := [100; 0; 20; 0; 5; 875].
Definition ticks_2 : list Z := [150; 0; 30; 0; 10; 1810].

(** The reading slot [n] is sampled from: kern.cp_time for slot 0, the
    aggregate, and kern.cp_time2 of CPU [n - 1] for the others. *)
Definition slot_reading (env : sysctl_env) (n : nat) : option (list Z) :=
  match n with
  | O => kern_cp_time env
  | S i => kern_cp_time2 env i
  end.

(** The call gets as far as slot [n]: kern.cp_time is read and, for the
    slot of a CPU, the CPU is one of the [cpu_count] the loop runs over
    and the reads for the CPUs before it succeed. *)
Definition reaches (env : sysctl_env) (st : cpu_state) (n : nat) : Prop :=
  is_Some (kern_cp_time env) /\
  match n with
  | O => True
  | S i => (i < Z.to_nat (cpu_count (after_init env st)))%nat /\ cpus_read env i
  end.

(** The fraction in the words of the spec (section 4.3):
    [(new_used - old_used) / (new_total - old_total)], each difference
    converted to [float] and the two divided. *)
Definition spec_fraction (l : cpu_load) (new_used new_total : Z) : spec_float :=
  f32_div (f32_of_Z (new_used - old_used l)) (f32_of_Z (new_total - old_total l)).

(** Readings of six states with 150 used ticks out of 1200, 150 out of
    1000 and 50 out of 1200, and a state of one slot that holds the pair
    (100, 1000) and a fraction of one quarter. *)
Definition ticks_150_1200 : list Z := [150; 0; 0; 0; 0; 1050].
Definition ticks_150_1000 : list Z := [150; 0; 0; 0; 0; 850].
Definition ticks_50_1200 : list Z := [50; 0; 0; 0; 0; 1150].

Definition quarter_slot : cpu_state :=
  {| init_cpu := 1; cpu_count := 0; cpu_usage := [f32_quarter];
     cpu_loads := [load_100_1000] |}.

End CpuCalls.
Export CpuCalls.

(** ** Network byte counters: vocabulary for sequences of calls *)

Module NetCalls.

(** The interface names one call looks at: those of the list
    [getifaddrs] returns, none when the call returns early. *)
Definition listed_names (env : net_env) : list string :=
  if SFleb (elapsed env) f64_0_0001 then []
  else match getifaddrs env with
       | Some ifap => map ifa_name ifap
       | None => []
       end.

(** An entry whose counters the loop body accounts to interface [name]:
    it has that name, is up and carries an AF_LINK address. *)
Definition is_link_entry (name : string) (ifa : ifaddrs) : bool :=
  String.eqb (ifa_name ifa) name &&
  negb (Z.land (ifa_flags ifa) IFF_UP =? 0) &&
  (sa_family (ifa_addr ifa) =? AF_LINK).

(** The two directions the function tracks, and for each the counter read,
    the accumulated total and the last raw reading. *)
Inductive direction := Received | Transmitted.

Definition reading (dir : direction) (d : if_data) : Z :=
  match dir with Received => ifi_ibytes d | Transmitted => ifi_obytes d end.

Definition total (dir : direction) (ns : net_stat) : Z :=
  match dir with Received => recv ns | Transmitted => trans ns end.

Definition last_read (dir : direction) (ns : net_stat) : Z :=
  match dir with Received => last_read_recv ns | Transmitted => last_read_trans ns end.

(** The readings accounted to [name] by a sequence of calls, in the order
    they are processed. *)
Definition link_readings_of_call (dir : direction) (name : string) (env : net_env) : list Z :=
  if SFleb (elapsed env) f64_0_0001 then []
  else match getifaddrs env with
       | Some ifap =>
           map (fun ifa => reading dir (ifa_data ifa))
               (List.filter (is_link_entry name) ifap)
       | None => []
       end.

Definition link_readings (dir : direction) (name : string) (calls : list net_env) : list Z :=
  concat (map (link_readings_of_call dir name) calls).

(** One accounted reading, on the pair (total, last raw reading): the
    reading is stored in a [long long], the amount added is [raw_delta]. *)
Definition track (p : Z * Z) (r : Z) : Z * Z :=
  (s64_add (fst p) (raw_delta (snd p) (s64 r)), s64 r).

Definition tracked (dir : direction) (ns : net_stat) : Z * Z :=
  (total dir ns, last_read dir ns).

(** A list of 32-bit readings that starts at [prev] and never goes
    backwards. *)
Fixpoint ascending (prev : Z) (rs : list Z) : Prop :=
  match rs with
  | [] => True
  | r :: rs' => prev <= r /\ counter32 r /\ ascending r rs'
  end.

(** The up AF_LINK entries of interface [name] in a list. *)
Definition link_entries (name : string) (l : list ifaddrs) : list ifaddrs :=
  List.filter (is_link_entry name) l.

(** The counters of a state: all of it but the flag and the address. *)
Record counters := {
  c_last_read_recv : Z; c_last_read_trans : Z;
  c_recv : Z; c_trans : Z;
  c_recv_speed : spec_float; c_trans_speed : spec_float
}.

Definition counters_of (ns : net_stat) : counters :=
  {| c_last_read_recv := last_read_recv ns; c_last_read_trans := last_read_trans ns;
     c_recv := recv ns; c_trans := trans ns;
     c_recv_speed := recv_speed ns; c_trans_speed := trans_speed ns |}.

(** Entries accounted one after the other. *)
Definition account_all (delta : spec_float) (links : list ifaddrs) (ns : net_stat)
    : net_stat :=
  fold_left (fun ns e => account delta (ifa_data e) ns) links ns.

(** One reading accounted by the rule of the spec, on the pair (total,
    last raw reading); the total is a [long long]. *)
Definition spec_track (p : Z * Z) (new_raw : Z) : Z * Z :=
  (s64_add (fst p) (spec_raw_delta (snd p) new_raw), new_raw).

(** The same in exact arithmetic: what the readings add up to. *)
Definition exact_track (p : Z * Z) (new_raw : Z) : Z * Z :=
  (fst p + spec_raw_delta (snd p) new_raw, new_raw).

Definition exact_total (total last : Z) (rs : list Z) : Z :=
  fst (fold_left exact_track rs (total, last)).

(** The reading of the invariant of section 3 (C8): over any sequence of
    calls with 32-bit readings, the totals of any state never decrease. *)
Definition totals_never_decrease (fresh : net_stat) : Prop :=
  forall (name : string) (store : gmap string net_stat) (earlier later : list net_env),
    Forall call_ok (earlier ++ later) ->
    grows (get_net_stat fresh name (run fresh earlier store))
          (get_net_stat fresh name (run fresh (earlier ++ later) store)).

(** A state whose received total is the largest [long long], and one
    whose last reading, 2^33, is not a 32-bit value. *)
Definition full_stat : net_stat :=
  {| up := 1; addr := no_addr; last_read_recv := 0; last_read_trans := 0;
     recv := 9223372036854775807; trans := 0; recv_speed := fzero; trans_speed := fzero |}.

Definition wide_stat : net_stat :=
  {| up := 1; addr := no_addr; last_read_recv := 8589934592; last_read_trans := 0;
     recv := 8589934592; trans := 0; recv_speed := fzero; trans_speed := fzero |}.

(** A state that is down and holds counters. *)
Definition down_stat : net_stat :=
  {| up := 0; addr := no_addr; last_read_recv := 700; last_read_trans := 100;
     recv := 7000; trans := 1000; recv_speed := f64_one; trans_speed := f64_one |}.

End NetCalls.
Export NetCalls.

(** ** Memory and swap: [swapmode], [update_meminfo] *)

Module Mem.

(** [int] and [unsigned int]: 32 bits. *)
Definition two32 : Z := 2 ^ 32.
Definition two31 : Z := 2 ^ 31.
Definition u32 (z : Z) : Z := z mod two32.
Definition s32 (z : Z) : Z := (z + two31) mod two32 - two31.
Definition in_s32 (z : Z) : Prop := - two31 <= z < two31.
Definition s32_add (a b : Z) : Z := s32 (a + b).
Definition s32_sub (a b : Z) : Z := s32 (a - b).
Definition u32_add (a b : Z) : Z := u32 (a + b).

(** Constants of <sys/param.h> and <sys/swap.h>, and [LOG1024] of the file. *)
Definition DEV_BSIZE : Z := 512.
Definition SWF_ENABLE : Z := 2.
Definition LOG1024 : Z := 10.

(** [struct swapent], the fields the function reads (all [int]). *)
Record swapent := { se_flags : Z; se_nblks : Z; se_inuse : Z }.

(** What [swapctl] and [malloc] answer during one call of [swapmode]:
    the number of devices, whether the allocation succeeds, the value
    of the SWAP_STATS call and the [nswap] elements of the array once
    it has returned. *)
Record swap_env := {
  swap_nswap : Z;
  malloc_ok : bool;
  swap_stats : Z;
  swdev : list swapent
}.

(** The body of the loop
<<
    if (swdev[i].se_flags & SWF_ENABLE) {
      *used += (swdev[i].se_inuse / (1024 / DEV_BSIZE));
      *total += (swdev[i].se_nblks / (1024 / DEV_BSIZE));
    }
>>
    on the pair ([*used], [*total]); the division is the one of C, which
    truncates. *)
Definition add_swapent (p : Z * Z) (e : swapent) : Z * Z :=
  if negb (Z.land (se_flags e) SWF_ENABLE =? 0) then
    (s32_add (fst p) (Z.quot (se_inuse e) (Z.quot 1024 DEV_BSIZE)),
     s32_add (snd p) (Z.quot (se_nblks e) (Z.quot 1024 DEV_BSIZE)))
  else p.

(** [swapmode(&used, &total)]: the return value and the two integers
    the pointers refer to afterwards.  On the early returns they are not
    written: they keep the values [used0] and [total0] they had. *)
Definition swapmode (env : swap_env) (used0 total0 : Z) : Z * Z * Z :=
  if swap_nswap env =? 0 then (0, used0, total0)
  else if negb (malloc_ok env) then (0, used0, total0)
  else if swap_stats env =? -1 then (0, used0, total0)
  else
    let '(used, total) :=
      fold_left add_swapent (firstn (Z.to_nat (swap_nswap env)) (swdev env)) (0, 0) in
    (1, used, total).

(** [struct vmtotal], the two fields read ([u_int32_t] page counts). *)
Record vmtotal := { t_rm : Z; t_free : Z }.

(** The fields of [info] the function assigns ([unsigned long long] in
    conky.h). *)
Record mem_info := {
  memmax : Z; mem : Z; memwithbuffers : Z; memeasyfree : Z; memfree : Z;
  legacymem : Z; swapmax : Z; swap : Z; swapfree : Z
}.

(** The inputs of one call of [update_meminfo]: the page size, the answer
    of the vm.meter [sysctl] ([None] when it fails), the swap devices,
    and what the two locals [swap_used] and [swap_avail], which are not
    initialised, hold when [swapmode] is called. *)
Record mem_env := {
  pagesize : Z;
  vm_meter : option vmtotal;
  swap_devices : swap_env;
  stack_swap_used : Z;
  stack_swap_avail : Z
}.

(** [while (pagesize > 1) { pageshift++; pagesize >>= 1; }] *)
Fixpoint pageshift_loop (fuel : nat) (pagesize pageshift : Z) : Z :=
  match fuel with
  | O => pageshift
  | S fuel' =>
      if 1 <? pagesize then pageshift_loop fuel' (Z.shiftr pagesize 1) (pageshift + 1)
      else pageshift
  end.

(** [pagetok(size)]: [(size) << pageshift] on an [u_int32_t].  (For a
    page size below 1024 the shift count is negative, which C leaves
    undefined; the statements below are about page sizes from 1024 on.) *)
Definition pagetok (pageshift size : Z) : Z := u32 (Z.shiftl size pageshift).

(** [update_meminfo]; an [int] page size is below 2^31, for which 32
    iterations of the loop are more than it can run.
<<
  info.memmax = pagetok(vmtotal.t_rm) + pagetok(vmtotal.t_free);
  info.mem = info.memwithbuffers = pagetok(vmtotal.t_rm);
  info.memeasyfree = info.memfree = info.memmax - info.mem;
  info.legacymem = info.mem;

  if ((swapmode(&swap_used, &swap_avail)) >= 0) {
    info.swapmax = swap_avail;
    info.swap = swap_used;
    info.swapfree = swap_avail - swap_used;
  } else {
    info.swapmax = 0;
    info.swap = 0;
    info.swapfree = 0;
  }
>> *)
Definition update_meminfo (env : mem_env) : Z * mem_info :=
  let pageshift := pageshift_loop 32 (pagesize env) 0 - LOG1024 in
  let v := match vm_meter env with
           | Some v => v
           | None => {| t_rm := 0; t_free := 0 |}
           end in
  let max := u32_add (pagetok pageshift (t_rm v)) (pagetok pageshift (t_free v)) in
  let m := pagetok pageshift (t_rm v) in
  let free := u64_sub max m in
  let '(ret, swap_used, swap_avail) :=
    swapmode (swap_devices env) (stack_swap_used env) (stack_swap_avail env) in
  (0,
   if 0 <=? ret then
     {| memmax := max; mem := m; memwithbuffers := m; memeasyfree := free; memfree := free;
        legacymem := m;
        swapmax := u64 swap_avail; swap := u64 swap_used;
        swapfree := u64 (s32_sub swap_avail swap_used) |}
   else
     {| memmax := max; mem := m; memwithbuffers := m; memeasyfree := free; memfree := free;
        legacymem := m; swapmax := 0; swap := 0; swapfree := 0 |}).

(** *** Vocabulary of the statements *)

Definition enabled (e : swapent) : bool := negb (Z.land (se_flags e) SWF_ENABLE =? 0).

(** The exact sums, in KiB, over the enabled devices. *)
Definition swap_used_kb (l : list swapent) : Z :=
  fold_right (fun e acc => Z.quot (se_inuse e) 2 + acc) 0 (List.filter enabled l).
Definition swap_total_kb (l : list swapent) : Z :=
  fold_right (fun e acc => Z.quot (se_nblks e) 2 + acc) 0 (List.filter enabled l).

(** The enabled devices use between nothing and all of their blocks. *)
Definition devices_sane (l : list swapent) : Prop :=
  Forall (fun e => enabled e = true -> 0 <= se_inuse e <= se_nblks e) l.

(** A machine with pages of 4 KiB, 1000 pages in use and 500 free, and
    two swap devices of which the first is enabled. *)
Definition no_swap : swap_env :=
  {| swap_nswap := 0; malloc_ok := true; swap_stats := 0; swdev := [] |}.

Definition two_swap_devices : swap_env :=
  {| swap_nswap := 2; malloc_ok := true; swap_stats := 2;
     swdev := [ {| se_flags := 2; se_nblks := 2048; se_inuse := 512 |};
                {| se_flags := 0; se_nblks := 4096; se_inuse := 1000 |} ] |}.

Definition mem_env_of (sw : swap_env) : mem_env :=
  {| pagesize := 4096; vm_meter := Some {| t_rm := 1000; t_free := 500 |};
     swap_devices := sw; stack_swap_used := 0; stack_swap_avail := 0 |}.

End Mem.
Export Mem.

(** ** Sensors: [parse_obsd_sensor], [update_obsd_sensors], [print_obsd_sensors_*] *)

Module Sensors.

Definition MAXSENSORDEVICES : Z := 128.
Definition OBSD_MAX_SENSORS : Z := 256.

(** Constants of <sys/sensors.h>. *)
Definition SENSOR_FINVALID : Z := 1.
Definition SENSOR_TEMP : Z := 0.
Definition SENSOR_FANRPM : Z := 1.
Definition SENSOR_VOLTS_DC : Z := 2.

(** [struct sensor]: [flags] and [numt] are [int], [value] is [int64_t]. *)
Record sensor := { s_flags : Z; s_numt : Z; s_value : Z }.

(** [struct sensordev]: the number of sensors of each type. *)
Record sensordev := { maxnumt : Z -> Z }.

(** The two [sysctl] calls: the device [dev], and the sensor [numt] of
    type [t] of the device [dev]; [None] is a call that returns -1. *)
Record sensor_env := {
  read_sensordev : Z -> option sensordev;
  read_sensor : Z -> Z -> Z -> option sensor
}.

(** An array [T name[MAXSENSORDEVICES][OBSD_MAX_SENSORS]]: the list of
    its rows, each the list of its elements. *)
Definition table (A : Type) : Type := list (list A).

(** [name[d][k]], read.  The indices are [int]s that nothing checks: one
    that is negative, or not below the bound of its dimension, is outside
    the array, the access is undefined in C, and the result here is
    [None]. *)
Definition table_get {A : Type} (t : table A) (d k : Z) : option A :=
  if (0 <=? d) && (0 <=? k) then
    match t !! Z.to_nat d with
    | Some row => row !! Z.to_nat k
    | None => None
    end
  else None.

(** [name[d][k] = x], with [None] again for an index outside the array. *)
Definition table_set {A : Type} (t : table A) (d k : Z) (x : A) : option (table A) :=
  if (0 <=? d) && (0 <=? k) then
    match t !! Z.to_nat d with
    | Some row =>
        if decide (Z.to_nat k < length row)%nat
        then Some (<[Z.to_nat d := <[Z.to_nat k := x]> row]> t)
        else None
    | None => None
    end
  else None.

(** [obsd_sensors]:
<<
static struct obsd_sensors_struct {
  int device;
  float temp[MAXSENSORDEVICES][OBSD_MAX_SENSORS];
  unsigned int fan[MAXSENSORDEVICES][OBSD_MAX_SENSORS];
  float volt[MAXSENSORDEVICES][OBSD_MAX_SENSORS];
} obsd_sensors;
>> *)
Record obsd_sensors_struct := {
  device : Z;
  temp : table spec_float;
  fan : table Z;
  volt : table spec_float
}.

Record sensors_state := { obsd_sensors : obsd_sensors_struct; init_sensors : Z }.

(** Conversion of a [double] to [float]. *)
Definition f32_of_f64 (x : spec_float) : spec_float :=
  match x with
  | S754_finite s m e => binary_round prec32 emax32 s m e
  | _ => x
  end.

(** [(sensor.value - 273150000) / 1000000.0] and
    [sensor.value / 1000000.0], stored in a [float]: the subtraction is
    on [int64_t], the division on [double]. *)
Definition celsius_of (v : Z) : spec_float :=
  f32_of_f64 (f64_div (f64_of_Z (s64_sub v 273150000)) (f64_of_Z 1000000)).

Definition volts_of (v : Z) : spec_float :=
  f32_of_f64 (f64_div (f64_of_Z v) (f64_of_Z 1000000)).

(** The [switch] on the sensor type, for a valid sensor [s]; the [fan]
    table holds [unsigned int]:
<<
      switch (type) {
        case SENSOR_TEMP:
          obsd_sensors.temp[dev][sensor.numt] =
              (sensor.value - 273150000) / 1000000.0;
          break;
        case SENSOR_FANRPM:
          obsd_sensors.fan[dev][sensor.numt] = sensor.value;
          break;
        case SENSOR_VOLTS_DC:
          obsd_sensors.volt[dev][sensor.numt] = sensor.value / 1000000.0;
          break;
        default:
          break;
      }
>>
    [None] when the cell written is outside its table. *)
Definition record_sensor (dev type : Z) (s : sensor) (o : obsd_sensors_struct)
    : option obsd_sensors_struct :=
  if type =? SENSOR_TEMP then
    match table_set (temp o) dev (s_numt s) (celsius_of (s_value s)) with
    | Some t => Some {| device := device o; temp := t; fan := fan o; volt := volt o |}
    | None => None
    end
  else if type =? SENSOR_FANRPM then
    match table_set (fan o) dev (s_numt s) (u32 (s_value s)) with
    | Some t => Some {| device := device o; temp := temp o; fan := t; volt := volt o |}
    | None => None
    end
  else if type =? SENSOR_VOLTS_DC then
    match table_set (volt o) dev (s_numt s) (volts_of (s_value s)) with
    | Some t => Some {| device := device o; temp := temp o; fan := fan o; volt := t |}
    | None => None
    end
  else Some o.

(** The body of the inner loop: a sensor that cannot be read, or that
    is flagged invalid, is skipped. *)
Definition sensor_step (env : sensor_env) (dev type numt : Z) (o : obsd_sensors_struct)
    : option obsd_sensors_struct :=
  match read_sensor env dev type numt with
  | None => Some o
  | Some s =>
      if negb (Z.land (s_flags s) SENSOR_FINVALID =? 0) then Some o
      else record_sensor dev type s o
  end.

(** [for (numt = 0; numt < sensordev.maxnumt[type]; numt++)], with [todo]
    iterations left. *)
Fixpoint numt_loop (env : sensor_env) (dev type : Z) (todo : nat) (numt : Z)
    (o : obsd_sensors_struct) : option obsd_sensors_struct :=
  match todo with
  | O => Some o
  | S todo' =>
      match sensor_step env dev type numt o with
      | Some o' => numt_loop env dev type todo' (numt + 1) o'
      | None => None
      end
  end.

(** [for (int t = 0; t < SENSOR_MAX_TYPES; t++)] *)
Fixpoint type_loop (env : sensor_env) (dev : Z) (sd : sensordev) (todo : nat) (t : Z)
    (o : obsd_sensors_struct) : option obsd_sensors_struct :=
  match todo with
  | O => Some o
  | S todo' =>
      match numt_loop env dev t (Z.to_nat (maxnumt sd t)) 0 o with
      | Some o' => type_loop env dev sd todo' (t + 1) o'
      | None => None
      end
  end.

(** [obsd_sensors.device = sensor_device.get( *state)] *)
Definition select_device (d : Z) (st : sensors_state) : sensors_state :=
  {| obsd_sensors := {| device := d; temp := temp (obsd_sensors st);
                        fan := fan (obsd_sensors st); volt := volt (obsd_sensors st) |};
     init_sensors := init_sensors st |}.

Section Types.

(** [SENSOR_MAX_TYPES] of <sys/sensors.h>. *)
Variable SENSOR_MAX_TYPES : nat.

(** [update_obsd_sensors]: the return value and the globals; [None] when
    a write falls outside a table.  A device the kernel does not know
    makes the first [sysctl] fail, and the function returns before any
    table is touched. *)
Definition update_obsd_sensors (env : sensor_env) (st : sensors_state)
    : option (Z * sensors_state) :=
  let dev := device (obsd_sensors st) in
  match read_sensordev env dev with
  | None => Some (0, st)
  | Some sd =>
      match type_loop env dev sd SENSOR_MAX_TYPES 0 (obsd_sensors st) with
      | Some o' => Some (0, {| obsd_sensors := o'; init_sensors := 1 |})
      | None => None
      end
  end.

(** [print_obsd_sensors_temp], [print_obsd_sensors_fan] and
    [print_obsd_sensors_volt]: the device is taken from the setting
    [sensor_device], which is not checked, the tables are updated, and
    the cell of the sensor [obj->data.l] is read, as in
<<
  obsd_sensors.device = sensor_device.get( *state);
  update_obsd_sensors();
  temp_print(p, p_max_size, obsd_sensors.temp[obsd_sensors.device][obj->data.l],
             TEMP_CELSIUS, 1);
>>
    The result is the value handed to [temp_print] or [snprintf], and
    the globals; [None] when an access falls outside a table. *)
Definition print_obsd_sensors_temp (env : sensor_env) (sensor_device l : Z)
    (st : sensors_state) : option (spec_float * sensors_state) :=
  match update_obsd_sensors env (select_device sensor_device st) with
  | Some (_, st') =>
      match table_get (temp (obsd_sensors st')) (device (obsd_sensors st')) l with
      | Some x => Some (x, st')
      | None => None
      end
  | None => None
  end.

Definition print_obsd_sensors_fan (env : sensor_env) (sensor_device l : Z)
    (st : sensors_state) : option (Z * sensors_state) :=
  match update_obsd_sensors env (select_device sensor_device st) with
  | Some (_, st') =>
      match table_get (fan (obsd_sensors st')) (device (obsd_sensors st')) l with
      | Some x => Some (x, st')
      | None => None
      end
  | None => None
  end.

Definition print_obsd_sensors_volt (env : sensor_env) (sensor_device l : Z)
    (st : sensors_state) : option (spec_float * sensors_state) :=
  match update_obsd_sensors env (select_device sensor_device st) with
  | Some (_, st') =>
      match table_get (volt (obsd_sensors st')) (device (obsd_sensors st')) l with
      | Some x => Some (x, st')
      | None => None
      end
  | None => None
  end.

End Types.

(** [isdigit] in the C locale. *)
Definition isdigit (c : Ascii.ascii) : bool :=
  (48 <=? Z.of_N (Ascii.N_of_ascii c)) && (Z.of_N (Ascii.N_of_ascii c) <=? 57).

(** [arg[0]]: the terminating NUL for the empty string. *)
Definition first_char (arg : string) : Ascii.ascii :=
  match arg with
  | EmptyString => Ascii.zero
  | String c _ => c
  end.

Section Parse.

(** [atoi] of the C library. *)
Variable atoi : string -> Z.

(** [parse_obsd_sensor]: the value stored in [obj->data.l], and whether
    the error was logged.
<<
  if (!isdigit((unsigned char)arg[0]) || atoi(&arg[0]) < 0 ||
      atoi(&arg[0]) > OBSD_MAX_SENSORS - 1) {
    obj->data.l = 0;
    NORM_ERR("Invalid sensor number!");
  } else
    obj->data.l = atoi(&arg[0]);
>> *)
Definition parse_obsd_sensor (arg : string) : Z * bool :=
  if negb (isdigit (first_char arg)) || (atoi arg <? 0)
     || (OBSD_MAX_SENSORS - 1 <? atoi arg)
  then (0, true)
  else (atoi arg, false).

End Parse.

(** *** Vocabulary of the statements *)

(** The value of the decimal digits a string starts with. *)
Fixpoint digits_value (s : string) (acc : Z) : Z :=
  match s with
  | String c s' =>
      if isdigit c then digits_value s' (10 * acc + (Z.of_N (Ascii.N_of_ascii c) - 48))
      else acc
  | EmptyString => acc
  end.

(** What the statements ask of [atoi]: on a string that starts with a
    digit it returns the value of the leading digits, when that is an
    [int]. *)
Definition reads_decimal (atoi : string -> Z) : Prop :=
  forall s : string,
    isdigit (first_char s) = true -> digits_value s 0 < 2 ^ 31 ->
    atoi s = digits_value s 0.

(** The decimal writing of [n] starts with a digit and reads back as [n]. *)
Definition check_round_trip (n : N) : bool :=
  let s := pretty n in
  isdigit (first_char s) && (digits_value s 0 =? Z.of_N n).

(** The three tables have [MAXSENSORDEVICES] rows of [OBSD_MAX_SENSORS]
    elements, as declared. *)
Definition table_ok {A : Type} (t : table A) : Prop :=
  length t = Z.to_nat MAXSENSORDEVICES /\
  Forall (fun row => length row = Z.to_nat OBSD_MAX_SENSORS) t.

Definition tables_ok (o : obsd_sensors_struct) : Prop :=
  table_ok (temp o) /\ table_ok (fan o) /\ table_ok (volt o).

(** Every sensor the kernel returns for the device has an index inside
    a row of the tables. *)
Definition sensors_in_row (env : sensor_env) (dev : Z) : Prop :=
  forall (type numt : Z) (s : sensor),
    read_sensor env dev type numt = Some s -> 0 <= s_numt s < OBSD_MAX_SENSORS.

(** The rows of the devices other than [dev] hold in [o'] what they
    hold in [o], and the selection is the same. *)
Definition other_rows_kept (dev : Z) (o o' : obsd_sensors_struct) : Prop :=
  device o' = device o /\
  forall d k : Z, d <> dev ->
    table_get (temp o') d k = table_get (temp o) d k /\
    table_get (fan o') d k = table_get (fan o) d k /\
    table_get (volt o') d k = table_get (volt o) d k.

(** The selection and the numbers of rows are the same in [o'] as in
    [o], and [o'] has the declared shape if [o] has. *)
Definition same_shape (o o' : obsd_sensors_struct) : Prop :=
  device o' = device o /\
  length (temp o') = length (temp o) /\ length (fan o') = length (fan o) /\
  length (volt o') = length (volt o) /\
  (tables_ok o -> tables_ok o').

(** What a table holds in a cell: a [float] or an [unsigned int]; the
    types other than the three of the [switch] have no table. *)
Inductive table_entry := FloatEntry (x : spec_float) | CountEntry (n : Z) | NoEntry.

(** The cell of sensor [k] of device [d] in the table of the type;
    [None] outside the table. *)
Definition table_value (type : Z) (o : obsd_sensors_struct) (d k : Z) : option table_entry :=
  if type =? SENSOR_TEMP then FloatEntry <$> table_get (temp o) d k
  else if type =? SENSOR_FANRPM then CountEntry <$> table_get (fan o) d k
  else if type =? SENSOR_VOLTS_DC then FloatEntry <$> table_get (volt o) d k
  else Some NoEntry.

Definition converted (type : Z) (s : sensor) : table_entry :=
  if type =? SENSOR_TEMP then FloatEntry (celsius_of (s_value s))
  else if type =? SENSOR_FANRPM then CountEntry (u32 (s_value s))
  else if type =? SENSOR_VOLTS_DC then FloatEntry (volts_of (s_value s))
  else NoEntry.

(** The sensor [k] of type [type] is asked of the kernel during the
    update of a device that answered [sd]. *)
Definition asked (types : nat) (sd : sensordev) (type k : Z) : bool :=
  (0 <=? type) && (type <? Z.of_nat types) && (0 <=? k) && (k <? maxnumt sd type).

(** The entry after the kernel was asked: the converted value of a
    sensor that is readable and valid, the entry as it was otherwise. *)
Definition refreshed (env : sensor_env) (dev type k : Z) (old : option table_entry)
    : option table_entry :=
  match read_sensor env dev type k with
  | Some s =>
      if negb (Z.land (s_flags s) SENSOR_FINVALID =? 0) then old
      else Some (converted type s)
  | None => old
  end.

(** The kernel answers with the sensor it was asked for. *)
Definition answers_as_asked (env : sensor_env) (dev : Z) : Prop :=
  forall (type numt : Z) (s : sensor),
    read_sensor env dev type numt = Some s -> s_numt s = numt.

(** A device with one sensor of each type, all of them valid, a device
    with a single fan, and tables that hold nothing yet. *)
Definition one_sensor_each : sensor_env :=
  {| read_sensordev := fun _ => Some {| maxnumt := fun _ => 1 |};
     read_sensor := fun _ _ _ =>
       Some {| s_flags := 0; s_numt := 0; s_value := 300150000 |} |}.

Definition one_fan : sensor_env :=
  {| read_sensordev := fun _ => Some {| maxnumt := fun _ => 1 |};
     read_sensor := fun _ t n =>
       if (t =? SENSOR_FANRPM) && (n =? 0)
       then Some {| s_flags := 0; s_numt := 0; s_value := 1200 |}
       else None |}.

Definition empty_table {A : Type} (x : A) : table A :=
  replicate (Z.to_nat MAXSENSORDEVICES) (replicate (Z.to_nat OBSD_MAX_SENSORS) x).

Definition empty_tables : sensors_state :=
  {| obsd_sensors := {| device := 0; temp := empty_table fzero; fan := empty_table 0;
                        volt := empty_table fzero |};
     init_sensors := 0 |}.

End Sensors.
Export Sensors.

(** ** Process times: [to_conky_time] *)

Module ProcTime.

Definition f64_mul : spec_float -> spec_float -> spec_float := SFmul prec64 emax64.

(** Conversion of a [double] to [unsigned long]: the fraction is
    discarded.  (The values converted here are finite, not negative and
    far below 2^64.) *)
Definition trunc_f64 (x : spec_float) : Z :=
  match x with
  | S754_finite s m e =>
      let v := match e with
               | Z.neg p => Z.pos m / 2 ^ Z.pos p
               | _ => Z.pos m * 2 ^ e
               end in
      if s then - v else v
  | _ => 0
  end.

(** [(unsigned long)(usec * 0.0001)] *)
Definition usec_part (usec : Z) : Z := trunc_f64 (f64_mul (f64_of_Z usec) f64_0_0001).

(** [to_conky_time]: [sec * 100] is computed on 32 bits ([u_int32_t]
    times [int]), the sum on 64 ([unsigned long]).
<<
  return sec * 100 + (unsigned long)(usec * 0.0001);
>> *)
Definition to_conky_time (sec usec : Z) : Z := u64_add (u32 (sec * 100)) (usec_part usec).

(** *** Vocabulary of the proofs *)

(** The number built from a mantissa of [prec] bits, or of [prec + 1]
    bits after a carry. *)
Definition renorm (prec : Z) (k e : Z) : spec_float :=
  if k <? 2 ^ prec then S754_finite false (Z.to_pos k) e
  else S754_finite false (Z.to_pos (2 ^ (prec - 1))) (e + 1).

(** The mantissa of the double nearest to 0.0001, which is a little
    above it. *)
Definition m_0_0001 : Z := 7378697629483821.

End ProcTime.
Export ProcTime.

(** * Facts about the rounding of binary32 numbers *)

Module FpFacts.

(** ** Digits and shifts

    [SpecFloat] iterates with its own [iter_pos]; it agrees with
    [Pos.iter]. *)
Lemma iter_pos_iter {A : Type} (f : A -> A) (p : positive) (x : A) :
  SpecFloat.iter_pos f p x = Pos.iter f x p.
Proof.
  revert x. induction p as [p IH|p IH|]; intros x; simpl.
  - rewrite !IH, !Pos.iter_swap. reflexivity.
  - rewrite !IH. reflexivity.
  - reflexivity.
Qed.

(** [digits2_pos p] is the number of binary digits of [p]. *)
Lemma digits2_pos_bounds (p : positive) :
  2 ^ (Z.pos (digits2_pos p) - 1) <= Z.pos p < 2 ^ Z.pos (digits2_pos p).
Proof.
  induction p as [p IH|p IH|]; simpl digits2_pos.
  - rewrite Pos2Z.inj_succ.
    replace (Z.succ (Z.pos (digits2_pos p)) - 1) with (Z.succ (Z.pos (digits2_pos p) - 1)) by lia.
    rewrite !Z.pow_succ_r by lia. lia.
  - rewrite Pos2Z.inj_succ.
    replace (Z.succ (Z.pos (digits2_pos p)) - 1) with (Z.succ (Z.pos (digits2_pos p) - 1)) by lia.
    rewrite !Z.pow_succ_r by lia. lia.
  - simpl. lia.
Qed.

Lemma Zdigits2_unique (q d : Z) :
  2 ^ (d - 1) <= q < 2 ^ d -> 0 < d -> Zdigits2 q = d.
Proof.
  intros Hq Hd.
  assert (0 < q) by (pose proof (Z.pow_pos_nonneg 2 (d - 1)); lia).
  destruct q as [|p|p]; try lia. simpl.
  pose proof (digits2_pos_bounds p) as Hp.
  set (d' := Z.pos (digits2_pos p)) in *.
  assert (d' = d); [|lia].
  destruct (Z.lt_trichotomy d' d) as [Hlt|[Heq|Hgt]]; [|assumption|].
  - assert (2 ^ d' <= 2 ^ (d - 1)) by (apply Z.pow_le_mono_r; lia). lia.
  - assert (2 ^ d <= 2 ^ (d' - 1)) by (apply Z.pow_le_mono_r; lia). lia.
Qed.

Lemma Zdigits2_bounds (q : Z) :
  0 < q -> 0 < Zdigits2 q /\ 2 ^ (Zdigits2 q - 1) <= q < 2 ^ Zdigits2 q.
Proof.
  intros Hq. destruct q as [|p|p]; try lia. simpl.
  split; [lia|apply digits2_pos_bounds].
Qed.

(** One step of [shr] on a non-negative mantissa: halve it, keep the bit
    that falls off as the round bit, fold the old round bit into the
    sticky bit. *)
Lemma shr_1_nonneg (m : Z) (r s : bool) :
  0 <= m ->
  shr_1 {| shr_m := m; shr_r := r; shr_s := s |} =
  {| shr_m := m / 2; shr_r := Z.odd m; shr_s := r || s |}.
Proof.
  intros Hm. rewrite <- Z.div2_div.
  destruct m as [|[p|p|]|p]; try lia; reflexivity.
Qed.

(** Bit [n] is set or the [n] bits below are not all zero exactly when
    the [n + 1] low bits are not all zero. *)
Lemma sticky_step (m n : Z) :
  0 <= m -> 0 <= n ->
  Z.testbit m n || negb (m mod 2 ^ n =? 0) = negb (m mod 2 ^ (n + 1) =? 0).
Proof.
  intros Hm Hn.
  rewrite Z.pow_add_r by lia. change (2 ^ 1) with 2.
  assert (Hp : 0 < 2 ^ n) by (apply Z.pow_pos_nonneg; lia).
  rewrite Z.rem_mul_r by lia.
  pose proof (Z.mod_pos_bound m (2 ^ n) Hp).
  destruct (Z.testbit m n) eqn:E.
  - apply Z.testbit_true in E; [|lia]. rewrite E. simpl.
    symmetry. apply negb_true_iff, Z.eqb_neq. lia.
  - apply Z.testbit_false in E; [|lia]. rewrite E. simpl.
    rewrite Z.mul_0_r, Z.add_0_r. reflexivity.
Qed.

(** [p] steps of [shr]: the quotient by [2^p], the highest dropped bit,
    and whether anything below it was dropped. *)
Lemma shr_iter (p : positive) (m : Z) (r0 s0 : bool) :
  0 <= m ->
  Pos.iter shr_1 {| shr_m := m; shr_r := r0; shr_s := s0 |} p =
  {| shr_m := m / 2 ^ Z.pos p;
     shr_r := Z.testbit m (Z.pos p - 1);
     shr_s := negb (m mod 2 ^ (Z.pos p - 1) =? 0) || (r0 || s0) |}.
Proof.
  intros Hm. induction p as [|p IH] using Pos.peano_ind.
  - cbn [Pos.iter]. rewrite shr_1_nonneg by assumption.
    change (Z.testbit m (1 - 1)) with (Z.testbit m 0).
    rewrite Z.bit0_odd. change (2 ^ (1 - 1)) with 1. rewrite Z.mod_1_r. reflexivity.
  - rewrite Pos.iter_succ, IH.
    assert (Hp : 0 < 2 ^ Z.pos p) by (apply Z.pow_pos_nonneg; lia).
    rewrite shr_1_nonneg by (apply Z.div_pos; lia).
    rewrite Pos2Z.inj_succ. f_equal.
    + rewrite Z.pow_succ_r by lia. rewrite Z.div_div by lia. f_equal. lia.
    + replace (Z.succ (Z.pos p) - 1) with (Z.pos p) by lia.
      rewrite <- Z.bit0_odd, Z.div_pow2_bits by lia. reflexivity.
    + replace (Z.succ (Z.pos p) - 1) with (Z.pos p - 1 + 1) by lia.
      rewrite <- sticky_step by lia. 
      rewrite orb_assoc. reflexivity.
Qed.

Lemma shr_m_record_of_loc (q : Z) (l : location) : shr_m (shr_record_of_loc q l) = q.
Proof. destruct l as [|[]]; reflexivity. Qed.

Lemma record_of_loc_eta (q : Z) (l : location) :
  shr_record_of_loc q l =
  {| shr_m := q; shr_r := shr_r (shr_record_of_loc q l); shr_s := shr_s (shr_record_of_loc q l) |}.
Proof. destruct l as [|[]]; reflexivity. Qed.

Lemma shifted_m (q : Z) (l : location) (s : Z) :
  0 <= q -> 0 <= s -> shr_m (shifted q l s) = q / 2 ^ s.
Proof.
  intros Hq Hs. destruct s as [|p|p]; try lia; simpl shifted.
  - rewrite shr_m_record_of_loc. change (2 ^ 0) with 1. now rewrite Z.div_1_r.
  - rewrite record_of_loc_eta, shr_iter by assumption. reflexivity.
Qed.

Lemma round_nearest_even_range (k : Z) (l : location) :
  k <= round_nearest_even k l <= k + 1.
Proof. destruct l as [|[]]; simpl; try lia. destruct (Z.even k); lia. Qed.

(** Dropping [digits - 24] bits leaves a mantissa of exactly 24 bits. *)
Lemma shifted_range (q s : Z) :
  2 ^ 23 <= q -> s = Zdigits2 q - 24 -> 0 <= s /\ 2 ^ 23 <= q / 2 ^ s < 2 ^ 24.
Proof.
  intros Hq ->.
  destruct (Zdigits2_bounds q ltac:(lia)) as [Hd [Hlo Hhi]].
  set (d := Zdigits2 q) in *.
  assert (24 <= d).
  { destruct (Z.lt_ge_cases d 24) as [Hlt|]; [|assumption].
    assert (2 ^ d <= 2 ^ 23) by (apply Z.pow_le_mono_r; lia). lia. }
  split; [lia|].
  assert (Hp : 0 < 2 ^ (d - 24)) by (apply Z.pow_pos_nonneg; lia).
  replace (2 ^ (d - 1)) with (2 ^ 23 * 2 ^ (d - 24)) in Hlo
    by (rewrite <- Z.pow_add_r by lia; f_equal; lia).
  replace (2 ^ d) with (2 ^ 24 * 2 ^ (d - 24)) in Hhi
    by (rewrite <- Z.pow_add_r by lia; f_equal; lia).
  split.
  - apply Z.div_le_lower_bound; lia.
  - apply Z.div_lt_upper_bound; lia.
Qed.

Lemma rounded_range (q : Z) (l : location) (s : Z) :
  2 ^ 23 <= q -> s = Zdigits2 q - 24 -> 2 ^ 23 <= rounded q l s <= 2 ^ 24.
Proof.
  intros Hq Hs. destruct (shifted_range q s Hq Hs) as [Hs0 Hk].
  unfold rounded. cbv zeta.
  pose proof (round_nearest_even_range (shr_m (shifted q l s)) (loc_of_shr_record (shifted q l s))) as H.
  rewrite shifted_m in H by lia. rewrite shifted_m by lia. lia.
Qed.

(** ** [binary_round_aux] at binary32

    For a mantissa of at least 24 digits whose result cannot underflow
    or overflow: shift down to 24 digits, round, and renormalize when the
    rounding carried into a 25th digit. *)
Lemma binary_round_aux_32 (q e : Z) (l : location) :
  2 ^ 23 <= q ->
  -149 <= e + (Zdigits2 q - 24) <= 103 ->
  binary_round_aux prec32 emax32 false q e l =
  renorm32 (rounded q l (Zdigits2 q - 24)) (e + (Zdigits2 q - 24)).
Proof.
  intros Hq He.
  set (s := Zdigits2 q - 24) in *.
  destruct (shifted_range q s Hq eq_refl) as [Hs0 Hk].
  pose proof (rounded_range q l s Hq eq_refl) as Hr.
  unfold binary_round_aux, shr_fexp at 1.
  assert (Hsh : fexp prec32 emax32 (Zdigits2 q + e) - e = s).
  { unfold fexp, emin, prec32, emax32. lia. }
  rewrite Hsh.
  assert (Hshr : shr (shr_record_of_loc q l) e s = (shifted q l s, e + s)).
  { unfold shr, shifted. destruct s as [|p|p]; try lia; [f_equal; lia|].
    rewrite iter_pos_iter. reflexivity. }
  rewrite Hshr. fold (rounded q l s).
  set (k1 := rounded q l s) in *.
  unfold renorm32. destruct (Z.ltb_spec k1 (2 ^ 24)) as [Hlt|Hge].
  - assert (Hd : Zdigits2 k1 = 24) by (apply Zdigits2_unique; simpl; lia).
    unfold shr_fexp. rewrite Hd.
    assert (Hz : fexp prec32 emax32 (24 + (e + s)) - (e + s) = 0).
    { unfold fexp, emin, prec32, emax32. lia. }
    rewrite Hz. simpl shr. simpl shr_m.
    destruct k1 as [|p|p]; try lia.
    assert (Hle : (e + s <=? emax32 - prec32) = true).
    { apply Z.leb_le. unfold prec32, emax32. lia. }
    rewrite Hle. reflexivity.
  - assert (k1 = 2 ^ 24) as -> by lia.
    unfold shr_fexp. change (Zdigits2 (2 ^ 24)) with 25.
    assert (Hz : fexp prec32 emax32 (25 + (e + s)) - (e + s) = 1).
    { unfold fexp, emin, prec32, emax32. lia. }
    rewrite Hz.
    replace (shr (shr_record_of_loc (2 ^ 24) loc_Exact) (e + s) 1)
      with ({| shr_m := Z.pos (2 ^ 23); shr_r := false; shr_s := false |}, e + s + 1)
      by reflexivity.
    cbv beta iota zeta. cbn [shr_m].
    assert (Hle : (e + s + 1 <=? emax32 - prec32) = true).
    { apply Z.leb_le. unfold prec32, emax32. lia. }
    rewrite Hle. reflexivity.
Qed.

Lemma iter_xO (p k : positive) : Z.pos (Pos.iter xO p k) = Z.pos p * 2 ^ Z.pos k.
Proof.
  induction k as [|k IH] using Pos.peano_ind.
  - simpl. lia.
  - rewrite Pos.iter_succ, Pos2Z.inj_xO, IH, Pos2Z.inj_succ, Z.pow_succ_r by lia. lia.
Qed.

Lemma rounded_exact_0 (n : Z) : rounded n loc_Exact 0 = n.
Proof. reflexivity. Qed.

(** The rounding of an exact integer that loses [s >= 1] bits, read off
    the quotient and remainder by [2^s]. *)
Lemma rounded_exact (n s : Z) :
  0 <= n -> 1 <= s -> rounded n loc_Exact s = rne_shift n s.
Proof.
  intros Hn Hs. unfold rounded, shifted, rne_shift.
  destruct s as [|p|p]; try lia.
  cbn [shr_record_of_loc]. rewrite shr_iter by assumption. cbv zeta. cbn [shr_m].
  set (half := 2 ^ (Z.pos p - 1)).
  assert (Hh : 0 < half) by (apply Z.pow_pos_nonneg; lia).
  assert (E2 : 2 ^ Z.pos p = half * 2).
  { unfold half. replace (Z.pos p) with (Z.succ (Z.pos p - 1)) at 1 by lia.
    rewrite Z.pow_succ_r by lia. lia. }
  assert (Erem : n mod 2 ^ Z.pos p = n mod half + half * ((n / half) mod 2)).
  { rewrite E2. apply Z.rem_mul_r; lia. }
  rewrite Erem. clear Erem.
  pose proof (Z.mod_pos_bound n half Hh) as Hm.
  cbn [orb]. rewrite orb_false_r.
  destruct (Z.testbit n (Z.pos p - 1)) eqn:Eb.
  - apply Z.testbit_true in Eb; [|lia]. fold half in Eb. rewrite Eb.
    destruct (Z.eqb_spec (n mod half) 0) as [E0|E0]; simpl.
    + rewrite E0. replace (half <? 0 + half * 1) with false by (symmetry; apply Z.ltb_ge; lia).
      replace (0 + half * 1 =? half) with true by (symmetry; apply Z.eqb_eq; lia).
      simpl. rewrite <- Z.negb_odd. destruct (Z.odd _); reflexivity.
    + replace (half <? n mod half + half * 1) with true by (symmetry; apply Z.ltb_lt; lia).
      reflexivity.
  - apply Z.testbit_false in Eb; [|lia]. fold half in Eb. rewrite Eb.
    replace (half <? n mod half + half * 0) with false by (symmetry; apply Z.ltb_ge; lia).
    replace (n mod half + half * 0 =? half) with false by (symmetry; apply Z.eqb_neq; lia).
    destruct (Z.eqb_spec (n mod half) 0); reflexivity.
Qed.

Lemma rne_shift_mono (n n' s : Z) :
  0 <= n <= n' -> 1 <= s -> rne_shift n s <= rne_shift n' s.
Proof.
  intros Hn Hs. unfold rne_shift. cbv zeta.
  assert (Hp : 0 < 2 ^ s) by (apply Z.pow_pos_nonneg; lia).
  pose proof (Z.div_mod n (2 ^ s) ltac:(lia)) as D.
  pose proof (Z.div_mod n' (2 ^ s) ltac:(lia)) as D'.
  pose proof (Z.mod_pos_bound n (2 ^ s) Hp) as B.
  pose proof (Z.mod_pos_bound n' (2 ^ s) Hp) as B'.
  assert (Hk : n / 2 ^ s <= n' / 2 ^ s) by (apply Z.div_le_mono; lia).
  set (k := n / 2 ^ s) in *. set (k' := n' / 2 ^ s) in *.
  set (r := n mod 2 ^ s) in *. set (r' := n' mod 2 ^ s) in *.
  set (half := 2 ^ (s - 1)).
  destruct (Z.eq_dec k k') as [E|E].
  - rewrite <- E in *. assert (r <= r') by lia.
    destruct (Z.ltb_spec half r), (Z.ltb_spec half r'),
      (Z.eqb_spec r half), (Z.eqb_spec r' half), (Z.odd k); simpl; lia.
  - destruct ((half <? r) || (r =? half) && Z.odd k),
      ((half <? r') || (r' =? half) && Z.odd k'); lia.
Qed.

(** ** Conversion of a positive integer to [float] *)
Lemma f32_of_Z_pos (n : Z) :
  0 < n ->
  Zdigits2 n <= 127 ->
  f32_of_Z n =
  if Zdigits2 n <? 24 then
    S754_finite false (Z.to_pos (n * 2 ^ (24 - Zdigits2 n))) (Zdigits2 n - 24)
  else renorm32 (rounded n loc_Exact (Zdigits2 n - 24)) (Zdigits2 n - 24).
Proof.
  intros Hn Hd127.
  destruct (Zdigits2_bounds n Hn) as [Hd [Hlo Hhi]].
  destruct n as [|p|p]; try lia.
  unfold f32_of_Z, binary_normalize, binary_round.
  change (Z.pos (digits2_pos p)) with (Zdigits2 (Z.pos p)).
  set (d := Zdigits2 (Z.pos p)) in *.
  assert (Hf : fexp prec32 emax32 (d + 0) = d - 24).
  { unfold fexp, emin, prec32, emax32. lia. }
  rewrite Hf. unfold shl_align.
  destruct (Z.ltb_spec d 24) as [Hlt|Hge].
  - destruct (d - 24 - 0) as [|k|k] eqn:Ek; try lia.
    assert (Hk : Z.pos k = 24 - d) by lia.
    assert (Hm : Z.pos (Pos.iter xO p k) = Z.pos p * 2 ^ (24 - d)).
    { rewrite iter_xO, Hk. reflexivity. }
    assert (Hp : 0 < 2 ^ (24 - d)) by (apply Z.pow_pos_nonneg; lia).
    assert (Hdm : Zdigits2 (Z.pos (Pos.iter xO p k)) = 24).
    { apply Zdigits2_unique; [|lia]. rewrite Hm.
      replace (2 ^ (24 - 1)) with (2 ^ (d - 1) * 2 ^ (24 - d))
        by (rewrite <- Z.pow_add_r by lia; f_equal; lia).
      replace (2 ^ 24) with (2 ^ d * 2 ^ (24 - d))
        by (rewrite <- Z.pow_add_r by lia; f_equal; lia).
      nia. }
    rewrite binary_round_aux_32.
    + rewrite Hdm. change (24 - 24) with 0. rewrite rounded_exact_0, Z.add_0_r.
      unfold renorm32.
      assert (Z.pos (Pos.iter xO p k) < 2 ^ 24).
      { destruct (Zdigits2_bounds (Z.pos (Pos.iter xO p k)) ltac:(lia)) as [_ [_ H]].
        rewrite Hdm in H. exact H. }
      destruct (Z.ltb_spec (Z.pos (Pos.iter xO p k)) (2 ^ 24)); [|lia].
      rewrite <- Hm. reflexivity.
    + destruct (Zdigits2_bounds (Z.pos (Pos.iter xO p k)) ltac:(lia)) as [_ [H _]].
      rewrite Hdm in H. exact H.
    + rewrite Hdm. lia.
  - destruct (d - 24 - 0) as [|k|k] eqn:Ek; try lia.
    + rewrite binary_round_aux_32.
      * fold d. f_equal; lia.
      * assert (2 ^ 23 <= 2 ^ (d - 1)) by (apply Z.pow_le_mono_r; lia). lia.
      * fold d. lia.
    + rewrite binary_round_aux_32.
      * fold d. f_equal; lia.
      * assert (2 ^ 23 <= 2 ^ (d - 1)) by (apply Z.pow_le_mono_r; lia). lia.
      * fold d. lia.
Qed.

Lemma renorm32_shape (k e : Z) :
  2 ^ 23 <= k <= 2 ^ 24 ->
  exists m e2, normal32 (renorm32 k e) m e2 /\
    ((e2 = e /\ Z.pos m = k /\ k < 2 ^ 24) \/ (e2 = e + 1 /\ Z.pos m = 2 ^ 23 /\ k = 2 ^ 24)).
Proof.
  intros Hk. unfold renorm32, normal32.
  destruct (Z.ltb_spec k (2 ^ 24)).
  - exists (Z.to_pos k), e. rewrite Z2Pos.id by lia. split; [split; [reflexivity|lia]|]. left. lia.
  - exists (2 ^ 23)%positive, (e + 1). split; [split; [reflexivity|]|].
    + simpl. lia.
    + right. repeat split. lia.
Qed.

Lemma Zdigits2_u64 (n : Z) : 0 < n < 2 ^ 64 -> 1 <= Zdigits2 n <= 64.
Proof.
  intros Hn. destruct (Zdigits2_bounds n ltac:(lia)) as [Hd [Hlo Hhi]].
  split; [lia|].
  destruct (Z.le_gt_cases (Zdigits2 n) 64) as [|Hgt]; [assumption|].
  assert (2 ^ 64 <= 2 ^ (Zdigits2 n - 1)) by (apply Z.pow_le_mono_r; lia). lia.
Qed.

Lemma Zdigits2_mono (n n' : Z) : 0 < n <= n' -> Zdigits2 n <= Zdigits2 n'.
Proof.
  intros Hn.
  destruct (Zdigits2_bounds n ltac:(lia)) as [Hd [Hlo Hhi]].
  destruct (Zdigits2_bounds n' ltac:(lia)) as [Hd' [Hlo' Hhi']].
  destruct (Z.le_gt_cases (Zdigits2 n) (Zdigits2 n')) as [|Hgt]; [assumption|].
  assert (2 ^ Zdigits2 n' <= 2 ^ (Zdigits2 n - 1)) by (apply Z.pow_le_mono_r; lia). lia.
Qed.

(** The conversion of a non-zero [u_int64_t] is a positive normal number. *)
Lemma f32_of_Z_normal (n : Z) :
  0 < n < 2 ^ 64 ->
  exists m e, normal32 (f32_of_Z n) m e /\ -23 <= e <= 41 /\
    ((Zdigits2 n < 24 /\ e = Zdigits2 n - 24 /\ Z.pos m = n * 2 ^ (24 - Zdigits2 n)) \/
     (24 <= Zdigits2 n /\ e = Zdigits2 n - 24 /\
      Z.pos m = rounded n loc_Exact (Zdigits2 n - 24) /\ Z.pos m < 2 ^ 24) \/
     (24 <= Zdigits2 n /\ e = Zdigits2 n - 24 + 1 /\ Z.pos m = 2 ^ 23 /\
      rounded n loc_Exact (Zdigits2 n - 24) = 2 ^ 24)).
Proof.
  intros Hn. pose proof (Zdigits2_u64 n Hn) as Hd.
  destruct (Zdigits2_bounds n ltac:(lia)) as [_ [Hlo Hhi]].
  rewrite f32_of_Z_pos by lia.
  set (d := Zdigits2 n) in *.
  destruct (Z.ltb_spec d 24) as [Hlt|Hge].
  - assert (Hp : 0 < 2 ^ (24 - d)) by (apply Z.pow_pos_nonneg; lia).
    exists (Z.to_pos (n * 2 ^ (24 - d))), (d - 24).
    rewrite Z2Pos.id by nia.
    split; [split; [reflexivity|]|split; [lia|left; lia]].
    replace (2 ^ 23) with (2 ^ (d - 1) * 2 ^ (24 - d))
      by (rewrite <- Z.pow_add_r by lia; f_equal; lia).
    replace (2 ^ 24) with (2 ^ d * 2 ^ (24 - d))
      by (rewrite <- Z.pow_add_r by lia; f_equal; lia).
    nia.
  - assert (H23 : 2 ^ 23 <= n).
    { assert (2 ^ 23 <= 2 ^ (d - 1)) by (apply Z.pow_le_mono_r; lia). lia. }
    pose proof (rounded_range n loc_Exact (d - 24) H23 eq_refl) as Hr.
    destruct (renorm32_shape _ (d - 24) Hr) as (m & e2 & Hnorm & [(E1 & E2 & E3)|(E1 & E2 & E3)]).
    + exists m, e2. split; [exact Hnorm|]. split; [lia|]. right; left. lia.
    + exists m, e2. split; [exact Hnorm|]. split; [lia|]. right; right. lia.
Qed.

Lemma normal32_inj (x : spec_float) (m m' : positive) (e e' : Z) :
  normal32 x m e -> normal32 x m' e' -> m = m' /\ e = e'.
Proof. intros [H _] [H' _]. rewrite H in H'. inversion H'. auto. Qed.

(** The conversion is monotone: on the same number of digits because
    [rne_shift] is, on fewer digits because the exponent is smaller, or
    equal after a carry, in which case the mantissa is the least one. *)
Lemma f32_of_Z_mono (n n' : Z) (m m' : positive) (e e' : Z) :
  0 < n <= n' -> n' < 2 ^ 64 ->
  normal32 (f32_of_Z n) m e -> normal32 (f32_of_Z n') m' e' ->
  le_normal m e m' e'.
Proof.
  intros Hn Hn' Hx Hx'.
  destruct (f32_of_Z_normal n ltac:(lia)) as (m1 & e1 & Hy & _ & C).
  destruct (f32_of_Z_normal n' ltac:(lia)) as (m2 & e2 & Hy' & _ & C').
  destruct (normal32_inj _ _ _ _ _ Hx Hy) as [-> ->].
  destruct (normal32_inj _ _ _ _ _ Hx' Hy') as [-> ->].
  clear Hx Hx'.
  pose proof (Zdigits2_mono n n' ltac:(lia)) as Hdd.
  destruct Hy as [_ Hm1]. destruct Hy' as [_ Hm2].
  set (d := Zdigits2 n) in *. set (d' := Zdigits2 n') in *.
  unfold le_normal.
  destruct (Z.eq_dec d d') as [Ed|Ed].
  - (* same number of digits *)
    rewrite <- Ed in *. clear Hdd.
    destruct C as [(A & B & C)|[(A & B & C & D)|(A & B & C & D)]];
    destruct C' as [(A' & B' & C')|[(A' & B' & C' & D')|(A' & B' & C' & D')]]; try lia.
    + right. split; [lia|]. rewrite C, C'.
      assert (0 < 2 ^ (24 - d)) by (apply Z.pow_pos_nonneg; lia). nia.
    + destruct (Z.eq_dec d 24) as [E24|E24].
      * right. split; [lia|]. rewrite C, C'. rewrite E24. change (24 - 24) with 0.
        rewrite !rounded_exact_0. lia.
      * right. split; [lia|]. rewrite C, C'.
        rewrite !rounded_exact by lia. apply rne_shift_mono; lia.
    + exfalso.
      destruct (Z.eq_dec d 24) as [E24|E24].
      * rewrite E24 in *. change (24 - 24) with 0 in *.
        rewrite rounded_exact_0 in *. lia.
      * rewrite rounded_exact in D, C' by lia.
        pose proof (rne_shift_mono n n' (d - 24) ltac:(lia) ltac:(lia)). lia.
  - (* fewer digits *)
    assert (d < d') by lia.
    destruct C as [(A & B & C)|[(A & B & C & D)|(A & B & C & D)]];
    destruct C' as [(A' & B' & C')|[(A' & B' & C' & D')|(A' & B' & C' & D')]]; try lia.
Qed.

(** ** Division of positive normal numbers *)
Lemma new_location_0 (nb : Z) : new_location nb 0 = loc_Exact.
Proof. unfold new_location. destruct (Z.even nb); reflexivity. Qed.

Lemma SFleb_normal_one (x : spec_float) (m : positive) (e : Z) :
  normal32 x m e ->
  e < -23 \/ (e = -23 /\ Z.pos m = 2 ^ 23) ->
  SFleb x f32_one = true.
Proof.
  intros [-> Hm] He. change f32_one with (S754_finite false (2 ^ 23)%positive (-23)).
  unfold SFleb, SFcompare.
  destruct He as [He|[-> Hmm]].
  - apply Z.compare_lt_iff in He. rewrite He. reflexivity.
  - assert (m = (2 ^ 23)%positive) as -> by lia. reflexivity.
Qed.

Lemma f32_div_self (m : positive) (e : Z) :
  2 ^ 23 <= Z.pos m < 2 ^ 24 ->
  f32_div (S754_finite false m e) (S754_finite false m e) = f32_one.
Proof.
  intros Hm. unfold f32_div, SFdiv, SFdiv_core_binary.
  assert (Hd : Zdigits2 (Z.pos m) = 24) by (apply Zdigits2_unique; simpl; lia).
  rewrite Hd.
  replace (24 + e - (24 + e)) with 0 by lia. rewrite Z.sub_diag.
  change (Z.min (fexp prec32 emax32 0) 0) with (-24).
  change (0 - -24) with 24. cbv iota.
  rewrite Z.shiftl_mul_pow2 by lia.
  assert (E : Z.div_eucl (Z.pos m * 2 ^ 24) (Z.pos m) = (2 ^ 24, 0)).
  { pose proof (Z.div_eucl_eq (Z.pos m * 2 ^ 24) (Z.pos m) ltac:(lia)) as H.
    pose proof (Z.mod_pos_bound (Z.pos m * 2 ^ 24) (Z.pos m) ltac:(lia)) as B.
    unfold Z.modulo in B.
    destruct (Z.div_eucl (Z.pos m * 2 ^ 24) (Z.pos m)) as [q r].
    cbv beta iota in H, B.
    assert (q = 2 ^ 24) by
      (destruct (Z.lt_trichotomy q (2 ^ 24)) as [L|[L|L]]; [|exact L|]; nia).
    subst q. f_equal. lia. }
  rewrite E, new_location_0. reflexivity.
Qed.

(** Dividing a positive normal number by one that is not smaller gives a
    quotient between 0 and 1. *)
Lemma f32_div_le_one (ma mb : positive) (ea eb : Z) :
  2 ^ 23 <= Z.pos ma < 2 ^ 24 ->
  2 ^ 23 <= Z.pos mb < 2 ^ 24 ->
  -23 <= ea <= 41 -> -23 <= eb <= 41 ->
  le_normal ma ea mb eb ->
  SFbetween fzero f32_one (f32_div (S754_finite false ma ea) (S754_finite false mb eb)).
Proof.
  intros Hma Hmb Hea Heb Hle.
  destruct (Z.eq_dec ea eb) as [Ee|Ee];
    [destruct (Z.eq_dec (Z.pos ma) (Z.pos mb)) as [Em|Em]|].
  { (* equal operands *)
    subst eb. injection Em as ->. rewrite f32_div_self by assumption.
    split; reflexivity. }
  all: unfold f32_div, SFdiv, SFdiv_core_binary.
  all: assert (Hda : Zdigits2 (Z.pos ma) = 24) by (apply Zdigits2_unique; simpl; lia).
  all: assert (Hdb : Zdigits2 (Z.pos mb) = 24) by (apply Zdigits2_unique; simpl; lia).
  all: rewrite Hda, Hdb.
  all: assert (He' : Z.min (fexp prec32 emax32 (24 + ea - (24 + eb))) (ea - eb) = ea - eb - 24)
         by (unfold fexp, emin, prec32, emax32; lia).
  all: rewrite He'.
  all: replace (ea - eb - (ea - eb - 24)) with 24 by lia.
  all: cbv iota; rewrite Z.shiftl_mul_pow2 by lia.
  all: pose proof (Z.div_eucl_eq (Z.pos ma * 2 ^ 24) (Z.pos mb) ltac:(lia)) as H.
  all: pose proof (Z.mod_pos_bound (Z.pos ma * 2 ^ 24) (Z.pos mb) ltac:(lia)) as B.
  all: unfold Z.modulo in B.
  all: destruct (Z.div_eucl (Z.pos ma * 2 ^ 24) (Z.pos mb)) as [q r].
  all: cbv beta iota in H, B.
  all: assert (Hq : 2 ^ 23 <= q < 2 ^ 25) by nia.
  all: destruct (Zdigits2_bounds q ltac:(lia)) as [Hd [Hlo Hhi]].
  all: assert (Hdq : 24 <= Zdigits2 q <= 25)
         by (split;
             [destruct (Z.le_gt_cases 24 (Zdigits2 q)) as [|G]; [assumption|];
              assert (2 ^ Zdigits2 q <= 2 ^ 23) by (apply Z.pow_le_mono_r; lia); lia
             |destruct (Z.le_gt_cases (Zdigits2 q) 25) as [|G]; [assumption|];
              assert (2 ^ 25 <= 2 ^ (Zdigits2 q - 1)) by (apply Z.pow_le_mono_r; lia); lia]).
  all: rewrite binary_round_aux_32 by lia.
  all: pose proof (rounded_range q (new_location (Z.pos mb) r) (Zdigits2 q - 24)
                     ltac:(lia) eq_refl) as Hr.
  all: destruct (renorm32_shape _ (ea - eb - 24 + (Zdigits2 q - 24)) Hr)
         as (m & e2 & Hn & Hcase).
  - (* same exponent, smaller mantissa *)
    assert (Z.pos ma < Z.pos mb) by (unfold le_normal in Hle; lia).
    assert (q < 2 ^ 24) by
      (destruct (Z.lt_ge_cases q (2 ^ 24)) as [L|L]; [exact L|nia]).
    assert (Zdigits2 q = 24).
    { destruct (Z.eq_dec (Zdigits2 q) 24); [assumption|].
      assert (Zdigits2 q = 25) as E25 by lia. rewrite E25 in Hlo. simpl in Hlo. lia. }
    split.
    + destruct Hn as [-> _]. reflexivity.
    + apply (SFleb_normal_one _ m e2 Hn). lia.
  - (* smaller exponent *)
    assert (ea < eb) by (destruct Hle; lia).
    split.
    + destruct Hn as [-> _]. reflexivity.
    + apply (SFleb_normal_one _ m e2 Hn). lia.
Qed.

End FpFacts.
Import FpFacts.

(** * The utilization sample *)

Module CpuFacts.

Lemma u64_small (z : Z) : in_u64 z -> u64 z = z.
Proof. unfold in_u64, u64. intros H. apply Z.mod_small. exact H. Qed.

Lemma u64_sub_small (a b : Z) : in_u64 a -> in_u64 b -> b <= a -> u64_sub a b = a - b.
Proof. unfold in_u64, u64_sub, u64, two64. intros. apply Z.mod_small. lia. Qed.

Lemma u64_sub_wrap (a b : Z) : in_u64 a -> in_u64 b -> a < b -> u64_sub a b = two64 - (b - a).
Proof.
  unfold in_u64, u64_sub, u64, two64. intros.
  replace (a - b) with (2 ^ 64 - (b - a) + (-1) * 2 ^ 64) by lia.
  rewrite Z.mod_add by lia. apply Z.mod_small. lia.
Qed.

Lemma u64_sub_zero_iff (a b : Z) : in_u64 a -> in_u64 b -> (u64_sub a b = 0 <-> a = b).
Proof.
  intros Ha Hb. split.
  - intros H. destruct (Z.lt_ge_cases a b) as [L|L].
    + rewrite u64_sub_wrap in H by assumption. unfold in_u64, two64 in *. lia.
    + rewrite u64_sub_small in H by assumption. lia.
  - intros ->. unfold u64_sub, u64. rewrite Z.sub_diag. reflexivity.
Qed.

Lemma sample_slot_usage (n : nat) (used total : Z) (st : cpu_state) (l : cpu_load) :
  cpu_loads st !! n = Some l -> (n < length (cpu_usage st))%nat ->
  cpu_usage (sample_slot n used total st) !! n = Some (usage_fraction l used total).
Proof.
  intros Hl Hn. unfold sample_slot. cbn [cpu_usage]. rewrite Hl. cbn [default].
  apply list_lookup_insert_eq. exact Hn.
Qed.

Lemma sample_slot_loads (n : nat) (used total : Z) (st : cpu_state) :
  (n < length (cpu_loads st))%nat ->
  cpu_loads (sample_slot n used total st) !! n =
  Some {| old_used := used; old_total := total |}.
Proof. intros Hn. unfold sample_slot. cbn [cpu_loads]. apply list_lookup_insert_eq. exact Hn. Qed.

Lemma sample_slot_other (n m : nat) (used total : Z) (st : cpu_state) :
  m <> n ->
  cpu_loads (sample_slot n used total st) !! m = cpu_loads st !! m /\
  cpu_usage (sample_slot n used total st) !! m = cpu_usage st !! m.
Proof.
  intros Hm. unfold sample_slot. cbn [cpu_loads cpu_usage].
  split; apply list_lookup_insert_ne; congruence.
Qed.

(** When neither counter went backwards the two [u_int64_t] differences
    are the exact ones. *)
Lemma usage_fraction_exact (l : cpu_load) (used total : Z) :
  load_in_range l -> in_u64 used -> in_u64 total ->
  total - old_total l <> 0 -> old_used l <= used -> old_total l <= total ->
  usage_fraction l used total =
  f32_div (f32_of_Z (used - old_used l)) (f32_of_Z (total - old_total l)).
Proof.
  intros [Hou Hot] Hused Htotal Hdiff Hu Ht.
  unfold usage_fraction, tick_delta.
  rewrite !u64_sub_small by assumption.
  destruct (Z.eqb_spec (total - old_total l) 0) as [E|E]; [contradiction|reflexivity].
Qed.

Lemma usage_fraction_zero_diff (l : cpu_load) (used total : Z) :
  total = old_total l -> usage_fraction l used total = fzero.
Proof.
  intros ->. unfold usage_fraction, tick_delta, u64_sub, u64.
  rewrite Z.sub_diag. reflexivity.
Qed.


(** What the code stores for that sample: both differences wrap and
    round to 2^64, so the fraction is 1. *)
Example reset_sample_values :
  tick_delta load_4000_5000 10 = 18446744073709546626 /\
  usage_fraction load_4000_5000 5 10 = f32_one.
Proof. split; vm_compute; reflexivity. Qed.




(** Between two samples whose counters did not go backwards, and whose
    used ticks grew no more than the total ticks, the fraction is in
    [0, 1]: the conversions to [float] are monotone and the quotient of a
    number by one that is not smaller rounds to at most 1. *)
Lemma usage_fraction_unit (l : cpu_load) (used total : Z) :
  load_in_range l -> in_u64 used -> in_u64 total ->
  old_used l <= used ->
  used - old_used l <= total - old_total l ->
  SFbetween fzero f32_one (usage_fraction l used total).
Proof.
  intros [Hou Hot] Hu Ht Hmono Hle.
  unfold usage_fraction, tick_delta.
  rewrite !u64_sub_small by (assumption || lia).
  destruct (Z.eqb_spec (total - old_total l) 0) as [E|E]; cbn [negb].
  - split; reflexivity.
  - assert (Hdt : 0 < total - old_total l < 2 ^ 64) by (unfold in_u64, two64 in *; lia).
    destruct (f32_of_Z_normal _ Hdt) as (mb & eb & Hb & Heb & _).
    destruct (Z.eq_dec (used - old_used l) 0) as [Z0|NZ].
    + rewrite Z0. destruct Hb as [-> _]. split; reflexivity.
    + assert (Hdu : 0 < used - old_used l < 2 ^ 64) by (unfold in_u64, two64 in *; lia).
      destruct (f32_of_Z_normal _ Hdu) as (ma & ea & Ha & Hea & _).
      assert (Hord : le_normal ma ea mb eb).
      { apply (f32_of_Z_mono (used - old_used l) (total - old_total l)); (assumption || lia). }
      destruct Ha as [-> Hma]. destruct Hb as [-> Hmb].
      apply f32_div_le_one; assumption.
Qed.



(** C9: the update of a slot [n >= 1] leaves slot 0, the aggregate,
    as it was (stored pair and fraction), writes no slot other than [n],
    and what it writes to slot [n] depends on the stored pair of slot [n]
    only. *)
Theorem C9_aggregate_slot_untouched (n : nat) (used total : Z) (st : cpu_state)
    (Hn : (1 <= n)%nat) :
  (cpu_loads (sample_slot n used total st) !! 0%nat = cpu_loads st !! 0%nat /\
   cpu_usage (sample_slot n used total st) !! 0%nat = cpu_usage st !! 0%nat) /\
  (forall m : nat, m <> n ->
     cpu_loads (sample_slot n used total st) !! m = cpu_loads st !! m /\
     cpu_usage (sample_slot n used total st) !! m = cpu_usage st !! m) /\
  (forall st' : cpu_state,
     cpu_loads st' !! n = cpu_loads st !! n ->
     length (cpu_loads st') = length (cpu_loads st) ->
     length (cpu_usage st') = length (cpu_usage st) ->
     cpu_loads (sample_slot n used total st') !! n = cpu_loads (sample_slot n used total st) !! n /\
     cpu_usage (sample_slot n used total st') !! n = cpu_usage (sample_slot n used total st) !! n).
Proof.
  split; [|split].
  - apply sample_slot_other. lia.
  - intros m Hm. apply sample_slot_other. exact Hm.
  - intros st' Hsame Hl1 Hl2. unfold sample_slot. cbn [cpu_loads cpu_usage].
    rewrite Hsame. split.
    + destruct (decide (n < length (cpu_loads st))%nat) as [L|L].
      * rewrite !list_lookup_insert_eq by lia. reflexivity.
      * rewrite !list_insert_ge by lia. exact Hsame.
    + destruct (decide (n < length (cpu_usage st))%nat) as [L|L].
      * rewrite !list_lookup_insert_eq by lia. reflexivity.
      * rewrite !list_insert_ge by lia. rewrite !lookup_ge_None_2 by lia. reflexivity.
Qed.

(** Updating slot 1 of a two-slot state: slot 0 keeps (4000, 5000). *)
Lemma C9_witness :
  cpu_loads (sample_slot 1 150 1200 (two_slots load_4000_5000 load_100_1000)) !! 0%nat =
    Some load_4000_5000 /\
  cpu_usage (sample_slot 1 150 1200 (two_slots load_4000_5000 load_100_1000)) !! 0%nat =
    Some fzero.
Proof.
  destruct (C9_aggregate_slot_untouched 1 150 1200 (two_slots load_4000_5000 load_100_1000))
    as [[H1 H2] _].
  - lia.
  - split; [exact H1|exact H2].
Defined.

(** ** The whole of [update_cpu_usage] *)

Section WholeUpdate.

Variables CPUSTATES CP_IDLE : nat.

(** The loop over the CPUs never touches slot 0. *)
Lemma cpu_loop_keeps_aggregate (env : sysctl_env) (todo : nat) :
  forall (i : nat) (st : cpu_state),
    cpu_loads (snd (cpu_loop CPUSTATES CP_IDLE env todo i st)) !! 0%nat =
      cpu_loads st !! 0%nat /\
    cpu_usage (snd (cpu_loop CPUSTATES CP_IDLE env todo i st)) !! 0%nat =
      cpu_usage st !! 0%nat.
Proof.
  induction todo as [|todo IH]; intros i st; cbn [cpu_loop].
  - split; reflexivity.
  - destruct (kern_cp_time2 env i) as [cp|]; [|split; reflexivity].
    destruct (IH (S i) (sample_slot (S i) (used_of CPUSTATES CP_IDLE cp)
                          (sum_states CPUSTATES cp) st)) as [E1 E2].
    destruct (sample_slot_other (S i) 0 (used_of CPUSTATES CP_IDLE cp)
                (sum_states CPUSTATES cp) st ltac:(lia)) as [F1 F2].
    rewrite E1, E2, F1, F2. split; reflexivity.
Qed.

(** Once the arrays exist, a successful read of kern.cp_time samples
    slot 0 with the sum of the states and the sum less the idle ticks. *)
Lemma update_cpu_usage_aggregate (env : sysctl_env) (st : cpu_state)
    (cp : list Z) (l0 : cpu_load) :
  init_cpu st <> 0 ->
  kern_cp_time env = Some cp ->
  cpu_loads st !! 0%nat = Some l0 ->
  (0 < length (cpu_usage st))%nat ->
  let st' := snd (update_cpu_usage CPUSTATES CP_IDLE env st) in
  cpu_usage st' !! 0%nat =
    Some (usage_fraction l0 (used_of CPUSTATES CP_IDLE cp) (sum_states CPUSTATES cp)) /\
  cpu_loads st' !! 0%nat =
    Some {| old_used := used_of CPUSTATES CP_IDLE cp; old_total := sum_states CPUSTATES cp |}.
Proof.
  intros Hinit Hcp Hl Hlen. cbv zeta. unfold update_cpu_usage.
  destruct (Z.eqb_spec (init_cpu st) 0) as [E|_]; [contradiction|].
  rewrite Hcp.
  match goal with
  | |- context [cpu_loop _ _ _ ?t ?i ?s] =>
      destruct (cpu_loop_keeps_aggregate env t i s) as [E1 E2]
  end.
  rewrite E1, E2. split.
  - apply sample_slot_usage; assumption.
  - apply sample_slot_loads. apply lookup_lt_Some in Hl. exact Hl.
Qed.

(** The first call allocates [cpu_count + 1] zeroed slots. *)
Lemma get_cpu_count_slots (ncpu : option Z) (st : cpu_state) :
  length (cpu_loads (get_cpu_count ncpu st)) = Z.to_nat (cpu_count (get_cpu_count ncpu st) + 1) /\
  length (cpu_usage (get_cpu_count ncpu st)) = Z.to_nat (cpu_count (get_cpu_count ncpu st) + 1).
Proof. unfold get_cpu_count. cbn. rewrite !length_replicate. split; reflexivity. Qed.

End WholeUpdate.

End CpuFacts.

(** * The byte counters *)

Module NetFacts.

Lemma s64_small (z : Z) : in_s64 z -> s64 z = z.
Proof.
  unfold in_s64, s64, two63, two64. intros H.
  rewrite Z.mod_small by lia. lia.
Qed.

Lemma s64_in_range (z : Z) : in_s64 (s64 z).
Proof.
  unfold in_s64, s64, two63, two64.
  pose proof (Z.mod_pos_bound (z + 2 ^ 63) (2 ^ 64) ltac:(lia)). lia.
Qed.

Lemma s64_congr (z : Z) : exists k : Z, s64 z = z + 2 ^ 64 * k.
Proof.
  unfold s64, two63, two64.
  exists (- ((z + 2 ^ 63) / 2 ^ 64)).
  pose proof (Z.div_mod (z + 2 ^ 63) (2 ^ 64) ltac:(lia)). lia.
Qed.

Lemma raw_delta_small (last r : Z) :
  - 2 ^ 61 <= last <= 2 ^ 61 -> 0 <= r <= 2 ^ 61 ->
  raw_delta last r = spec_raw_delta last r.
Proof.
  intros Hl Hr. unfold raw_delta, spec_raw_delta, s64_add, s64_sub.
  destruct (Z.ltb_spec r last), (Z.geb_spec r last); try lia.
  - rewrite (s64_small (4294967295 - last)) by (unfold in_s64, two63; lia).
    rewrite s64_small by (unfold in_s64, two63; lia). lia.
  - apply s64_small. unfold in_s64, two63. lia.
Qed.

Lemma spec_raw_delta_bounds (last r : Z) :
  -1 <= last < 2 ^ 32 -> counter32 r -> 0 <= spec_raw_delta last r <= 2 ^ 32.
Proof.
  unfold counter32, spec_raw_delta. intros Hl Hr.
  destruct (Z.geb_spec r last); lia.
Qed.

(** C3: when the elapsed time is at or below 0.0001 s the call returns
    at once: the store is the one it was given, so every interface keeps
    its last raw readings, its totals and its speeds. *)
Theorem C3_degenerate_interval_skips (fresh : net_stat) (env : net_env)
    (store : gmap string net_stat)
    (Hshort : SFleb (elapsed env) f64_0_0001 = true) :
  update_net_stats fresh env store = (0, store) /\
  (forall name : string,
     snd (update_net_stats fresh env store) !! name = store !! name).
Proof.
  assert (E : update_net_stats fresh env store = (0, store)).
  { unfold update_net_stats. rewrite Hshort. reflexivity. }
  split; [exact E|]. intros name. rewrite E. reflexivity.
Qed.

(** 0.00005 s after the previous update, with an entry for em0 that
    would otherwise be accounted. *)
Lemma C3_witness :
  SFleb (elapsed (call_at fzero f64_0_00005 [link_entry "em0" 5 300])) f64_0_0001 = true /\
  update_net_stats zero_net_stat (call_at fzero f64_0_00005 [link_entry "em0" 5 300])
    {["em0" := wrapped_stat]} = (0, {["em0" := wrapped_stat]}).
Proof.
  split; [vm_compute; reflexivity|].
  apply (C3_degenerate_interval_skips zero_net_stat
           (call_at fzero f64_0_00005 [link_entry "em0" 5 300])).
  vm_compute. reflexivity.
Defined.

(** A call whose interval is long enough does account the entry. *)
Example long_interval_accounts :
  recv <$> (snd (update_net_stats zero_net_stat
                   (call_at fzero f64_one [link_entry "em0" 5 300])
                   {["em0" := wrapped_stat]}) !! "em0") = Some 10.
Proof. vm_compute. reflexivity. Qed.

(** The literal 0.0001 as a binary64 number. *)
Example f64_0_0001_value : f64_0_0001 = S754_finite false 7378697629483821 (-66).
Proof. vm_compute. reflexivity. Qed.

Section StoreFacts.

Variable fresh : net_stat.

Lemma get_insert_same (name : string) (ns : net_stat) (store : gmap string net_stat) :
  get_net_stat fresh name (<[name := ns]> store) = ns.
Proof. unfold get_net_stat. rewrite lookup_insert_eq. reflexivity. Qed.

Lemma get_insert_other (name other : string) (ns : net_stat) (store : gmap string net_stat) :
  other <> name ->
  get_net_stat fresh name (<[other := ns]> store) = get_net_stat fresh name store.
Proof. intros H. unfold get_net_stat. rewrite lookup_insert_ne by exact H. reflexivity. Qed.

Lemma get_process_entry_same (delta : spec_float) (ifa : ifaddrs) (rest : list ifaddrs)
    (store : gmap string net_stat) :
  get_net_stat fresh (ifa_name ifa) (process_entry fresh delta ifa rest store) =
  entry_update delta ifa rest (get_net_stat fresh (ifa_name ifa) store).
Proof. unfold process_entry. apply get_insert_same. Qed.

Lemma get_process_entry_other (delta : spec_float) (ifa : ifaddrs) (rest : list ifaddrs)
    (store : gmap string net_stat) (name : string) :
  ifa_name ifa <> name ->
  get_net_stat fresh name (process_entry fresh delta ifa rest store) =
  get_net_stat fresh name store.
Proof. intros H. unfold process_entry. apply get_insert_other. exact H. Qed.

Lemma entry_update_non_link (delta : spec_float) (ifa : ifaddrs) (rest : list ifaddrs)
    (ns : net_stat) :
  Z.land (ifa_flags ifa) IFF_UP <> 0 -> sa_family (ifa_addr ifa) <> AF_LINK ->
  entry_update delta ifa rest ns = set_up 1 ns.
Proof.
  intros Hup Hfam. unfold entry_update.
  destruct (Z.eqb_spec (Z.land (ifa_flags ifa) IFF_UP) 0); [contradiction|].
  destruct (Z.eqb_spec (sa_family (ifa_addr ifa)) AF_LINK); [contradiction|].
  reflexivity.
Qed.

Lemma entry_update_link (delta : spec_float) (ifa : ifaddrs) (rest : list ifaddrs)
    (ns : net_stat) :
  Z.land (ifa_flags ifa) IFF_UP <> 0 -> sa_family (ifa_addr ifa) = AF_LINK ->
  entry_update delta ifa rest ns =
  account delta (ifa_data ifa)
    (set_addr (copy_inet_addr (ifa_name ifa) rest (addr ns)) (set_up 1 ns)).
Proof.
  intros Hup Hfam. unfold entry_update.
  destruct (Z.eqb_spec (Z.land (ifa_flags ifa) IFF_UP) 0); [contradiction|].
  destruct (Z.eqb_spec (sa_family (ifa_addr ifa)) AF_LINK); [|contradiction].
  reflexivity.
Qed.

Lemma entry_update_down (delta : spec_float) (ifa : ifaddrs) (rest : list ifaddrs)
    (ns : net_stat) :
  Z.land (ifa_flags ifa) IFF_UP = 0 -> entry_update delta ifa rest ns = set_up 0 ns.
Proof. intros Hup. unfold entry_update. rewrite Hup. reflexivity. Qed.

(** Counters and speeds of an interface change only at an AF_LINK entry
    of that interface that is up. *)
Lemma counters_change_only_at_link_entry (delta : spec_float) (ifa : ifaddrs)
    (rest : list ifaddrs) (store : gmap string net_stat) (name : string) :
  ~ (ifa_name ifa = name /\ Z.land (ifa_flags ifa) IFF_UP <> 0 /\
     sa_family (ifa_addr ifa) = AF_LINK) ->
  let ns := get_net_stat fresh name store in
  let ns' := get_net_stat fresh name (process_entry fresh delta ifa rest store) in
  last_read_recv ns' = last_read_recv ns /\ last_read_trans ns' = last_read_trans ns /\
  recv ns' = recv ns /\ trans ns' = trans ns /\
  recv_speed ns' = recv_speed ns /\ trans_speed ns' = trans_speed ns.
Proof.
  intros Hnot. cbv zeta.
  destruct (decide (ifa_name ifa = name)) as [<-|Hne].
  - rewrite get_process_entry_same.
    destruct (Z.eq_dec (Z.land (ifa_flags ifa) IFF_UP) 0) as [Hd|Hu].
    + rewrite entry_update_down by exact Hd. repeat split.
    + rewrite entry_update_non_link; [repeat split|exact Hu|].
      intros Hf. apply Hnot. auto.
  - rewrite get_process_entry_other by exact Hne. repeat split.
Qed.

End StoreFacts.

Lemma s64_add_fixed (a d : Z) : in_s64 d -> s64_add a d = a -> d = 0.
Proof.
  unfold s64_add. intros Hd H.
  destruct (s64_congr (a + d)) as [k Hk]. rewrite Hk in H.
  unfold in_s64, two63 in Hd. lia.
Qed.

Lemma raw_delta_in_range (last r : Z) : in_s64 (raw_delta last r).
Proof.
  unfold raw_delta, s64_add, s64_sub. destruct (r <? last); apply s64_in_range.
Qed.

Lemma raw_delta_not_both_zero (last : Z) :
  ~ (raw_delta last 1000 = 0 /\ raw_delta last 2000 = 0).
Proof.
  unfold raw_delta, s64_add, s64_sub. intros [H1 H2].
  destruct (s64_congr (4294967295 - last)) as [k0 E0].
  destruct (s64_congr (s64 (4294967295 - last) + 1000)) as [k1 E1].
  destruct (s64_congr (s64 (4294967295 - last) + 2000)) as [k2 E2].
  destruct (s64_congr (1000 - last)) as [k3 E3].
  destruct (s64_congr (2000 - last)) as [k4 E4].
  revert H1 H2.
  destruct (Z.ltb_spec 1000 last), (Z.ltb_spec 2000 last); lia.
Qed.

(** C7, as stated, fails whatever a fresh state holds: first readings of
    1000 bytes and of 2000 bytes cannot both leave the received total of a
    new interface where the fresh state has it. *)
Lemma C7_counterexample : ~ (exists fresh : net_stat, first_sample_reports_zero fresh).
Proof.
  intros [fresh H].
  assert (Hd : SFleb f64_one f64_0_0001 = false) by (vm_compute; reflexivity).
  assert (Hr : forall r, counter32 r -> raw_delta (last_read_recv fresh) r = 0).
  { intros r Hr.
    destruct (H f64_one (link_entry "em0" r 0) [] ∅) as (E & _).
    - apply lookup_empty.
    - simpl. discriminate.
    - reflexivity.
    - split; [exact Hr|unfold counter32; simpl; lia].
    - exact Hd.
    - rewrite get_process_entry_same in E.
      rewrite entry_update_link in E by (simpl; (discriminate || reflexivity)).
      unfold get_net_stat in E. rewrite lookup_empty in E.
      cbn [default account recv set_addr set_up last_read_recv link_entry ifa_data ifi_ibytes] in E.
      rewrite s64_small in E by (unfold counter32, in_s64, two63 in *; lia).
      apply s64_add_fixed in E; [exact E|apply raw_delta_in_range]. }
  apply (raw_delta_not_both_zero (last_read_recv fresh)).
  split; apply Hr; unfold counter32; lia.
Qed.

(** With a zeroed fresh state, a first reading of 1000 received and 500
    transmitted bytes one second after the previous update is reported as
    totals of 1000 and 500 and a speed of 1000 bytes per second. *)
Example first_sample_of_zeroed_state :
  let store' := process_entry zero_net_stat f64_one (link_entry "em0" 1000 500) [] ∅ in
  recv <$> (store' !! "em0") = Some 1000 /\
  trans <$> (store' !! "em0") = Some 500 /\
  recv_speed <$> (store' !! "em0") = Some (f64_of_Z 1000).
Proof. vm_compute. repeat split. Qed.

(** Two calls, the counter wrapping between them: 4294967290, then 5. *)
Example wrap_run_values :
  recv <$> (run zero_net_stat [call_1] ∅ !! "em0") = Some 4294967290 /\
  recv <$> (run zero_net_stat [call_1; call_2] ∅ !! "em0") = Some 4294967300.
Proof. vm_compute. split; reflexivity. Qed.

End NetFacts.
Import CpuFacts NetFacts.

(** * Facts about whole calls of [update_cpu_usage] *)

Module CpuCallFacts.


Section Calls.

Variables CPUSTATES CP_IDLE : nat.


Lemma update_unfold (env : sysctl_env) (st : cpu_state) :
  update_cpu_usage CPUSTATES CP_IDLE env st =
  match kern_cp_time env with
  | None => (1, after_init env st)
  | Some cp =>
      cpu_loop CPUSTATES CP_IDLE env (Z.to_nat (cpu_count (after_init env st))) 0
        (sample_slot 0 (used_of CPUSTATES CP_IDLE cp) (sum_states CPUSTATES cp)
           (after_init env st))
  end.
Proof. reflexivity. Qed.

Lemma sample_slot_lengths (n : nat) (used total : Z) (st : cpu_state) :
  cpu_count (sample_slot n used total st) = cpu_count st /\
  init_cpu (sample_slot n used total st) = init_cpu st /\
  length (cpu_usage (sample_slot n used total st)) = length (cpu_usage st) /\
  length (cpu_loads (sample_slot n used total st)) = length (cpu_loads st).
Proof. unfold sample_slot. cbn. rewrite !length_insert. repeat split. Qed.

Lemma loop_lengths (env : sysctl_env) (todo : nat) :
  forall (i : nat) (st : cpu_state),
    cpu_count (snd (cpu_loop CPUSTATES CP_IDLE env todo i st)) = cpu_count st /\
    init_cpu (snd (cpu_loop CPUSTATES CP_IDLE env todo i st)) = init_cpu st /\
    length (cpu_usage (snd (cpu_loop CPUSTATES CP_IDLE env todo i st))) = length (cpu_usage st) /\
    length (cpu_loads (snd (cpu_loop CPUSTATES CP_IDLE env todo i st))) = length (cpu_loads st).
Proof.
  induction todo as [|todo IH]; intros i st; cbn [cpu_loop].
  - repeat split.
  - destruct (kern_cp_time2 env i) as [cp|]; [|repeat split].
    destruct (IH (S i) (sample_slot (S i) (used_of CPUSTATES CP_IDLE cp)
                          (sum_states CPUSTATES cp) st)) as (E1 & E2 & E3 & E4).
    destruct (sample_slot_lengths (S i) (used_of CPUSTATES CP_IDLE cp)
                (sum_states CPUSTATES cp) st) as (F1 & F2 & F3 & F4).
    rewrite E1, E2, E3, E4. auto.
Qed.

(** The return value of the loop: 0 when every read succeeds, 1 at the
    first read that fails. *)
Lemma loop_code (env : sysctl_env) (todo : nat) :
  forall (i : nat) (st : cpu_state),
    (fst (cpu_loop CPUSTATES CP_IDLE env todo i st) = 0 /\
     forall j : nat, (i <= j < i + todo)%nat -> is_Some (kern_cp_time2 env j)) \/
    (fst (cpu_loop CPUSTATES CP_IDLE env todo i st) = 1 /\
     exists j : nat, (i <= j < i + todo)%nat /\ kern_cp_time2 env j = None).
Proof.
  induction todo as [|todo IH]; intros i st; cbn [cpu_loop].
  - left. split; [reflexivity|]. intros j Hj. lia.
  - destruct (kern_cp_time2 env i) as [cp|] eqn:E.
    + destruct (IH (S i) (sample_slot (S i) (used_of CPUSTATES CP_IDLE cp)
                            (sum_states CPUSTATES cp) st)) as [[H1 H2]|[H1 (j & Hj & Hn)]].
      * left. split; [exact H1|]. intros j Hj.
        destruct (decide (j = i)) as [->|Hne]; [rewrite E; eauto|apply H2; lia].
      * right. split; [exact H1|]. exists j. split; [lia|exact Hn].
    + right. split; [reflexivity|]. exists i. split; [lia|exact E].
Qed.

(** X1: the return value is 0 exactly when the read of kern.cp_time and
    the reads of kern.cp_time2 for all the CPUs succeed, and 1 otherwise. *)
Theorem update_cpu_usage_return_code (env : sysctl_env) (st : cpu_state) :
  (fst (update_cpu_usage CPUSTATES CP_IDLE env st) = 0 \/ fst (update_cpu_usage CPUSTATES CP_IDLE env st) = 1) /\
  (fst (update_cpu_usage CPUSTATES CP_IDLE env st) = 0 <->
   is_Some (kern_cp_time env) /\
   cpus_read env (Z.to_nat (cpu_count (after_init env st)))).
Proof.
  rewrite update_unfold. unfold cpus_read.
  destruct (kern_cp_time env) as [cp|]; cbn [fst].
  - set (st2 := sample_slot 0 _ _ _).
    assert (Hc : cpu_count st2 = cpu_count (after_init env st)) by apply sample_slot_lengths.
    destruct (loop_code env (Z.to_nat (cpu_count (after_init env st))) 0 st2)
      as [[H1 H2]|[H1 (j & Hj & Hn)]].
    + split; [left; exact H1|]. split; [|intros _; exact H1].
      intros _. split; [eauto|]. intros i Hi. apply H2. lia.
    + split; [right; exact H1|]. split.
      * intros H0. rewrite H1 in H0. discriminate.
      * intros [_ Hall]. destruct (Hall j ltac:(lia)) as [x Hx]. congruence.
  - split; [right; reflexivity|]. split; [discriminate|].
    intros [[x Hx] _]. discriminate.
Qed.

(** The arrays keep the size they were allocated with. *)
Lemma after_init_slots_ok (env : sysctl_env) (st : cpu_state) :
  (init_cpu st = 0 -> 0 <= default 1 (hw_ncpu env)) ->
  (init_cpu st <> 0 -> slots_ok st) ->
  slots_ok (after_init env st) /\ init_cpu (after_init env st) <> 0.
Proof.
  intros Hfirst Hlater. unfold after_init.
  destruct (Z.eqb_spec (init_cpu st) 0) as [E|E].
  - specialize (Hfirst E). split; [|cbn; discriminate].
    unfold slots_ok, set_init_cpu, get_cpu_count. cbn.
    rewrite !length_replicate. destruct (hw_ncpu env); cbn in *; repeat split; lia.
  - split; [apply Hlater; exact E|exact E].
Qed.

(** X2: once allocated, the arrays always have [cpu_count + 1] elements,
    so slot 0 and the slots [i + 1] of all the CPUs [i < cpu_count] that
    the function indexes exist. *)
Theorem update_cpu_usage_keeps_bounds (env : sysctl_env) (st : cpu_state)
    (Hfirst : init_cpu st = 0 -> 0 <= default 1 (hw_ncpu env))
    (Hlater : init_cpu st <> 0 -> slots_ok st) :
  let st' := snd (update_cpu_usage CPUSTATES CP_IDLE env st) in
  init_cpu st' <> 0 /\ slots_ok st' /\
  (0 < length (cpu_loads st'))%nat /\
  (forall i : nat, (i < Z.to_nat (cpu_count st'))%nat ->
     (S i < length (cpu_loads st'))%nat /\ (S i < length (cpu_usage st'))%nat).
Proof.
  cbv zeta.
  destruct (after_init_slots_ok env st Hfirst Hlater) as [(Hc & Hu & Hl) Hi].
  assert (K : init_cpu (snd (update_cpu_usage CPUSTATES CP_IDLE env st)) =
                init_cpu (after_init env st) /\
              cpu_count (snd (update_cpu_usage CPUSTATES CP_IDLE env st)) =
                cpu_count (after_init env st) /\
              length (cpu_usage (snd (update_cpu_usage CPUSTATES CP_IDLE env st))) =
                length (cpu_usage (after_init env st)) /\
              length (cpu_loads (snd (update_cpu_usage CPUSTATES CP_IDLE env st))) =
                length (cpu_loads (after_init env st))).
  { rewrite update_unfold. destruct (kern_cp_time env) as [cp|]; [|repeat split].
    match goal with
    | |- context [cpu_loop _ _ _ ?t ?i ?s] =>
        destruct (loop_lengths env t i s) as (E1 & E2 & E3 & E4)
    end.
    destruct (sample_slot_lengths 0 (used_of CPUSTATES CP_IDLE cp)
                (sum_states CPUSTATES cp) (after_init env st)) as (F1 & F2 & F3 & F4).
    rewrite E1, E2, E3, E4. auto. }
  destruct K as (K1 & K2 & K3 & K4).
  unfold slots_ok. rewrite K1, K2, K3, K4, Hu, Hl.
  repeat split; try assumption; lia.
Qed.

Lemma slot_sample_other (n m : nat) (used total : Z) (st : cpu_state) :
  m <> n -> slot (sample_slot n used total st) m = slot st m.
Proof.
  intros H. unfold slot.
  destruct (sample_slot_other n m used total st H) as [-> ->]. reflexivity.
Qed.

(** What the block writes to slot [n] depends on the pair of slot [n]
    and on the sizes of the arrays only. *)
Lemma sample_slot_local (n : nat) (used total : Z) (st st' : cpu_state) :
  cpu_loads st' !! n = cpu_loads st !! n ->
  length (cpu_usage st') = length (cpu_usage st) ->
  length (cpu_loads st') = length (cpu_loads st) ->
  slot (sample_slot n used total st') n = slot (sample_slot n used total st) n.
Proof.
  intros Hsame Hl2 Hl1. unfold slot, sample_slot. cbn [cpu_loads cpu_usage].
  rewrite Hsame. f_equal.
  - destruct (decide (n < length (cpu_loads st))%nat) as [L|L].
    + rewrite !list_lookup_insert_eq by lia. reflexivity.
    + rewrite !list_insert_ge by lia. exact Hsame.
  - destruct (decide (n < length (cpu_usage st))%nat) as [L|L].
    + rewrite !list_lookup_insert_eq by lia. reflexivity.
    + rewrite !list_insert_ge by lia. rewrite !lookup_ge_None_2 by lia. reflexivity.
Qed.

(** The loop started at CPU [i] writes no slot up to [i]. *)
Lemma loop_keeps_low (env : sysctl_env) (todo : nat) :
  forall (i m : nat) (st : cpu_state),
    (m <= i)%nat -> slot (snd (cpu_loop CPUSTATES CP_IDLE env todo i st)) m = slot st m.
Proof.
  induction todo as [|todo IH]; intros i m st Hm; cbn [cpu_loop].
  - reflexivity.
  - destruct (kern_cp_time2 env i) as [cp|]; [|reflexivity].
    rewrite IH by lia. apply slot_sample_other. lia.
Qed.

(** It writes no slot above the CPU whose read fails. *)
Lemma loop_keeps_high (env : sysctl_env) (todo : nat) :
  forall (i k m : nat) (st : cpu_state),
    (i <= k)%nat -> kern_cp_time2 env k = None -> (k < m)%nat ->
    slot (snd (cpu_loop CPUSTATES CP_IDLE env todo i st)) m = slot st m.
Proof.
  induction todo as [|todo IH]; intros i k m st Hik Hk Hm; cbn [cpu_loop].
  - reflexivity.
  - destruct (kern_cp_time2 env i) as [cp|] eqn:E; [|reflexivity].
    assert (i <> k) by congruence.
    rewrite (IH (S i) k m) by (assumption || lia).
    apply slot_sample_other. lia.
Qed.

(** A CPU reached by the loop has its slot sampled once, from the pair
    the slot held before the loop. *)
Lemma loop_samples (env : sysctl_env) (todo : nat) :
  forall (i j : nat) (st : cpu_state) (cp : list Z),
    (i <= j < i + todo)%nat ->
    (forall k : nat, (i <= k < j)%nat -> is_Some (kern_cp_time2 env k)) ->
    kern_cp_time2 env j = Some cp ->
    slot (snd (cpu_loop CPUSTATES CP_IDLE env todo i st)) (S j) =
    slot (sample_slot (S j) (used_of CPUSTATES CP_IDLE cp) (sum_states CPUSTATES cp) st) (S j).
Proof.
  induction todo as [|todo IH]; intros i j st cp Hj Hbefore Hcp; [lia|].
  cbn [cpu_loop].
  destruct (decide (j = i)) as [->|Hne].
  - rewrite Hcp. apply loop_keeps_low. lia.
  - destruct (Hbefore i ltac:(lia)) as [cpi Hi]. rewrite Hi.
    rewrite (IH (S i) j _ cp) by (try assumption; try lia; intros k Hk; apply Hbefore; lia).
    apply sample_slot_local.
    + apply sample_slot_other. lia.
    + apply sample_slot_lengths.
    + apply sample_slot_lengths.
Qed.

(** The slot of a CPU the loop reaches is, after the call, the one the
    block writes from the reading of that CPU. *)
Lemma update_slot_of_cpu (env : sysctl_env) (st : cpu_state)
    (cp0 cp : list Z) (i : nat) :
  init_cpu st <> 0 ->
  kern_cp_time env = Some cp0 ->
  (i < Z.to_nat (cpu_count st))%nat ->
  cpus_read env i ->
  kern_cp_time2 env i = Some cp ->
  slot (snd (update_cpu_usage CPUSTATES CP_IDLE env st)) (S i) =
  slot (sample_slot (S i) (used_of CPUSTATES CP_IDLE cp) (sum_states CPUSTATES cp)
          (sample_slot 0 (used_of CPUSTATES CP_IDLE cp0) (sum_states CPUSTATES cp0) st))
       (S i).
Proof.
  intros Hinit Hcp0 Hi Hbefore Hcp. rewrite update_unfold, Hcp0.
  assert (Ea : after_init env st = st).
  { unfold after_init. destruct (Z.eqb_spec (init_cpu st) 0); [contradiction|reflexivity]. }
  rewrite Ea.
  apply (loop_samples env (Z.to_nat (cpu_count st)) 0 i); [lia| |exact Hcp].
  intros k Hk. apply Hbefore. lia.
Qed.

(** X3: when all the reads succeed up to CPU [i], the slot [i + 1] holds
    the pair computed from the reading of CPU [i] and the fraction of that
    reading against the pair the slot held before the call. *)
Theorem update_cpu_usage_samples_each_cpu (env : sysctl_env) (st : cpu_state)
    (cp0 cp : list Z) (i : nat) (l : cpu_load)
    (Hinit : init_cpu st <> 0)
    (Hslots : slots_ok st)
    (Hcp0 : kern_cp_time env = Some cp0)
    (Hi : (i < Z.to_nat (cpu_count st))%nat)
    (Hbefore : cpus_read env i)
    (Hcp : kern_cp_time2 env i = Some cp)
    (Hold : cpu_loads st !! S i = Some l) :
  let st' := snd (update_cpu_usage CPUSTATES CP_IDLE env st) in
  cpu_loads st' !! S i =
    Some {| old_used := used_of CPUSTATES CP_IDLE cp; old_total := sum_states CPUSTATES cp |} /\
  cpu_usage st' !! S i =
    Some (usage_fraction l (used_of CPUSTATES CP_IDLE cp) (sum_states CPUSTATES cp)).
Proof.
  cbv zeta.
  pose proof (update_slot_of_cpu env st cp0 cp i Hinit Hcp0 Hi Hbefore Hcp) as Hs.
  unfold slot in Hs. apply pair_equal_spec in Hs. destruct Hs as [Hl Hu].
  destruct Hslots as (Hc & Lu & Ll).
  destruct (sample_slot_other 0 (S i) (used_of CPUSTATES CP_IDLE cp0)
              (sum_states CPUSTATES cp0) st ltac:(lia)) as [O1 O2].
  destruct (sample_slot_lengths 0 (used_of CPUSTATES CP_IDLE cp0)
              (sum_states CPUSTATES cp0) st) as (_ & _ & F3 & F4).
  split.
  - rewrite Hl. apply sample_slot_loads. lia.
  - rewrite Hu. apply sample_slot_usage; [rewrite O1; exact Hold|lia].
Qed.

(** X4: when the read for CPU [k] fails the function returns 1 and the
    slots of CPU [k] and of the CPUs after it, pair and fraction, are
    left as they were. *)
Theorem update_cpu_usage_stops_at_failed_read (env : sysctl_env) (st : cpu_state)
    (cp0 : list Z) (k : nat)
    (Hinit : init_cpu st <> 0)
    (Hcp0 : kern_cp_time env = Some cp0)
    (Hk : (k < Z.to_nat (cpu_count st))%nat)
    (Hfail : kern_cp_time2 env k = None) :
  let st' := snd (update_cpu_usage CPUSTATES CP_IDLE env st) in
  fst (update_cpu_usage CPUSTATES CP_IDLE env st) = 1 /\
  (forall m : nat, (k < m)%nat ->
     cpu_loads st' !! m = cpu_loads st !! m /\ cpu_usage st' !! m = cpu_usage st !! m).
Proof.
  cbv zeta. split.
  - rewrite update_unfold, Hcp0.
    assert (Ea : after_init env st = st).
    { unfold after_init. destruct (Z.eqb_spec (init_cpu st) 0); [contradiction|reflexivity]. }
    rewrite Ea.
    destruct (loop_code env (Z.to_nat (cpu_count st)) 0
                (sample_slot 0 (used_of CPUSTATES CP_IDLE cp0) (sum_states CPUSTATES cp0) st))
      as [[_ Hall]|[H1 _]]; [|exact H1].
    destruct (Hall k ltac:(lia)) as [x Hx]. congruence.
  - intros m Hm. rewrite update_unfold, Hcp0.
    assert (Ea : after_init env st = st).
    { unfold after_init. destruct (Z.eqb_spec (init_cpu st) 0); [contradiction|reflexivity]. }
    rewrite Ea.
    pose proof (loop_keeps_high env (Z.to_nat (cpu_count st)) 0 k m
                  (sample_slot 0 (used_of CPUSTATES CP_IDLE cp0) (sum_states CPUSTATES cp0) st)
                  ltac:(lia) Hfail Hm) as Hs.
    rewrite slot_sample_other in Hs by lia.
    unfold slot in Hs. apply pair_equal_spec in Hs. exact Hs.
Qed.

(** ** From kernel readings to fractions *)

Lemma fold_plus_ge (cp : list Z) (l : list nat) :
  (forall j : nat, 0 <= nth j cp 0) ->
  forall acc : Z, acc <= fold_left (fun a j => a + nth j cp 0) l acc.
Proof.
  intros Hpos. induction l as [|j l IH]; intros acc; cbn [fold_left]; [lia|].
  specialize (IH (acc + nth j cp 0)). specialize (Hpos j). lia.
Qed.

Lemma fold_u64_exact (cp : list Z) (l : list nat) :
  (forall j : nat, 0 <= nth j cp 0) ->
  forall acc : Z,
    0 <= acc ->
    fold_left (fun a j => a + nth j cp 0) l acc < two64 ->
    fold_left (fun a j => u64_add a (nth j cp 0)) l acc =
    fold_left (fun a j => a + nth j cp 0) l acc.
Proof.
  intros Hpos. induction l as [|j l IH]; intros acc Hacc Hlt; cbn [fold_left] in *.
  - reflexivity.
  - pose proof (fold_plus_ge cp l Hpos (acc + nth j cp 0)) as Hge.
    specialize (Hpos j).
    assert (E : u64_add acc (nth j cp 0) = acc + nth j cp 0).
    { unfold u64_add, u64. apply Z.mod_small. lia. }
    rewrite E. apply IH; lia.
Qed.

Lemma sum_states_exact (cp : list Z) :
  (forall j : nat, 0 <= nth j cp 0) ->
  tick_sum CPUSTATES cp < two64 ->
  sum_states CPUSTATES cp = tick_sum CPUSTATES cp.
Proof. intros Hpos Hlt. apply fold_u64_exact; [exact Hpos|lia|exact Hlt]. Qed.

(** Each state's count is part of the sum. *)
Lemma fold_plus_member (cp : list Z) (l : list nat) (k : nat) :
  (forall j : nat, 0 <= nth j cp 0) ->
  In k l ->
  forall acc : Z, acc + nth k cp 0 <= fold_left (fun a j => a + nth j cp 0) l acc.
Proof.
  intros Hpos. induction l as [|j l IH]; intros Hin acc; [contradiction|].
  cbn [fold_left]. destruct Hin as [->|Hin].
  - apply (fold_plus_ge cp l Hpos).
  - specialize (IH Hin (acc + nth j cp 0)). specialize (Hpos j). lia.
Qed.

(** Between two readings the sum grows at least as much as any one state. *)
Lemma fold_plus_advance (cp_old cp_new : list Z) (l : list nat) (k : nat) :
  (forall j : nat, 0 <= nth j cp_old 0 <= nth j cp_new 0) ->
  forall acc acc' : Z,
    acc <= acc' ->
    (fold_left (fun a j => a + nth j cp_new 0) l acc' -
     fold_left (fun a j => a + nth j cp_old 0) l acc >= acc' - acc) /\
    (In k l ->
     fold_left (fun a j => a + nth j cp_new 0) l acc' -
     fold_left (fun a j => a + nth j cp_old 0) l acc >=
     acc' - acc + (nth k cp_new 0 - nth k cp_old 0)).
Proof.
  intros Hadv. induction l as [|j l IH]; intros acc acc' Hle; cbn [fold_left].
  - split; [lia|contradiction].
  - pose proof (Hadv j) as Hj. pose proof (Hadv k) as Hk.
    destruct (IH (acc + nth j cp_old 0) (acc' + nth j cp_new 0) ltac:(lia)) as [I1 I2].
    split; [lia|]. intros [->|Hin]; [lia|]. specialize (I2 Hin). lia.
Qed.

Lemma fraction_of_readings_unit (cp_old cp_new : list Z) :
  (CP_IDLE < CPUSTATES)%nat ->
  ticks_advance CPUSTATES cp_old cp_new ->
  SFbetween fzero f32_one
    (usage_fraction
       {| old_used := used_of CPUSTATES CP_IDLE cp_old;
          old_total := sum_states CPUSTATES cp_old |}
       (used_of CPUSTATES CP_IDLE cp_new) (sum_states CPUSTATES cp_new)).
Proof.
  intros Hidle [Hadv Hlt].
  assert (Hpos_old : forall j : nat, 0 <= nth j cp_old 0) by (intros j; apply Hadv).
  assert (Hpos_new : forall j : nat, 0 <= nth j cp_new 0)
    by (intros j; specialize (Hadv j); lia).
  assert (Hin : In CP_IDLE (seq 0 CPUSTATES)) by (apply in_seq; lia).
  destruct (fold_plus_advance cp_old cp_new (seq 0 CPUSTATES) CP_IDLE Hadv 0 0 ltac:(lia))
    as [A1 A2]. specialize (A2 Hin).
  fold (tick_sum CPUSTATES cp_new) in A1, A2. fold (tick_sum CPUSTATES cp_old) in A1, A2.
  pose proof (fold_plus_member cp_old (seq 0 CPUSTATES) CP_IDLE Hpos_old Hin 0) as Mo.
  pose proof (fold_plus_member cp_new (seq 0 CPUSTATES) CP_IDLE Hpos_new Hin 0) as Mn.
  fold (tick_sum CPUSTATES cp_new) in Mn. fold (tick_sum CPUSTATES cp_old) in Mo.
  pose proof (Hadv CP_IDLE) as Hk.
  assert (So : sum_states CPUSTATES cp_old = tick_sum CPUSTATES cp_old)
    by (apply sum_states_exact; [exact Hpos_old|lia]).
  assert (Sn : sum_states CPUSTATES cp_new = tick_sum CPUSTATES cp_new)
    by (apply sum_states_exact; [exact Hpos_new|lia]).
  assert (Uo : used_of CPUSTATES CP_IDLE cp_old =
               tick_sum CPUSTATES cp_old - nth CP_IDLE cp_old 0).
  { unfold used_of. rewrite So. unfold u64_sub, u64. apply Z.mod_small. lia. }
  assert (Un : used_of CPUSTATES CP_IDLE cp_new =
               tick_sum CPUSTATES cp_new - nth CP_IDLE cp_new 0).
  { unfold used_of. rewrite Sn. unfold u64_sub, u64. apply Z.mod_small. lia. }
  apply usage_fraction_unit; unfold load_in_range, in_u64; cbn [old_used old_total];
    rewrite ?Uo, ?Un, ?So, ?Sn; lia.
Qed.

(** X5: when the kernel's tick counts are non-negative, have not gone
    backwards since the reading the slot 0 was last updated from, and sum
    below 2^64, the fraction stored for the whole system lies in [0, 1]. *)
Theorem update_cpu_usage_total_in_unit_interval (env : sysctl_env) (st : cpu_state)
    (cp_old cp_new : list Z)
    (Hidle : (CP_IDLE < CPUSTATES)%nat)
    (Hslot : (0 < length (cpu_usage (after_init env st)))%nat)
    (Hold : cpu_loads (after_init env st) !! 0%nat =
            Some {| old_used := used_of CPUSTATES CP_IDLE cp_old;
                    old_total := sum_states CPUSTATES cp_old |})
    (Hnew : kern_cp_time env = Some cp_new)
    (Hadv : ticks_advance CPUSTATES cp_old cp_new) :
  exists x : spec_float,
    cpu_usage (snd (update_cpu_usage CPUSTATES CP_IDLE env st)) !! 0%nat = Some x /\
    SFbetween fzero f32_one x.
Proof.
  eexists. split.
  - rewrite update_unfold, Hnew.
    match goal with
    | |- context [cpu_loop _ _ _ ?t ?i ?s] =>
        pose proof (loop_keeps_low env t i 0 s ltac:(lia)) as Hs
    end.
    unfold slot in Hs. apply pair_equal_spec in Hs. destruct Hs as [_ Hu].
    rewrite Hu. apply sample_slot_usage; [exact Hold|exact Hslot].
  - apply fraction_of_readings_unit; assumption.
Qed.

(** X6: as X5, for the slot of CPU [i], against the reading of
    kern.cp_time2 the slot was last updated from. *)
Theorem update_cpu_usage_cpu_in_unit_interval (env : sysctl_env) (st : cpu_state)
    (cp0 cp_old cp_new : list Z) (i : nat)
    (Hidle : (CP_IDLE < CPUSTATES)%nat)
    (Hinit : init_cpu st <> 0)
    (Hslots : slots_ok st)
    (Hcp0 : kern_cp_time env = Some cp0)
    (Hi : (i < Z.to_nat (cpu_count st))%nat)
    (Hbefore : cpus_read env i)
    (Hold : cpu_loads st !! S i =
            Some {| old_used := used_of CPUSTATES CP_IDLE cp_old;
                    old_total := sum_states CPUSTATES cp_old |})
    (Hnew : kern_cp_time2 env i = Some cp_new)
    (Hadv : ticks_advance CPUSTATES cp_old cp_new) :
  exists x : spec_float,
    cpu_usage (snd (update_cpu_usage CPUSTATES CP_IDLE env st)) !! S i = Some x /\
    SFbetween fzero f32_one x.
Proof.
  eexists. split.
  - pose proof (update_slot_of_cpu env st cp0 cp_new i Hinit Hcp0 Hi Hbefore Hnew) as Hs.
    unfold slot in Hs. apply pair_equal_spec in Hs. destruct Hs as [_ Hu].
    destruct Hslots as (Hc & Lu & Ll).
    destruct (sample_slot_other 0 (S i) (used_of CPUSTATES CP_IDLE cp0)
                (sum_states CPUSTATES cp0) st ltac:(lia)) as [O1 _].
    destruct (sample_slot_lengths 0 (used_of CPUSTATES CP_IDLE cp0)
                (sum_states CPUSTATES cp0) st) as (_ & _ & F3 & _).
    rewrite Hu. apply sample_slot_usage; [rewrite O1; exact Hold|lia].
  - apply fraction_of_readings_unit; assumption.
Qed.

(** ** A sample, as the whole call takes it *)

Lemma fold_u64_in_range (cp : list Z) (l : list nat) :
  forall acc : Z, in_u64 acc ->
    in_u64 (fold_left (fun a j => u64_add a (nth j cp 0)) l acc).
Proof.
  induction l as [|j l IH]; intros acc Hacc; cbn [fold_left]; [exact Hacc|].
  apply IH. unfold in_u64, u64_add, u64, two64. apply Z.mod_pos_bound. lia.
Qed.

Lemma sum_states_in_u64 (cp : list Z) : in_u64 (sum_states CPUSTATES cp).
Proof. apply fold_u64_in_range. unfold in_u64, two64. lia. Qed.

Lemma used_of_in_u64 (cp : list Z) : in_u64 (used_of CPUSTATES CP_IDLE cp).
Proof. unfold in_u64, used_of, u64_sub, u64, two64. apply Z.mod_pos_bound. lia. Qed.

(** A slot the call reaches is sampled once, from its own reading and
    from the pair it holds when the function starts on the readings. *)
Lemma update_samples_slot (env : sysctl_env) (st : cpu_state) (n : nat)
    (cp : list Z) (l : cpu_load) :
  reaches env st n ->
  slot_reading env n = Some cp ->
  cpu_loads (after_init env st) !! n = Some l ->
  (n < length (cpu_usage (after_init env st)))%nat ->
  cpu_usage (snd (update_cpu_usage CPUSTATES CP_IDLE env st)) !! n =
    Some (usage_fraction l (used_of CPUSTATES CP_IDLE cp) (sum_states CPUSTATES cp)) /\
  cpu_loads (snd (update_cpu_usage CPUSTATES CP_IDLE env st)) !! n =
    Some {| old_used := used_of CPUSTATES CP_IDLE cp; old_total := sum_states CPUSTATES cp |}.
Proof.
  intros [[cp0 Hcp0] Hreach] Hread Hl Hn.
  assert (Hlen : (n < length (cpu_loads (after_init env st)))%nat)
    by (apply lookup_lt_Some in Hl; exact Hl).
  assert (Hs : slot (snd (update_cpu_usage CPUSTATES CP_IDLE env st)) n =
               slot (sample_slot n (used_of CPUSTATES CP_IDLE cp) (sum_states CPUSTATES cp)
                       (after_init env st)) n).
  { rewrite update_unfold, Hcp0. destruct n as [|i].
    - cbn [slot_reading] in Hread. rewrite Hcp0 in Hread.
      injection Hread as <-. apply loop_keeps_low. lia.
    - cbn [slot_reading] in Hread. destruct Hreach as [Hi Hbefore].
      rewrite (loop_samples env (Z.to_nat (cpu_count (after_init env st))) 0 i _ cp);
        [|lia|intros k Hk; apply Hbefore; lia|exact Hread].
      apply sample_slot_local.
      + apply sample_slot_other. lia.
      + apply sample_slot_lengths.
      + apply sample_slot_lengths. }
  unfold slot in Hs. apply pair_equal_spec in Hs. destruct Hs as [Hsl Hsu].
  split.
  - rewrite Hsu. apply sample_slot_usage; assumption.
  - rewrite Hsl. apply sample_slot_loads. exact Hlen.
Qed.

(** C2, amended: for a sample of a slot the call reaches, whose
    stored pair holds [u_int64_t] values, whose new total differs from
    the stored one and neither of whose counters has gone backwards,
    the value stored in [info.cpu_usage[n]] is the
    quotient of the spec, [(new_used - old_used) / (new_total -
    old_total)], computed in binary32: each difference is converted to
    [float] and the two are divided.  [new_total] is the sum of the
    states read for the slot and [new_used] that sum less the idle
    ticks. *)
Theorem C2_fraction_is_float_quotient (env : sysctl_env) (st : cpu_state) (n : nat)
    (cp : list Z) (l : cpu_load)
    (Hreach : reaches env st n)
    (Hread : slot_reading env n = Some cp)
    (Hl : cpu_loads (after_init env st) !! n = Some l)
    (Hn : (n < length (cpu_usage (after_init env st)))%nat)
    (Hold : load_in_range l)
    (Hdiff : sum_states CPUSTATES cp - old_total l <> 0)
    (Hused : old_used l <= used_of CPUSTATES CP_IDLE cp)
    (Htotal : old_total l <= sum_states CPUSTATES cp) :
  cpu_usage (snd (update_cpu_usage CPUSTATES CP_IDLE env st)) !! n =
  Some (spec_fraction l (used_of CPUSTATES CP_IDLE cp) (sum_states CPUSTATES cp)).
Proof.
  destruct (update_samples_slot env st n cp l Hreach Hread Hl Hn) as [Hu _].
  rewrite Hu. f_equal. unfold spec_fraction.
  apply usage_fraction_exact; try assumption.
  - apply used_of_in_u64.
  - apply sum_states_in_u64.
Qed.

(** C4: for a sample of a slot the call reaches, [cpu_loads[n]] is
    overwritten with the new pair whatever the branch that computed the
    fraction, and when the new total equals the stored [old_total] the
    fraction stored in [info.cpu_usage[n]] is 0. *)
Theorem C4_zero_diff_guard (env : sysctl_env) (st : cpu_state) (n : nat)
    (cp : list Z) (l : cpu_load)
    (Hreach : reaches env st n)
    (Hread : slot_reading env n = Some cp)
    (Hl : cpu_loads (after_init env st) !! n = Some l)
    (Hn : (n < length (cpu_usage (after_init env st)))%nat) :
  cpu_loads (snd (update_cpu_usage CPUSTATES CP_IDLE env st)) !! n =
    Some {| old_used := used_of CPUSTATES CP_IDLE cp; old_total := sum_states CPUSTATES cp |} /\
  (sum_states CPUSTATES cp = old_total l ->
   cpu_usage (snd (update_cpu_usage CPUSTATES CP_IDLE env st)) !! n = Some fzero).
Proof.
  destruct (update_samples_slot env st n cp l Hreach Hread Hl Hn) as [Hu Hp].
  split; [exact Hp|].
  intros Hsame. rewrite Hu. f_equal. apply usage_fraction_zero_diff. exact Hsame.
Qed.

End Calls.

(** *** The calls on concrete readings *)

Lemma ticks_1_to_2_advance : ticks_advance 6 ticks_1 ticks_2.
Proof.
  split.
  - intros j. do 6 (destruct j as [|j]; [cbn; lia|]). destruct j; cbn; lia.
  - reflexivity.
Qed.

Lemma update_cpu_usage_keeps_bounds_witness :
  slots_ok (snd (update_cpu_usage 6 5
                   (env_of (Some 2) (Some ticks_1) (fun _ => Some ticks_1)) unallocated)).
Proof.
  pose proof (update_cpu_usage_keeps_bounds 6 5
                (env_of (Some 2) (Some ticks_1) (fun _ => Some ticks_1)) unallocated) as H.
  cbv zeta in H. apply H.
  - intros _. cbn. lia.
  - intros Hn. exfalso. apply Hn. reflexivity.
Defined.

Lemma update_cpu_usage_samples_each_cpu_witness :
  cpu_loads (snd (update_cpu_usage 6 5
                    (env_of None (Some ticks_2) (fun _ => Some ticks_2))
                    (two_slots load_100_1000 load_100_1000))) !! 1%nat =
  Some {| old_used := 190; old_total := 2000 |}.
Proof.
  pose proof (update_cpu_usage_samples_each_cpu 6 5
                (env_of None (Some ticks_2) (fun _ => Some ticks_2))
                (two_slots load_100_1000 load_100_1000) ticks_2 ticks_2 0 load_100_1000) as H.
  cbv zeta in H. apply H.
  - cbn. lia.
  - unfold slots_ok. cbn. repeat split; lia.
  - reflexivity.
  - cbn. lia.
  - intros i Hi. lia.
  - reflexivity.
  - reflexivity.
Defined.

Lemma update_cpu_usage_stops_at_failed_read_witness :
  fst (update_cpu_usage 6 5 (env_of None (Some ticks_2) (fun _ => None))
         (two_slots load_100_1000 load_100_1000)) = 1.
Proof.
  pose proof (update_cpu_usage_stops_at_failed_read 6 5
                (env_of None (Some ticks_2) (fun _ => None))
                (two_slots load_100_1000 load_100_1000) ticks_2 0) as H.
  cbv zeta in H. apply H.
  - cbn. lia.
  - reflexivity.
  - cbn. lia.
  - reflexivity.
Defined.

Lemma update_cpu_usage_total_in_unit_interval_witness :
  exists x : spec_float,
    cpu_usage (snd (update_cpu_usage 6 5 (env_of None (Some ticks_2) (fun _ => None))
                      (one_slot (load_of 6 5 ticks_1)))) !! 0%nat = Some x /\
    SFbetween fzero f32_one x.
Proof.
  apply (update_cpu_usage_total_in_unit_interval 6 5
           (env_of None (Some ticks_2) (fun _ => None))
           (one_slot (load_of 6 5 ticks_1)) ticks_1 ticks_2).
  - lia.
  - cbn. lia.
  - reflexivity.
  - reflexivity.
  - exact ticks_1_to_2_advance.
Defined.

Lemma update_cpu_usage_cpu_in_unit_interval_witness :
  exists x : spec_float,
    cpu_usage (snd (update_cpu_usage 6 5 (env_of None (Some ticks_2) (fun _ => Some ticks_2))
                      (two_slots load_100_1000 (load_of 6 5 ticks_1)))) !! 1%nat = Some x /\
    SFbetween fzero f32_one x.
Proof.
  apply (update_cpu_usage_cpu_in_unit_interval 6 5
           (env_of None (Some ticks_2) (fun _ => Some ticks_2))
           (two_slots load_100_1000 (load_of 6 5 ticks_1)) ticks_2 ticks_1 ticks_2 0).
  - lia.
  - cbn. lia.
  - unfold slots_ok. cbn. repeat split; lia.
  - reflexivity.
  - cbn. lia.
  - intros i Hi. lia.
  - reflexivity.
  - reflexivity.
  - exact ticks_1_to_2_advance.
Defined.

(** The sample of the spec (P5): from (100, 1000) to (150, 1200) the
    fraction stored for the aggregate is 50/200 = 0.25. *)
Lemma C2_witness :
  cpu_usage (snd (update_cpu_usage 6 5 (env_of None (Some ticks_150_1200) (fun _ => None))
                    (one_slot load_100_1000))) !! 0%nat = Some f32_quarter.
Proof.
  refine (eq_trans (C2_fraction_is_float_quotient 6 5
                      (env_of None (Some ticks_150_1200) (fun _ => None))
                      (one_slot load_100_1000) 0 ticks_150_1200 load_100_1000
                      _ _ _ _ _ _ _ _) _).
  - split; [exists ticks_150_1200; reflexivity|exact I].
  - reflexivity.
  - reflexivity.
  - cbn. lia.
  - unfold load_in_range, in_u64, two64. cbn. lia.
  - vm_compute. discriminate.
  - vm_compute. discriminate.
  - vm_compute. discriminate.
  - vm_compute. reflexivity.
Defined.

(** C2, as stated, fails: from (100, 1000) to (50, 1200) the total
    differs, the quotient of the spec is -0.25, and the call stores
    10737418 * 2^33: the used difference is taken modulo 2^64. *)
Lemma C2_counterexample :
  sum_states 6 ticks_50_1200 - old_total load_100_1000 <> 0 /\
  spec_fraction load_100_1000 (used_of 6 5 ticks_50_1200) (sum_states 6 ticks_50_1200) =
    S754_finite true 8388608 (-25) /\
  cpu_usage (snd (update_cpu_usage 6 5 (env_of None (Some ticks_50_1200) (fun _ => None))
                    (one_slot load_100_1000))) !! 0%nat =
    Some (S754_finite false 10737418 33) /\
  cpu_usage (snd (update_cpu_usage 6 5 (env_of None (Some ticks_50_1200) (fun _ => None))
                    (one_slot load_100_1000))) !! 0%nat <>
    Some (spec_fraction load_100_1000 (used_of 6 5 ticks_50_1200)
            (sum_states 6 ticks_50_1200)).
Proof.
  split; [vm_compute; discriminate|].
  split; [vm_compute; reflexivity|].
  split; [vm_compute; reflexivity|].
  vm_compute. discriminate.
Qed.

(** From (100, 1000), with a fraction of one quarter stored, to
    (150, 1000): the fraction becomes 0 and the pair (150, 1000). *)
Lemma C4_witness :
  cpu_usage (snd (update_cpu_usage 6 5 (env_of None (Some ticks_150_1000) (fun _ => None))
                    quarter_slot)) !! 0%nat = Some fzero /\
  cpu_loads (snd (update_cpu_usage 6 5 (env_of None (Some ticks_150_1000) (fun _ => None))
                    quarter_slot)) !! 0%nat = Some {| old_used := 150; old_total := 1000 |}.
Proof.
  destruct (C4_zero_diff_guard 6 5 (env_of None (Some ticks_150_1000) (fun _ => None))
              quarter_slot 0 ticks_150_1000 load_100_1000) as [Hp Hz].
  - split; [exists ticks_150_1000; reflexivity|exact I].
  - reflexivity.
  - reflexivity.
  - cbn. lia.
  - split; [apply Hz; reflexivity|exact Hp].
Defined.

End CpuCallFacts.

(** * Facts about whole calls of [update_net_stats] *)

Module NetCallFacts.

Lemma s64_idem (a b : Z) : s64 (s64 a + b) = s64 (a + b).
Proof.
  unfold s64 at 1 3. f_equal.
  destruct (s64_congr a) as [k ->].
  replace (a + 2 ^ 64 * k + b + two63) with (a + b + two63 + k * two64)
    by (unfold two64; lia).
  apply Z.mod_add. unfold two64. lia.
Qed.

Lemma last_cons_default (rs : list Z) :
  forall r L : Z, List.last (r :: rs) L = List.last rs r.
Proof.
  induction rs as [|x rs IH]; intros r L; [reflexivity|].
  change (List.last (r :: x :: rs) L) with (List.last (x :: rs) L).
  rewrite (IH x L), (IH x r). reflexivity.
Qed.

Lemma track_ascending (rs : list Z) :
  forall R L : Z,
    -1 <= L < 2 ^ 32 -> ascending L rs ->
    fold_left track rs (s64 R, L) = (s64 (R + (List.last rs L - L)), List.last rs L).
Proof.
  induction rs as [|r rs IH]; intros R L HL Hasc.
  - cbn. f_equal. f_equal. lia.
  - destruct Hasc as (Hle & Hr & Hasc). unfold counter32 in Hr.
    cbn [fold_left]. unfold track at 2. cbn [fst snd].
    assert (Er : s64 r = r) by (apply s64_small; unfold in_s64, two63; lia).
    rewrite Er, raw_delta_small by lia.
    unfold spec_raw_delta. destruct (Z.geb_spec r L) as [_|Hlt]; [|lia].
    unfold s64_add. rewrite s64_idem, IH by (assumption || lia).
    rewrite last_cons_default. f_equal. f_equal. lia.
Qed.

Section Calls2.

Variable fresh : net_stat.

Lemma ifa_loop_other (delta : spec_float) (name : string) (l : list ifaddrs) :
  forall store : gmap string net_stat,
    Forall (fun ifa => ifa_name ifa <> name) l ->
    ifa_loop fresh delta l store !! name = store !! name.
Proof.
  induction l as [|ifa rest IH]; intros store Hall; cbn [ifa_loop]; [reflexivity|].
  inversion Hall as [|? ? Hifa Hrest]; subst.
  rewrite IH by exact Hrest. unfold process_entry. apply lookup_insert_ne. exact Hifa.
Qed.

(** X7: a call changes nothing for an interface it does not list: its
    entry in the store, if any, is the one it was, and none is created.
    A call that returns early, or whose [getifaddrs] fails, lists none. *)
Theorem update_net_stats_unlisted_untouched (env : net_env)
    (store : gmap string net_stat) (name : string)
    (Hname : ~ In name (listed_names env)) :
  snd (update_net_stats fresh env store) !! name = store !! name.
Proof.
  unfold update_net_stats, listed_names in *.
  destruct (SFleb (elapsed env) f64_0_0001); [reflexivity|].
  destruct (getifaddrs env) as [ifap|]; [|reflexivity].
  cbn [snd]. apply ifa_loop_other.
  apply List.Forall_forall. intros ifa Hin Heq. apply Hname.
  rewrite <- Heq. apply in_map. exact Hin.
Qed.

(** ** The totals as a function of the readings *)

Lemma entry_update_tracks (dir : direction) (delta : spec_float) (ifa : ifaddrs)
    (rest : list ifaddrs) (ns : net_stat) :
  tracked dir (entry_update delta ifa rest ns) =
  if is_link_entry (ifa_name ifa) ifa
  then track (tracked dir ns) (reading dir (ifa_data ifa))
  else tracked dir ns.
Proof.
  unfold is_link_entry, entry_update. rewrite String.eqb_refl. cbn [andb].
  destruct (negb (Z.land (ifa_flags ifa) IFF_UP =? 0)); cbn [andb].
  - destruct (sa_family (ifa_addr ifa) =? AF_LINK); cbn [negb];
      destruct dir; reflexivity.
  - destruct dir; reflexivity.
Qed.

Lemma process_entry_tracks (dir : direction) (name : string) (delta : spec_float)
    (ifa : ifaddrs) (rest : list ifaddrs) (store : gmap string net_stat) :
  tracked dir (get_net_stat fresh name (process_entry fresh delta ifa rest store)) =
  if is_link_entry name ifa
  then track (tracked dir (get_net_stat fresh name store)) (reading dir (ifa_data ifa))
  else tracked dir (get_net_stat fresh name store).
Proof.
  destruct (decide (ifa_name ifa = name)) as [<-|Hne].
  - rewrite get_process_entry_same. apply entry_update_tracks.
  - rewrite get_process_entry_other by exact Hne.
    unfold is_link_entry. apply String.eqb_neq in Hne. rewrite Hne. reflexivity.
Qed.

Lemma ifa_loop_tracks (dir : direction) (name : string) (delta : spec_float)
    (l : list ifaddrs) :
  forall store : gmap string net_stat,
    tracked dir (get_net_stat fresh name (ifa_loop fresh delta l store)) =
    fold_left track
      (map (fun ifa => reading dir (ifa_data ifa)) (List.filter (is_link_entry name) l))
      (tracked dir (get_net_stat fresh name store)).
Proof.
  induction l as [|ifa rest IH]; intros store; cbn [ifa_loop List.filter]; [reflexivity|].
  rewrite IH, process_entry_tracks.
  destruct (is_link_entry name ifa); reflexivity.
Qed.

Lemma run_tracks (dir : direction) (name : string) (calls : list net_env) :
  forall store : gmap string net_stat,
    tracked dir (get_net_stat fresh name (run fresh calls store)) =
    fold_left track (link_readings dir name calls)
      (tracked dir (get_net_stat fresh name store)).
Proof.
  induction calls as [|env calls IH]; intros store; [reflexivity|].
  change (run fresh (env :: calls) store)
    with (run fresh calls (snd (update_net_stats fresh env store))).
  rewrite IH. unfold link_readings. cbn [map concat]. rewrite fold_left_app. f_equal.
  unfold update_net_stats, link_readings_of_call.
  destruct (SFleb (elapsed env) f64_0_0001); [reflexivity|].
  destruct (getifaddrs env) as [ifap|]; [|reflexivity].
  cbn [snd]. apply ifa_loop_tracks.
Qed.

(** X8: after any sequence of calls, the total and the last raw reading
    of an interface, in either direction, are those obtained by
    accounting, one after the other, the readings of the AF_LINK entries
    of that interface found up by the calls that were not skipped:
    nothing else in the calls influences them. *)
Theorem totals_follow_link_readings (dir : direction) (name : string)
    (calls : list net_env) (store : gmap string net_stat) :
  total dir (get_net_stat fresh name (run fresh calls store)) =
    fst (fold_left track (link_readings dir name calls)
           (tracked dir (get_net_stat fresh name store))) /\
  last_read dir (get_net_stat fresh name (run fresh calls store)) =
    snd (fold_left track (link_readings dir name calls)
           (tracked dir (get_net_stat fresh name store))).
Proof.
  pose proof (run_tracks dir name calls store) as H.
  unfold tracked at 1 in H. rewrite <- H. split; reflexivity.
Qed.

(** X9: as long as the readings accounted to an interface are 32-bit
    values that never go backwards, its total moves by exactly as much as
    the counter did since the stored last reading (in [long long]
    arithmetic), and the last reading stored is the latest one. *)
Theorem total_follows_counter_without_wrap (dir : direction) (name : string)
    (calls : list net_env) (store : gmap string net_stat)
    (Hlast : -1 <= last_read dir (get_net_stat fresh name store) < 2 ^ 32)
    (Htotal : in_s64 (total dir (get_net_stat fresh name store)))
    (Hasc : ascending (last_read dir (get_net_stat fresh name store))
              (link_readings dir name calls)) :
  let ns := get_net_stat fresh name store in
  let ns' := get_net_stat fresh name (run fresh calls store) in
  let latest := List.last (link_readings dir name calls) (last_read dir ns) in
  last_read dir ns' = latest /\
  total dir ns' = s64 (total dir ns + (latest - last_read dir ns)).
Proof.
  cbv zeta.
  pose proof (run_tracks dir name calls store) as H.
  unfold tracked at 2 in H.
  rewrite <- (s64_small (total dir (get_net_stat fresh name store))) in H at 1 by exact Htotal.
  rewrite track_ascending in H by assumption.
  unfold tracked in H. apply pair_equal_spec in H. destruct H as [Ht Hl].
  split; assumption.
Qed.

Lemma zero_over_long_interval (delta : spec_float) :
  SFltb f64_0_0001 delta = true -> f64_div (f64_of_Z 0) delta = fzero.
Proof.
  rewrite f64_0_0001_value. intros H.
  destruct delta as [s|s| |s m e]; cbn in H; try discriminate.
  - destruct s; [discriminate|reflexivity].
  - destruct s; [discriminate|reflexivity].
Qed.

(** X10: an AF_LINK entry met a second time with the same readings adds
    nothing: the totals and last readings stay as the first pass left
    them and, for an interval above 0.0001 s, both speeds are 0. *)
Theorem replayed_entry_adds_nothing (d1 d2 : spec_float) (ifa : ifaddrs)
    (rest : list ifaddrs) (store : gmap string net_stat)
    (Hup : Z.land (ifa_flags ifa) IFF_UP <> 0)
    (Hlink : sa_family (ifa_addr ifa) = AF_LINK)
    (Hlong : SFltb f64_0_0001 d2 = true) :
  let store1 := process_entry fresh d1 ifa rest store in
  let ns1 := get_net_stat fresh (ifa_name ifa) store1 in
  let ns2 := get_net_stat fresh (ifa_name ifa) (process_entry fresh d2 ifa rest store1) in
  recv ns2 = recv ns1 /\ trans ns2 = trans ns1 /\
  last_read_recv ns2 = last_read_recv ns1 /\ last_read_trans ns2 = last_read_trans ns1 /\
  recv_speed ns2 = fzero /\ trans_speed ns2 = fzero.
Proof.
  cbv zeta. rewrite !get_process_entry_same, !entry_update_link by assumption.
  set (ns0 := get_net_stat fresh (ifa_name ifa) store).
  set (r := s64 (ifi_ibytes (ifa_data ifa))). set (t := s64 (ifi_obytes (ifa_data ifa))).
  assert (Z0 : forall x : Z, raw_delta x x = 0).
  { intros x. unfold raw_delta. rewrite Z.ltb_irrefl. unfold s64_sub.
    rewrite Z.sub_diag. reflexivity. }
  assert (A0 : forall a b : Z, s64_add (s64_add a b) 0 = s64_add a b).
  { intros a b. unfold s64_add. rewrite Z.add_0_r. apply s64_small, s64_in_range. }
  assert (S0 : forall x : Z, s64_sub x x = 0).
  { intros x. unfold s64_sub. rewrite Z.sub_diag. reflexivity. }
  cbn [account recv trans last_read_recv last_read_trans recv_speed trans_speed
       set_addr set_up].
  fold r t. rewrite !Z0, !A0, !S0.
  repeat split; apply zero_over_long_interval; exact Hlong.
Qed.

End Calls2.

(** X11: between two 32-bit readings the amount added is the difference
    modulo 2^32 when the counter did not wrap, and one less than that
    when it did. *)
Theorem wrapped_delta_is_one_short (prev new : Z)
    (Hprev : counter32 prev) (Hnew : counter32 new) :
  raw_delta prev new =
  if new <? prev then (new - prev) mod 2 ^ 32 - 1 else (new - prev) mod 2 ^ 32.
Proof.
  unfold counter32 in *. rewrite raw_delta_small by lia. unfold spec_raw_delta.
  destruct (Z.geb_spec new prev), (Z.ltb_spec new prev); try lia.
  - rewrite Z.mod_small by lia. reflexivity.
  - replace (new - prev) with (new - prev + 2 ^ 32 + (-1) * 2 ^ 32) by lia.
    rewrite Z.mod_add by lia. rewrite Z.mod_small by lia. lia.
Qed.

(** *** The calls on concrete readings *)

Lemma update_net_stats_unlisted_untouched_witness :
  snd (update_net_stats zero_net_stat call_1 (∅ : gmap string net_stat)) !! "em1" =
  (∅ : gmap string net_stat) !! "em1".
Proof.
  apply (update_net_stats_unlisted_untouched zero_net_stat call_1 ∅ "em1").
  vm_compute. intros [H|[]]. discriminate.
Defined.

Lemma total_follows_counter_without_wrap_witness :
  recv (get_net_stat zero_net_stat "em0"
          (run zero_net_stat [call_1] (∅ : gmap string net_stat))) = 4294967290.
Proof.
  assert (E : get_net_stat zero_net_stat "em0" (∅ : gmap string net_stat) = zero_net_stat)
    by reflexivity.
  assert (R : link_readings Received "em0" [call_1] = [4294967290])
    by (vm_compute; reflexivity).
  pose proof (total_follows_counter_without_wrap zero_net_stat Received "em0" [call_1] ∅)
    as H.
  cbv zeta in H. rewrite E, R in H.
  destruct H as [_ H].
  - cbn. lia.
  - unfold in_s64, two63. cbn. lia.
  - cbn. unfold counter32. lia.
  - exact H.
Defined.

Lemma replayed_entry_adds_nothing_witness :
  recv (get_net_stat zero_net_stat "em0"
          (process_entry zero_net_stat f64_one (link_entry "em0" 10 20) []
             (process_entry zero_net_stat f64_one (link_entry "em0" 10 20) []
                (∅ : gmap string net_stat)))) =
  recv (get_net_stat zero_net_stat "em0"
          (process_entry zero_net_stat f64_one (link_entry "em0" 10 20) []
             (∅ : gmap string net_stat))).
Proof.
  pose proof (replayed_entry_adds_nothing zero_net_stat f64_one f64_one
                (link_entry "em0" 10 20) [] ∅) as H.
  cbv zeta in H. apply H.
  - vm_compute. discriminate.
  - reflexivity.
  - vm_compute. reflexivity.
Defined.

Lemma wrapped_delta_is_one_short_witness : raw_delta 4294967290 5 = 10.
Proof.
  rewrite (wrapped_delta_is_one_short 4294967290 5) by (unfold counter32; lia).
  reflexivity.
Defined.

(** ** The claims on whole calls *)

Lemma run_app (fresh : net_stat) (c1 c2 : list net_env) (store : gmap string net_stat) :
  run fresh (c1 ++ c2) store = run fresh c2 (run fresh c1 store).
Proof. unfold run. apply fold_left_app. Qed.

Lemma link_readings_app (dir : direction) (name : string) (c1 c2 : list net_env) :
  link_readings dir name (c1 ++ c2) = link_readings dir name c1 ++ link_readings dir name c2.
Proof. unfold link_readings. rewrite map_app. apply concat_app. Qed.

(** On 32-bit readings the code accounts as the rule of the spec does. *)
Lemma track_spec (rs : list Z) :
  forall T L : Z,
    counter32 L -> Forall counter32 rs ->
    fold_left track rs (T, L) = fold_left spec_track rs (T, L).
Proof.
  induction rs as [|r rs IH]; intros T L HL Hall; [reflexivity|].
  inversion Hall as [|? ? Hr Hrs]; subst.
  cbn [fold_left].
  assert (E : track (T, L) r = spec_track (T, L) r).
  { unfold track, spec_track, counter32 in *. cbn [fst snd].
    rewrite (s64_small r) by (unfold in_s64, two63; lia).
    rewrite raw_delta_small by lia. reflexivity. }
  rewrite E. change (spec_track (T, L) r) with (s64_add T (spec_raw_delta L r), r).
  apply IH; assumption.
Qed.

(** The exact total never decreases. *)
Lemma exact_mono (rs : list Z) :
  forall T L : Z,
    -1 <= L < 2 ^ 32 -> Forall counter32 rs -> T <= exact_total T L rs.
Proof.
  unfold exact_total.
  induction rs as [|r rs IH]; intros T L HL Hall; cbn [fold_left fst]; [lia|].
  inversion Hall as [|? ? Hr Hrs]; subst.
  pose proof (spec_raw_delta_bounds L r HL Hr) as B.
  unfold exact_track at 2. cbn [fst snd].
  specialize (IH (T + spec_raw_delta L r) r ltac:(unfold counter32 in Hr; lia) Hrs). lia.
Qed.

Lemma exact_total_app (r1 r2 : list Z) (T L : Z) :
  exact_total T L (r1 ++ r2) =
  exact_total (exact_total T L r1) (snd (fold_left exact_track r1 (T, L))) r2.
Proof.
  unfold exact_total. rewrite fold_left_app.
  destruct (fold_left exact_track r1 (T, L)) as [T1 L1]. reflexivity.
Qed.

Lemma exact_last (rs : list Z) :
  forall T L : Z,
    -1 <= L < 2 ^ 32 -> Forall counter32 rs ->
    -1 <= snd (fold_left exact_track rs (T, L)) < 2 ^ 32.
Proof.
  induction rs as [|r rs IH]; intros T L HL Hall; cbn [fold_left snd]; [exact HL|].
  inversion Hall as [|? ? Hr Hrs]; subst.
  unfold exact_track at 2. cbn [fst snd]. apply IH; [unfold counter32 in Hr; lia|exact Hrs].
Qed.

(** Without overflow the code's total is the exact one. *)
Lemma track_exact (rs : list Z) :
  forall T L : Z,
    in_s64 T -> -1 <= L < 2 ^ 32 -> Forall counter32 rs ->
    exact_total T L rs < two63 ->
    fold_left track rs (T, L) = fold_left exact_track rs (T, L).
Proof.
  induction rs as [|r rs IH]; intros T L HT HL Hall Hroom; [reflexivity|].
  inversion Hall as [|? ? Hr Hrs]; subst.
  pose proof (spec_raw_delta_bounds L r HL Hr) as B.
  assert (HL' : -1 <= r < 2 ^ 32) by (unfold counter32 in Hr; lia).
  pose proof (exact_mono rs (T + spec_raw_delta L r) r HL' Hrs) as M.
  change (exact_total T L (r :: rs)) with (exact_total (T + spec_raw_delta L r) r rs) in Hroom.
  cbn [fold_left].
  assert (E : track (T, L) r = exact_track (T, L) r).
  { unfold track, exact_track, counter32 in *. cbn [fst snd].
    rewrite (s64_small r) by (unfold in_s64, two63; lia).
    rewrite raw_delta_small by lia.
    unfold s64_add. rewrite s64_small by (unfold in_s64, two63 in *; lia). reflexivity. }
  rewrite E. change (exact_track (T, L) r) with (T + spec_raw_delta L r, r).
  apply IH; try assumption. unfold in_s64, two63 in *. lia.
Qed.

Section WholeCalls.

Variable fresh : net_stat.

(** One call, on the pair (total, last raw reading) of an interface. *)
Lemma call_tracks (dir : direction) (name : string) (env : net_env)
    (store : gmap string net_stat) :
  tracked dir (get_net_stat fresh name (snd (update_net_stats fresh env store))) =
  fold_left track (link_readings_of_call dir name env)
    (tracked dir (get_net_stat fresh name store)).
Proof.
  pose proof (run_tracks fresh dir name [env] store) as H.
  unfold link_readings in H. cbn [map concat] in H. rewrite app_nil_r in H. exact H.
Qed.

Lemma link_readings_of_listed (dir : direction) (name : string) (env : net_env)
    (ifap : list ifaddrs) :
  SFleb (elapsed env) f64_0_0001 = false ->
  getifaddrs env = Some ifap ->
  link_readings_of_call dir name env =
  map (fun e => reading dir (ifa_data e)) (link_entries name ifap).
Proof. intros Hlong Hlist. unfold link_readings_of_call. rewrite Hlong, Hlist. reflexivity. Qed.

(** C1: in a call that is not skipped, with a 32-bit reading stored and
    32-bit readings read, what is added to a total for each up AF_LINK
    entry of the interface is the amount of the overflow rule,
    [new_raw - prev_raw] when [new_raw >= prev_raw] and
    [(2^32 - 1 - prev_raw) + new_raw] otherwise, each reading becoming
    the [prev_raw] of the next; with one such entry in the list, as
    [getifaddrs] gives, the total grows by that amount once and the
    reading is stored.  The statement is for either direction, from the
    readings of that direction alone. *)
Theorem C1_wrap_rule (dir : direction) (name : string) (env : net_env)
    (store : gmap string net_stat) (ifap : list ifaddrs)
    (Hlong : SFleb (elapsed env) f64_0_0001 = false)
    (Hlist : getifaddrs env = Some ifap)
    (Hprev : counter32 (last_read dir (get_net_stat fresh name store)))
    (Hnew : Forall (fun e => counter32 (reading dir (ifa_data e))) (link_entries name ifap)) :
  let ns := get_net_stat fresh name store in
  let ns' := get_net_stat fresh name (snd (update_net_stats fresh env store)) in
  tracked dir ns' =
    fold_left spec_track (map (fun e => reading dir (ifa_data e)) (link_entries name ifap))
      (tracked dir ns) /\
  (forall ifa : ifaddrs,
     link_entries name ifap = [ifa] ->
     total dir ns' =
       s64_add (total dir ns) (spec_raw_delta (last_read dir ns) (reading dir (ifa_data ifa))) /\
     last_read dir ns' = reading dir (ifa_data ifa)).
Proof.
  cbv zeta.
  assert (E : tracked dir (get_net_stat fresh name (snd (update_net_stats fresh env store))) =
              fold_left spec_track
                (map (fun e => reading dir (ifa_data e)) (link_entries name ifap))
                (tracked dir (get_net_stat fresh name store))).
  { rewrite call_tracks, (link_readings_of_listed dir name env ifap Hlong Hlist).
    unfold tracked. apply track_spec; [exact Hprev|].
    apply Forall_map. exact Hnew. }
  split; [exact E|].
  intros ifa Hone. rewrite Hone in E. cbn [map fold_left] in E.
  unfold tracked, spec_track in E. cbn [fst snd] in E.
  apply pair_equal_spec in E. exact E.
Qed.

End WholeCalls.

Lemma account_counters (delta : spec_float) (d : if_data) (a b : net_stat) :
  counters_of a = counters_of b ->
  counters_of (account delta d a) = counters_of (account delta d b).
Proof.
  unfold counters_of. intros H. injection H as H1 H2 H3 H4 H5 H6.
  unfold account. cbn [last_read_recv last_read_trans recv trans recv_speed trans_speed].
  rewrite H1, H2, H3, H4. reflexivity.
Qed.

Lemma account_all_counters (delta : spec_float) (links : list ifaddrs) :
  forall a b : net_stat,
    counters_of a = counters_of b ->
    counters_of (account_all delta links a) = counters_of (account_all delta links b).
Proof.
  induction links as [|e links IH]; intros a b H; [exact H|].
  apply IH. apply account_counters. exact H.
Qed.

Lemma is_link_entry_true (name : string) (ifa : ifaddrs) :
  is_link_entry name ifa = true ->
  ifa_name ifa = name /\ Z.land (ifa_flags ifa) IFF_UP <> 0 /\
  sa_family (ifa_addr ifa) = AF_LINK.
Proof.
  unfold is_link_entry. intros H.
  apply andb_true_iff in H. destruct H as [H Hf].
  apply andb_true_iff in H. destruct H as [Hn Hu].
  apply String.eqb_eq in Hn. apply Z.eqb_eq in Hf.
  apply negb_true_iff in Hu. apply Z.eqb_neq in Hu. auto.
Qed.

Section Counters.

Variable fresh : net_stat.

(** One entry, on the counters of an interface. *)
Lemma process_entry_counters (name : string) (delta : spec_float) (ifa : ifaddrs)
    (rest : list ifaddrs) (store : gmap string net_stat) :
  counters_of (get_net_stat fresh name (process_entry fresh delta ifa rest store)) =
  if is_link_entry name ifa
  then counters_of (account delta (ifa_data ifa) (get_net_stat fresh name store))
  else counters_of (get_net_stat fresh name store).
Proof.
  destruct (decide (ifa_name ifa = name)) as [<-|Hne].
  - rewrite get_process_entry_same.
    unfold is_link_entry, entry_update. rewrite String.eqb_refl. cbn [andb].
    destruct (negb (Z.land (ifa_flags ifa) IFF_UP =? 0)); cbn [andb]; [|reflexivity].
    destruct (sa_family (ifa_addr ifa) =? AF_LINK); cbn [negb]; reflexivity.
  - rewrite get_process_entry_other by exact Hne.
    unfold is_link_entry. apply String.eqb_neq in Hne. rewrite Hne. reflexivity.
Qed.

(** The loop, on the counters of an interface: only its up AF_LINK
    entries count. *)
Lemma ifa_loop_counters (name : string) (delta : spec_float) (l : list ifaddrs) :
  forall store : gmap string net_stat,
    counters_of (get_net_stat fresh name (ifa_loop fresh delta l store)) =
    counters_of (account_all delta (link_entries name l) (get_net_stat fresh name store)).
Proof.
  induction l as [|ifa rest IH]; intros store; [reflexivity|].
  cbn [ifa_loop]. rewrite IH. unfold link_entries. cbn [List.filter].
  pose proof (process_entry_counters name delta ifa rest store) as H.
  destruct (is_link_entry name ifa).
  - cbn [account_all fold_left]. apply account_all_counters. exact H.
  - apply account_all_counters. exact H.
Qed.

(** One entry, on the flag of an interface. *)
Lemma process_entry_up (name : string) (delta : spec_float) (ifa : ifaddrs)
    (rest : list ifaddrs) (store : gmap string net_stat) :
  up (get_net_stat fresh name (process_entry fresh delta ifa rest store)) =
  if String.eqb (ifa_name ifa) name
  then (if Z.land (ifa_flags ifa) IFF_UP =? 0 then 0 else 1)
  else up (get_net_stat fresh name store).
Proof.
  destruct (decide (ifa_name ifa = name)) as [<-|Hne].
  - rewrite get_process_entry_same, String.eqb_refl. unfold entry_update.
    destruct (Z.land (ifa_flags ifa) IFF_UP =? 0); cbn [negb]; [reflexivity|].
    destruct (sa_family (ifa_addr ifa) =? AF_LINK); reflexivity.
  - rewrite get_process_entry_other by exact Hne.
    apply String.eqb_neq in Hne. rewrite Hne. reflexivity.
Qed.

Lemma ifa_loop_stays_up (name : string) (delta : spec_float) (l : list ifaddrs) :
  forall store : gmap string net_stat,
    Forall (fun e => ifa_name e = name -> Z.land (ifa_flags e) IFF_UP <> 0) l ->
    up (get_net_stat fresh name store) = 1 ->
    up (get_net_stat fresh name (ifa_loop fresh delta l store)) = 1.
Proof.
  induction l as [|e rest IH]; intros store Hall Hup; [exact Hup|].
  inversion Hall as [|? ? He Hrest]; subst.
  cbn [ifa_loop]. apply IH; [exact Hrest|].
  rewrite process_entry_up.
  destruct (String.eqb_spec (ifa_name e) name) as [En|_]; [|exact Hup].
  specialize (He En). destruct (Z.eqb_spec (Z.land (ifa_flags e) IFF_UP) 0); [contradiction|].
  reflexivity.
Qed.

(** The entries after a given one are processed from some store. *)
Lemma ifa_loop_from (delta : spec_float) (before l : list ifaddrs) :
  forall store : gmap string net_stat,
    exists store_b : gmap string net_stat,
      ifa_loop fresh delta (before ++ l) store = ifa_loop fresh delta l store_b.
Proof.
  induction before as [|e before IH]; intros store.
  - exists store. reflexivity.
  - cbn [app ifa_loop]. apply IH.
Qed.

Lemma ifa_loop_keeps_entry (name : string) (delta : spec_float) (l : list ifaddrs) :
  forall store : gmap string net_stat,
    is_Some (store !! name) -> is_Some (ifa_loop fresh delta l store !! name).
Proof.
  induction l as [|e rest IH]; intros store H; [exact H|].
  cbn [ifa_loop]. apply IH. unfold process_entry.
  destruct (decide (ifa_name e = name)) as [<-|Hne].
  - rewrite lookup_insert_eq. eauto.
  - rewrite lookup_insert_ne by exact Hne. exact H.
Qed.

Lemma ifa_loop_creates (name : string) (delta : spec_float) (l : list ifaddrs) :
  forall store : gmap string net_stat,
    In name (map ifa_name l) -> is_Some (ifa_loop fresh delta l store !! name).
Proof.
  induction l as [|e rest IH]; intros store Hin; [destruct Hin|].
  cbn [ifa_loop]. destruct Hin as [<-|Hin].
  - apply ifa_loop_keeps_entry. unfold process_entry. rewrite lookup_insert_eq. eauto.
  - apply IH. exact Hin.
Qed.

(** C10: in a call that is not skipped, an entry of an interface that
    is up, with an address family other than AF_LINK, sets the flag [up]
    of the interface (it is 1 after the call unless a later entry of the
    same interface is down) and is skipped: the last raw readings, the
    totals and the speeds after the call are those the up AF_LINK entries
    of the interface give, accounted alone, and those the interface had
    when the list holds no such entry. *)
Theorem C10_non_link_entry_only_marks_up (env : net_env) (store : gmap string net_stat)
    (before after : list ifaddrs) (ifa : ifaddrs)
    (Hlong : SFleb (elapsed env) f64_0_0001 = false)
    (Hlist : getifaddrs env = Some (before ++ ifa :: after))
    (Hup : Z.land (ifa_flags ifa) IFF_UP <> 0)
    (Hfam : sa_family (ifa_addr ifa) <> AF_LINK) :
  let name := ifa_name ifa in
  let ns := get_net_stat fresh name store in
  let ns' := get_net_stat fresh name (snd (update_net_stats fresh env store)) in
  (Forall (fun e => ifa_name e = name -> Z.land (ifa_flags e) IFF_UP <> 0) after ->
   up ns' = 1) /\
  counters_of ns' =
    counters_of (account_all (elapsed env) (link_entries name (before ++ after)) ns) /\
  (link_entries name (before ++ after) = [] -> counters_of ns' = counters_of ns).
Proof.
  cbv zeta.
  assert (Eu : snd (update_net_stats fresh env store) =
               ifa_loop fresh (elapsed env) (before ++ ifa :: after) store).
  { unfold update_net_stats. rewrite Hlong, Hlist. reflexivity. }
  rewrite Eu.
  assert (Hno : is_link_entry (ifa_name ifa) ifa = false).
  { unfold is_link_entry.
    destruct (Z.eqb_spec (sa_family (ifa_addr ifa)) AF_LINK); [contradiction|].
    apply andb_false_r. }
  assert (Ec : counters_of (get_net_stat fresh (ifa_name ifa)
                              (ifa_loop fresh (elapsed env) (before ++ ifa :: after) store)) =
               counters_of (account_all (elapsed env)
                              (link_entries (ifa_name ifa) (before ++ after))
                              (get_net_stat fresh (ifa_name ifa) store))).
  { rewrite ifa_loop_counters. unfold link_entries.
    rewrite !List.filter_app. cbn [List.filter]. rewrite Hno. reflexivity. }
  split; [|split].
  - intros Hafter.
    destruct (ifa_loop_from (elapsed env) before (ifa :: after) store) as [store_b ->].
    cbn [ifa_loop]. apply ifa_loop_stays_up; [exact Hafter|].
    rewrite process_entry_up, String.eqb_refl.
    destruct (Z.eqb_spec (Z.land (ifa_flags ifa) IFF_UP) 0); [contradiction|reflexivity].
  - exact Ec.
  - intros Hnone. rewrite Ec, Hnone. reflexivity.
Qed.

(** C7, amended: in a call that is not skipped, an interface name that
    is not in the store and has one up AF_LINK entry in the list gets a
    state, and its first readings are differenced against the fresh
    state like any others: the raw readings are remembered, each total
    grows by the raw delta from the fresh state's last reading, and each
    speed is that growth divided by the elapsed time.  When the fresh
    state holds zeros, a 32-bit first reading [r] is reported as a total
    of [r] and a speed of [r] over the elapsed time. *)
Theorem C7_first_sample_differenced_from_fresh (env : net_env)
    (store : gmap string net_stat) (name : string) (ifap : list ifaddrs) (ifa : ifaddrs)
    (Hnew : store !! name = None)
    (Hlong : SFleb (elapsed env) f64_0_0001 = false)
    (Hlist : getifaddrs env = Some ifap)
    (Hlinks : link_entries name ifap = [ifa]) :
  let r := ifi_ibytes (ifa_data ifa) in
  let t := ifi_obytes (ifa_data ifa) in
  exists ns' : net_stat,
    snd (update_net_stats fresh env store) !! name = Some ns' /\
    last_read_recv ns' = s64 r /\
    last_read_trans ns' = s64 t /\
    recv ns' = s64_add (recv fresh) (raw_delta (last_read_recv fresh) (s64 r)) /\
    trans ns' = s64_add (trans fresh) (raw_delta (last_read_trans fresh) (s64 t)) /\
    recv_speed ns' = f64_div (f64_of_Z (s64_sub (recv ns') (recv fresh))) (elapsed env) /\
    trans_speed ns' = f64_div (f64_of_Z (s64_sub (trans ns') (trans fresh))) (elapsed env) /\
    (last_read_recv fresh = 0 -> recv fresh = 0 -> counter32 r ->
     recv ns' = r /\ recv_speed ns' = f64_div (f64_of_Z r) (elapsed env)) /\
    (last_read_trans fresh = 0 -> trans fresh = 0 -> counter32 t ->
     trans ns' = t /\ trans_speed ns' = f64_div (f64_of_Z t) (elapsed env)).
Proof.
  cbv zeta.
  assert (Eu : snd (update_net_stats fresh env store) =
               ifa_loop fresh (elapsed env) ifap store).
  { unfold update_net_stats. rewrite Hlong, Hlist. reflexivity. }
  assert (Hin : In name (map ifa_name ifap)).
  { assert (Hi : In ifa (link_entries name ifap)) by (rewrite Hlinks; left; reflexivity).
    unfold link_entries in Hi. apply List.filter_In in Hi. destruct Hi as [Hi Hl].
    apply is_link_entry_true in Hl. destruct Hl as [<- _]. apply in_map. exact Hi. }
  destruct (ifa_loop_creates name (elapsed env) ifap store Hin) as [ns' Hns].
  exists ns'. rewrite Eu. split; [exact Hns|].
  pose proof (ifa_loop_counters name (elapsed env) ifap store) as Hc.
  unfold get_net_stat in Hc. rewrite Hns, Hnew, Hlinks in Hc. cbn [default] in Hc.
  cbn [account_all fold_left] in Hc.
  unfold counters_of in Hc. injection Hc as H1 H2 H3 H4 H5 H6.
  cbn [account last_read_recv last_read_trans recv trans recv_speed trans_speed]
    in H1, H2, H3, H4, H5, H6.
  assert (Z0 : forall x : Z, counter32 x -> s64_add 0 (raw_delta 0 (s64 x)) = x).
  { intros x Hx. unfold counter32 in Hx.
    rewrite (s64_small x) by (unfold in_s64, two63; lia).
    rewrite raw_delta_small by lia. unfold spec_raw_delta.
    destruct (Z.geb_spec x 0); [|lia].
    unfold s64_add. replace (0 + (x - 0)) with x by lia.
    apply s64_small. unfold in_s64, two63. lia. }
  assert (S0 : forall x : Z, counter32 x -> s64_sub x 0 = x).
  { intros x Hx. unfold counter32 in Hx. unfold s64_sub. rewrite Z.sub_0_r.
    apply s64_small. unfold in_s64, two63. lia. }
  split; [exact H1|]. split; [exact H2|]. split; [exact H3|]. split; [exact H4|].
  split; [rewrite H5, H3; reflexivity|]. split; [rewrite H6, H4; reflexivity|].
  split.
  - intros Hl Hr Hc. rewrite H5, H3, Hl, Hr, Z0, S0 by exact Hc. split; reflexivity.
  - intros Hl Ht Hc. rewrite H6, H4, Hl, Ht, Z0, S0 by exact Hc. split; reflexivity.
Qed.

(** C8, amended: for either direction, over a sequence of calls in
    which the readings accounted to an interface are 32-bit values,
    starting from a state whose last reading is one too (or the 0 or -1
    of a state never read) and as long as the [long long] total does not
    overflow (the readings add up to less than 2^63), the total never
    decreases: after any prefix [earlier] of the calls it is at most what
    it is after the whole sequence. *)
Theorem C8_totals_non_decreasing (dir : direction) (name : string)
    (earlier later : list net_env) (store : gmap string net_stat)
    (Hlast : -1 <= last_read dir (get_net_stat fresh name store) < 2 ^ 32)
    (Htotal : in_s64 (total dir (get_net_stat fresh name store)))
    (Hreadings : Forall counter32 (link_readings dir name (earlier ++ later)))
    (Hroom : exact_total (total dir (get_net_stat fresh name store))
               (last_read dir (get_net_stat fresh name store))
               (link_readings dir name (earlier ++ later)) < two63) :
  total dir (get_net_stat fresh name (run fresh earlier store)) <=
  total dir (get_net_stat fresh name (run fresh (earlier ++ later) store)).
Proof.
  set (ns := get_net_stat fresh name store) in *.
  rewrite link_readings_app in Hreadings, Hroom.
  apply Forall_app in Hreadings. destruct Hreadings as [R1 R2].
  set (r1 := link_readings dir name earlier) in *.
  set (r2 := link_readings dir name later) in *.
  rewrite exact_total_app in Hroom.
  pose proof (exact_last r1 (total dir ns) (last_read dir ns) Hlast R1) as L1.
  pose proof (exact_mono r2 (exact_total (total dir ns) (last_read dir ns) r1)
                (snd (fold_left exact_track r1 (total dir ns, last_read dir ns))) L1 R2) as M2.
  pose proof (exact_mono r1 (total dir ns) (last_read dir ns) Hlast R1) as M1.
  assert (E1 : tracked dir (get_net_stat fresh name (run fresh earlier store)) =
               fold_left exact_track r1 (total dir ns, last_read dir ns)).
  { rewrite run_tracks. fold r1. fold ns. unfold tracked.
    apply track_exact; try assumption. lia. }
  assert (E2 : tracked dir (get_net_stat fresh name (run fresh (earlier ++ later) store)) =
               fold_left exact_track r2
                 (fold_left exact_track r1 (total dir ns, last_read dir ns))).
  { rewrite run_app, run_tracks. fold r2. rewrite E1.
    destruct (fold_left exact_track r1 (total dir ns, last_read dir ns)) as [T1 L1'] eqn:F.
    unfold exact_total in *. rewrite F in *. cbn [fst snd] in *.
    apply track_exact; try assumption. unfold in_s64, two63 in *. lia. }
  assert (T1 : total dir (get_net_stat fresh name (run fresh earlier store)) =
               exact_total (total dir ns) (last_read dir ns) r1).
  { unfold exact_total. rewrite <- E1. reflexivity. }
  assert (T2 : total dir (get_net_stat fresh name (run fresh (earlier ++ later) store)) =
               exact_total (exact_total (total dir ns) (last_read dir ns) r1)
                 (snd (fold_left exact_track r1 (total dir ns, last_read dir ns))) r2).
  { unfold exact_total at 1.
    destruct (fold_left exact_track r1 (total dir ns, last_read dir ns)) as [T1' L1'] eqn:F.
    unfold exact_total at 1. rewrite F. cbn [fst snd]. rewrite <- E2. reflexivity. }
  rewrite T1, T2. exact M2.
Qed.

End Counters.

(** *** The claims on concrete calls *)

(** The reading of the spec (P2): the stored reading is 4294967290 and
    the call reads 5, so 10 is added to the received total, while the
    transmitted side goes from 100 to 300 and adds 200. *)
Lemma C1_witness :
  recv (get_net_stat zero_net_stat "em0"
          (snd (update_net_stats zero_net_stat
                  (call_at fzero f64_one [link_entry "em0" 5 300])
                  {["em0" := wrapped_stat]}))) = 10 /\
  trans (get_net_stat zero_net_stat "em0"
           (snd (update_net_stats zero_net_stat
                   (call_at fzero f64_one [link_entry "em0" 5 300])
                   {["em0" := wrapped_stat]}))) = 200.
Proof.
  split.
  - destruct (C1_wrap_rule zero_net_stat Received "em0"
                (call_at fzero f64_one [link_entry "em0" 5 300])
                {["em0" := wrapped_stat]} [link_entry "em0" 5 300]) as [_ H].
    + vm_compute. reflexivity.
    + reflexivity.
    + vm_compute. split; [discriminate|reflexivity].
    + repeat constructor; vm_compute; congruence.
    + destruct (H (link_entry "em0" 5 300) eq_refl) as [Ht _].
      refine (eq_trans Ht _). vm_compute. reflexivity.
  - destruct (C1_wrap_rule zero_net_stat Transmitted "em0"
                (call_at fzero f64_one [link_entry "em0" 5 300])
                {["em0" := wrapped_stat]} [link_entry "em0" 5 300]) as [_ H].
    + vm_compute. reflexivity.
    + reflexivity.
    + vm_compute. split; [discriminate|reflexivity].
    + repeat constructor; vm_compute; congruence.
    + destruct (H (link_entry "em0" 5 300) eq_refl) as [Ht _].
      refine (eq_trans Ht _). vm_compute. reflexivity.
Defined.

(** With a zeroed fresh state, a first reading of 1000 received and 500
    transmitted bytes is stored as totals of 1000 and 500, and the
    received speed over one second is 1000 bytes per second. *)
Lemma C7_witness :
  exists ns' : net_stat,
    snd (update_net_stats zero_net_stat (call_at fzero f64_one [link_entry "em0" 1000 500])
           (∅ : gmap string net_stat)) !! "em0" = Some ns' /\
    recv ns' = 1000 /\ trans ns' = 500 /\ recv_speed ns' = f64_of_Z 1000.
Proof.
  destruct (C7_first_sample_differenced_from_fresh zero_net_stat
              (call_at fzero f64_one [link_entry "em0" 1000 500]) ∅ "em0"
              [link_entry "em0" 1000 500] (link_entry "em0" 1000 500))
    as (ns' & H0 & _ & _ & _ & _ & _ & _ & Hr & Ht).
  - apply lookup_empty.
  - vm_compute. reflexivity.
  - reflexivity.
  - reflexivity.
  - exists ns'. split; [exact H0|].
    destruct Hr as [Hr1 Hr2]; [reflexivity|reflexivity|unfold counter32; cbn; lia|].
    destruct Ht as [Ht1 _]; [reflexivity|reflexivity|unfold counter32; cbn; lia|].
    split; [exact Hr1|]. split; [exact Ht1|].
    refine (eq_trans Hr2 _). vm_compute. reflexivity.
Defined.

(** An AF_INET entry for em0, which is stored as down: the flag becomes
    1 and the counters are those the state held. *)
Lemma C10_witness :
  up (get_net_stat zero_net_stat "em0"
        (snd (update_net_stats zero_net_stat (call_at fzero f64_one [inet_entry "em0"])
                {["em0" := down_stat]}))) = 1 /\
  counters_of (get_net_stat zero_net_stat "em0"
                 (snd (update_net_stats zero_net_stat (call_at fzero f64_one [inet_entry "em0"])
                         {["em0" := down_stat]}))) = counters_of down_stat.
Proof.
  destruct (C10_non_link_entry_only_marks_up zero_net_stat
              (call_at fzero f64_one [inet_entry "em0"]) {["em0" := down_stat]}
              [] [] (inet_entry "em0")) as (Hu & _ & Hc).
  - vm_compute. reflexivity.
  - reflexivity.
  - vm_compute. discriminate.
  - vm_compute. discriminate.
  - split; [apply Hu; constructor|].
    refine (eq_trans (Hc eq_refl) _). reflexivity.
Defined.

(** Two calls, the counter wrapping between them: the received total is
    4294967290 after the first and 4294967300 after the second. *)
Lemma C8_witness :
  total Received (get_net_stat zero_net_stat "em0"
                    (run zero_net_stat [call_1] (∅ : gmap string net_stat))) <=
  total Received (get_net_stat zero_net_stat "em0"
                    (run zero_net_stat ([call_1] ++ [call_2]) (∅ : gmap string net_stat))).
Proof.
  apply (C8_totals_non_decreasing zero_net_stat Received "em0" [call_1] [call_2] ∅).
  - vm_compute. split; discriminate || reflexivity.
  - vm_compute. split; discriminate || reflexivity.
  - assert (E : link_readings Received "em0" ([call_1] ++ [call_2]) = [4294967290; 5])
      by (vm_compute; reflexivity).
    rewrite E. repeat constructor; vm_compute; congruence.
  - vm_compute. reflexivity.
Defined.

(** C8, as stated, fails, with 32-bit readings only: a received total
    at the largest [long long] becomes -2^63 when one more byte is read
    (the addition overflows; the model wraps as two's-complement hardware
    does).  A state whose last reading, 2^33, is not a 32-bit value
    loses bytes with no overflow at all: reading 5 takes its total from
    8589934592 to 4294967300. *)
Lemma C8_counterexample :
  ~ (exists fresh : net_stat, totals_never_decrease fresh) /\
  recv (get_net_stat zero_net_stat "em0"
          (run zero_net_stat [call_at fzero f64_one [link_entry "em0" 1 0]]
             {["em0" := full_stat]})) = -9223372036854775808 /\
  recv (get_net_stat zero_net_stat "em0"
          (run zero_net_stat [call_at fzero f64_one [link_entry "em0" 5 0]]
             {["em0" := wide_stat]})) = 4294967300 /\
  4294967300 < recv wide_stat.
Proof.
  split; [|split; [vm_compute; reflexivity|split; [vm_compute; reflexivity|reflexivity]]].
  intros [fresh H].
  specialize (H "em0" {["em0" := full_stat]} []
                [call_at fzero f64_one [link_entry "em0" 1 0]]).
  destruct H as [Hr _].
  - repeat constructor; vm_compute; congruence.
  - vm_compute in Hr. apply Hr. reflexivity.
Qed.

(** A copy of 8 bytes keeps the bytes of the destination from the ninth
    on. *)
Example memcpy_addr_keeps_the_rest :
  memcpy_addr {| sa_len := 16; sa_family := AF_INET;
                 sa_data := [1; 2; 3; 4; 5; 6; 7; 8; 9; 10; 11; 12; 13; 14] |}
              {| sa_len := 8; sa_family := AF_INET;
                 sa_data := [0; 0; 10; 0; 0; 1] |} =
  {| sa_len := 8; sa_family := AF_INET;
     sa_data := [0; 0; 10; 0; 0; 1; 7; 8; 9; 10; 11; 12; 13; 14] |}.
Proof. reflexivity. Qed.

End NetCallFacts.

(** * Facts about [swapmode] and [update_meminfo] *)

Module MemFacts.

Lemma s32_small (z : Z) : in_s32 z -> s32 z = z.
Proof.
  unfold in_s32, s32, two31, two32. intros H. rewrite Z.mod_small by lia. lia.
Qed.

(** ** The page shift *)

Lemma pageshift_loop_log2 (fuel : nat) :
  forall pagesize acc : Z,
    1 <= pagesize < 2 ^ Z.of_nat fuel ->
    pageshift_loop fuel pagesize acc = acc + Z.log2 pagesize.
Proof.
  induction fuel as [|fuel IH]; intros pagesize acc Hp.
  - change (2 ^ Z.of_nat 0) with 1 in Hp. lia.
  - cbn [pageshift_loop]. destruct (Z.ltb_spec 1 pagesize) as [Hgt|Hle].
    + rewrite Nat2Z.inj_succ, Z.pow_succ_r in Hp by lia.
      assert (Hl : 1 <= Z.log2 pagesize) by (apply Z.log2_le_pow2; simpl; lia).
      rewrite IH.
      * rewrite Z.log2_shiftr by lia. lia.
      * rewrite Z.shiftr_div_pow2 by lia. change (2 ^ 1) with 2.
        split; [apply Z.div_le_lower_bound; lia|apply Z.div_lt_upper_bound; lia].
    + assert (pagesize = 1) as -> by lia. cbn. lia.
Qed.

(** X12: the loop that computes the page shift stops after at most 31
    halvings of an [int] page size, with the base-2 logarithm of the
    page size (rounded down); more fuel never changes the result. *)
Theorem pageshift_is_log2 (fuel : nat) (size : Z)
    (Hfuel : (31 <= fuel)%nat)
    (Hsize : 1 <= size < 2 ^ 31) :
  pageshift_loop fuel size 0 = Z.log2 size.
Proof.
  rewrite pageshift_loop_log2; [lia|].
  split; [lia|].
  assert (2 ^ 31 <= 2 ^ Z.of_nat fuel) by (apply Z.pow_le_mono_r; lia). lia.
Qed.

(** ** Memory in KiB *)

Lemma update_meminfo_mem (env : mem_env) :
  let pageshift := pageshift_loop 32 (pagesize env) 0 - LOG1024 in
  let v := match vm_meter env with
           | Some v => v
           | None => {| t_rm := 0; t_free := 0 |}
           end in
  let info := snd (update_meminfo env) in
  mem info = pagetok pageshift (t_rm v) /\
  memmax info = u32_add (pagetok pageshift (t_rm v)) (pagetok pageshift (t_free v)) /\
  memfree info = u64_sub (memmax info) (mem info) /\
  memwithbuffers info = mem info /\ legacymem info = mem info /\
  memeasyfree info = memfree info.
Proof.
  cbv zeta. unfold update_meminfo.
  destruct (swapmode _ _ _) as [[ret u] a]. cbn [snd].
  destruct (0 <=? ret); cbn; repeat split.
Qed.

(** X13: with a page size of 2^k bytes, 10 <= k <= 30, and page counts
    whose size in KiB fits 32 bits, the memory in use, the free memory
    and their sum are reported in KiB: pages times the page size over
    1024, and [memmax = mem + memfree]. *)
Theorem meminfo_in_kib (env : mem_env) (v : vmtotal) (k : Z)
    (Hpage : pagesize env = 2 ^ k)
    (Hk : 10 <= k <= 30)
    (Hmeter : vm_meter env = Some v)
    (Hrm : 0 <= t_rm v) (Hfree : 0 <= t_free v)
    (Hfits : (t_rm v + t_free v) * 2 ^ (k - 10) < two32) :
  let info := snd (update_meminfo env) in
  mem info = t_rm v * (pagesize env / 1024) /\
  memfree info = t_free v * (pagesize env / 1024) /\
  memmax info = mem info + memfree info.
Proof.
  cbv zeta.
  destruct (update_meminfo_mem env) as (Em & Ex & Ef & _).
  rewrite Hmeter in Em, Ex. rewrite Ef, Ex, Em. clear Em Ex Ef.
  assert (Hp : 0 < 2 ^ (k - 10)) by (apply Z.pow_pos_nonneg; lia).
  assert (H2k : 2 ^ k = 2 ^ (k - 10) * 1024).
  { change 1024 with (2 ^ 10). rewrite <- Z.pow_add_r by lia. f_equal. lia. }
  assert (Hsh : pageshift_loop 32 (pagesize env) 0 - LOG1024 = k - 10).
  { rewrite pageshift_loop_log2.
    - rewrite Hpage, Z.log2_pow2 by lia. reflexivity.
    - rewrite Hpage. split; [lia|]. apply Z.pow_lt_mono_r; lia. }
  rewrite Hsh, Hpage, H2k, Z.div_mul by lia.
  unfold pagetok, u32_add, u32, u64_sub, u64, two64, two32 in *.
  rewrite !Z.shiftl_mul_pow2 by lia.
  rewrite (Z.mod_small (t_rm v * 2 ^ (k - 10))) by nia.
  rewrite (Z.mod_small (t_free v * 2 ^ (k - 10))) by nia.
  rewrite (Z.mod_small (t_rm v * 2 ^ (k - 10) + t_free v * 2 ^ (k - 10))) by nia.
  rewrite Z.mod_small by nia.
  repeat split; lia.
Qed.

(** ** Swap *)

(** X14: [swapmode] returns 0 or 1, never a negative value, so the test
    [swapmode(...) >= 0] of [update_meminfo] always holds: the swap fields
    are never reset to 0, and after a failed [swapmode] (no swap device,
    for one) they are what the two uninitialised locals held. *)
Theorem swap_fields_never_reset (env : mem_env) :
  let r := swapmode (swap_devices env) (stack_swap_used env) (stack_swap_avail env) in
  let info := snd (update_meminfo env) in
  (fst (fst r) = 0 \/ fst (fst r) = 1) /\
  swapmax info = u64 (snd r) /\ swap info = u64 (snd (fst r)) /\
  swapfree info = u64 (s32_sub (snd r) (snd (fst r))) /\
  (fst (fst r) = 0 ->
   swapmax info = u64 (stack_swap_avail env) /\ swap info = u64 (stack_swap_used env)).
Proof.
  cbv zeta. unfold update_meminfo.
  assert (Hret : forall e u t,
            (fst (fst (swapmode e u t)) = 0 /\ snd (fst (swapmode e u t)) = u /\
             snd (swapmode e u t) = t) \/ fst (fst (swapmode e u t)) = 1).
  { intros e u t. unfold swapmode.
    destruct (swap_nswap e =? 0); [left; repeat split|].
    destruct (negb (malloc_ok e)); [left; repeat split|].
    destruct (swap_stats e =? -1); [left; repeat split|].
    destruct (fold_left _ _ _). right. reflexivity. }
  specialize (Hret (swap_devices env) (stack_swap_used env) (stack_swap_avail env)).
  destruct (swapmode _ _ _) as [[ret u] a]. cbn [fst snd] in *.
  destruct Hret as [(-> & -> & ->) | ->]; cbn; repeat split; auto; discriminate.
Qed.

Lemma swap_sums_step (l : list swapent) :
  forall u t : Z,
    devices_sane l ->
    0 <= u <= t -> t + swap_total_kb l < two31 ->
    fold_left add_swapent l (u, t) = (u + swap_used_kb l, t + swap_total_kb l) /\
    0 <= swap_used_kb l <= swap_total_kb l.
Proof.
  induction l as [|e l IH]; intros u t Hsane Hu Hfit.
  - cbn. split; [f_equal; lia|lia].
  - inversion Hsane as [|? ? He Hl]; subst.
    change (fold_left add_swapent (e :: l) (u, t))
      with (fold_left add_swapent l (add_swapent (u, t) e)).
    unfold swap_used_kb, swap_total_kb in *. cbn [List.filter] in *.
    assert (Estep : add_swapent (u, t) e =
              if enabled e
              then (s32_add u (Z.quot (se_inuse e) 2), s32_add t (Z.quot (se_nblks e) 2))
              else (u, t)) by reflexivity.
    rewrite Estep. clear Estep.
    destruct (enabled e) eqn:En; rewrite ?En in *.
    + specialize (He eq_refl). cbn [fold_right fst snd] in *.
      assert (Q1 : 0 <= Z.quot (se_inuse e) 2 <= Z.quot (se_nblks e) 2).
      { split; [apply Z.quot_pos; lia|apply Z.quot_le_mono; lia]. }
      destruct (IH (u + Z.quot (se_inuse e) 2) (t + Z.quot (se_nblks e) 2) Hl) as [E B];
        [lia|lia|].
      unfold s32_add. rewrite !s32_small by (unfold in_s32, two31 in *; lia).
      rewrite E. split; [f_equal; lia|lia].
    + destruct (IH u t Hl Hu Hfit) as [E B]. rewrite E. split; [reflexivity|exact B].
Qed.

(** X15: when [swapmode] succeeds on sane devices, what it reports is the
    sum over the enabled devices of the blocks in use, and of all the
    blocks, each halved to KiB; disabled devices do not count, and the
    swap in use does not exceed the total, so that the free swap
    [update_meminfo] derives is exactly the difference. *)
Theorem swap_totals_of_enabled_devices (env : mem_env)
    (Hn : 0 < swap_nswap (swap_devices env))
    (Hmalloc : malloc_ok (swap_devices env) = true)
    (Hstats : swap_stats (swap_devices env) <> -1)
    (Hlen : Z.of_nat (length (swdev (swap_devices env))) = swap_nswap (swap_devices env))
    (Hsane : devices_sane (swdev (swap_devices env)))
    (Hfits : swap_total_kb (swdev (swap_devices env)) < two31) :
  let info := snd (update_meminfo env) in
  swap info = swap_used_kb (swdev (swap_devices env)) /\
  swapmax info = swap_total_kb (swdev (swap_devices env)) /\
  swapfree info = swapmax info - swap info /\
  0 <= swap info <= swapmax info.
Proof.
  cbv zeta. unfold update_meminfo, swapmode.
  destruct (Z.eqb_spec (swap_nswap (swap_devices env)) 0) as [E|_]; [lia|].
  rewrite Hmalloc. cbn [negb].
  destruct (Z.eqb_spec (swap_stats (swap_devices env)) (-1)) as [E|_]; [contradiction|].
  rewrite firstn_all2 by lia.
  destruct (swap_sums_step (swdev (swap_devices env)) 0 0 Hsane ltac:(lia) ltac:(lia))
    as [E B].
  rewrite E. cbn [Z.leb Z.compare snd swap swapmax swapfree]. 
  rewrite !Z.add_0_l.
  unfold u64, two64, s32_sub. rewrite s32_small by (unfold in_s32, two31 in *; lia).
  unfold two31 in *.
  rewrite !Z.mod_small by lia. repeat split; lia.
Qed.

(** *** The functions on a concrete machine *)

Lemma pageshift_is_log2_witness : pageshift_loop 32 4096 0 = Z.log2 4096.
Proof. apply (pageshift_is_log2 32 4096); lia. Defined.

Lemma meminfo_in_kib_witness :
  mem (snd (update_meminfo (mem_env_of no_swap))) = 4000 /\
  memfree (snd (update_meminfo (mem_env_of no_swap))) = 2000 /\
  memmax (snd (update_meminfo (mem_env_of no_swap))) = 6000.
Proof.
  pose proof (meminfo_in_kib (mem_env_of no_swap) {| t_rm := 1000; t_free := 500 |} 12)
    as H.
  cbv zeta in H.
  destruct H as (Hm & Hf & Hx).
  - reflexivity.
  - lia.
  - reflexivity.
  - cbn. lia.
  - cbn. lia.
  - reflexivity.
  - rewrite Hx, Hm, Hf. repeat split.
Defined.

Lemma swap_totals_of_enabled_devices_witness :
  swap (snd (update_meminfo (mem_env_of two_swap_devices))) = 256 /\
  swapmax (snd (update_meminfo (mem_env_of two_swap_devices))) = 1024.
Proof.
  pose proof (swap_totals_of_enabled_devices (mem_env_of two_swap_devices)) as H.
  cbv zeta in H.
  destruct H as (Hs & Hm & _).
  - cbn. lia.
  - reflexivity.
  - cbn. lia.
  - reflexivity.
  - repeat constructor; cbn; intros; lia || discriminate.
  - reflexivity.
  - rewrite Hs, Hm. split; reflexivity.
Defined.

End MemFacts.

(** * Facts about [parse_obsd_sensor], [update_obsd_sensors] and [print_obsd_sensors_*] *)

Module SensorFacts.

(** X16: whatever the argument and whatever [atoi] returns, the sensor
    number stored is a valid index of a row of the sensor tables. *)
Theorem parse_obsd_sensor_in_bounds (atoi : string -> Z) (arg : string) :
  0 <= fst (parse_obsd_sensor atoi arg) < OBSD_MAX_SENSORS /\
  (snd (parse_obsd_sensor atoi arg) = true -> fst (parse_obsd_sensor atoi arg) = 0).
Proof.
  unfold parse_obsd_sensor, OBSD_MAX_SENSORS.
  destruct (negb (isdigit (first_char arg))); cbn [orb fst snd]; [lia|].
  destruct (Z.ltb_spec (atoi arg) 0); cbn [orb fst snd]; [lia|].
  destruct (Z.ltb_spec (256 - 1) (atoi arg)); cbn [fst snd]; [lia|].
  split; [lia|discriminate].
Qed.

(** Checked for each of the 256 numbers. *)
Lemma round_trip_checked : forallb check_round_trip (map N.of_nat (seq 0 256)) = true.
Proof. vm_compute. reflexivity. Qed.

(** X17: a sensor number from 0 to 255 written in decimal is stored as
    that number, and no error is logged. *)
Theorem parse_obsd_sensor_round_trip (atoi : string -> Z) (n : N)
    (Hatoi : reads_decimal atoi)
    (Hn : (n <= 255)%N) :
  parse_obsd_sensor atoi (pretty n) = (Z.of_N n, false).
Proof.
  pose proof round_trip_checked as H.
  rewrite forallb_forall in H.
  specialize (H n). unfold check_round_trip in H.
  assert (Hin : In n (map N.of_nat (seq 0 256))).
  { apply in_map_iff. exists (N.to_nat n). split; [lia|]. apply in_seq. lia. }
  apply H in Hin. apply andb_true_iff in Hin. destruct Hin as [Hd Hv].
  apply Z.eqb_eq in Hv.
  unfold parse_obsd_sensor. rewrite Hd. cbn [negb orb].
  rewrite Hatoi by (try exact Hd; rewrite Hv; lia).
  rewrite Hv. unfold OBSD_MAX_SENSORS.
  destruct (Z.ltb_spec (Z.of_N n) 0); [lia|].
  destruct (Z.ltb_spec (256 - 1) (Z.of_N n)); [lia|]. reflexivity.
Qed.

(** ** The tables as arrays *)

Lemma table_set_Some {A : Type} (t t' : table A) (d k : Z) (x : A) :
  table_set t d k x = Some t' ->
  0 <= d /\ 0 <= k /\
  exists row : list A,
    t !! Z.to_nat d = Some row /\ (Z.to_nat k < length row)%nat /\
    t' = <[Z.to_nat d := <[Z.to_nat k := x]> row]> t.
Proof.
  unfold table_set.
  destruct (Z.leb_spec 0 d); cbn [andb]; [|discriminate].
  destruct (Z.leb_spec 0 k); cbn [andb]; [|discriminate].
  destruct (t !! Z.to_nat d) as [row|] eqn:E; [|discriminate].
  destruct (decide (Z.to_nat k < length row)%nat); [|discriminate].
  intros [= <-]. repeat split; try assumption. exists row. auto.
Qed.

(** A write changes the cell written and no other. *)
Lemma table_get_set {A : Type} (t t' : table A) (d k d' k' : Z) (x : A) :
  table_set t d k x = Some t' ->
  table_get t' d' k' = if (d' =? d) && (k' =? k) then Some x else table_get t d' k'.
Proof.
  intros H. apply table_set_Some in H.
  destruct H as (Hd & Hk & row & Hrow & Hlen & ->).
  assert (Hdl : (Z.to_nat d < length t)%nat) by (apply lookup_lt_Some in Hrow; exact Hrow).
  unfold table_get, table in *.
  destruct (Z.leb_spec 0 d'); cbn [andb].
  - destruct (Z.leb_spec 0 k'); cbn [andb].
    + destruct (Z.eqb_spec d' d) as [->|Hne]; cbn [andb].
      * rewrite list_lookup_insert_eq by exact Hdl. rewrite Hrow.
        destruct (Z.eqb_spec k' k) as [->|Hnk].
        -- apply list_lookup_insert_eq. exact Hlen.
        -- apply list_lookup_insert_ne. lia.
      * rewrite list_lookup_insert_ne by lia. reflexivity.
    + destruct (Z.eqb_spec k' k); [lia|]. rewrite andb_false_r. reflexivity.
  - destruct (Z.eqb_spec d' d); [lia|]. reflexivity.
Qed.

Lemma table_set_length {A : Type} (t t' : table A) (d k : Z) (x : A) :
  table_set t d k x = Some t' -> length t' = length t.
Proof.
  intros H. apply table_set_Some in H. destruct H as (_ & _ & row & _ & _ & ->).
  unfold table in *. apply length_insert.
Qed.

Lemma table_set_ok {A : Type} (t t' : table A) (d k : Z) (x : A) :
  table_ok t -> table_set t d k x = Some t' -> table_ok t'.
Proof.
  intros [Hl Hr] H. apply table_set_Some in H.
  destruct H as (_ & _ & row & Hrow & _ & ->). unfold table in *. split.
  - rewrite length_insert. exact Hl.
  - apply Forall_insert; [exact Hr|]. rewrite length_insert.
    exact (Forall_lookup_1 _ _ _ _ Hr Hrow).
Qed.

(** Inside the array a write is defined, and so is a read. *)
Lemma table_set_defined {A : Type} (t : table A) (d k : Z) (x : A) :
  table_ok t -> 0 <= d < MAXSENSORDEVICES -> 0 <= k < OBSD_MAX_SENSORS ->
  is_Some (table_set t d k x).
Proof.
  intros [Hl Hr] Hd Hk. unfold table_set, table in *.
  destruct (Z.leb_spec 0 d); [|lia]. destruct (Z.leb_spec 0 k); [|lia]. cbn [andb].
  destruct (lookup_lt_is_Some_2 t (Z.to_nat d)) as [row Hrow]; [lia|].
  rewrite Hrow. pose proof (Forall_lookup_1 _ _ _ _ Hr Hrow) as Hlen. cbn beta in Hlen.
  destruct (decide (Z.to_nat k < length row)%nat); [eauto|lia].
Qed.

Lemma table_get_defined {A : Type} (t : table A) (d k : Z) :
  table_ok t -> 0 <= d < MAXSENSORDEVICES -> 0 <= k < OBSD_MAX_SENSORS ->
  is_Some (table_get t d k).
Proof.
  intros [Hl Hr] Hd Hk. unfold table_get, table in *.
  destruct (Z.leb_spec 0 d); [|lia]. destruct (Z.leb_spec 0 k); [|lia]. cbn [andb].
  destruct (lookup_lt_is_Some_2 t (Z.to_nat d)) as [row Hrow]; [lia|].
  rewrite Hrow. pose proof (Forall_lookup_1 _ _ _ _ Hr Hrow) as Hlen. cbn beta in Hlen.
  apply lookup_lt_is_Some_2. lia.
Qed.

(** Outside the rows there is nothing to read. *)
Lemma table_get_outside {A : Type} (t : table A) (d k : Z) :
  length t = Z.to_nat MAXSENSORDEVICES -> ~ 0 <= d < MAXSENSORDEVICES ->
  table_get t d k = None.
Proof.
  intros Hl Hd. unfold table_get, table in *.
  destruct (Z.leb_spec 0 d); cbn [andb]; [|reflexivity].
  destruct (0 <=? k); [|reflexivity].
  rewrite lookup_ge_None_2 by lia. reflexivity.
Qed.

Lemma empty_table_ok {A : Type} (x : A) : table_ok (empty_table x).
Proof.
  unfold table_ok, empty_table, table. rewrite length_replicate. split; [reflexivity|].
  apply Forall_replicate. apply length_replicate.
Qed.

Lemma empty_tables_ok : tables_ok (obsd_sensors empty_tables).
Proof. repeat split; apply empty_table_ok. Qed.

(** ** One sensor *)

(** What a recorded sensor changes, in terms of cells. *)
Lemma record_sensor_value (dev t type d k : Z) (s : sensor) (o o' : obsd_sensors_struct) :
  record_sensor dev t s o = Some o' ->
  table_value type o' d k =
  if (t =? type) && (d =? dev) && (k =? s_numt s) then Some (converted type s)
  else table_value type o d k.
Proof.
  unfold record_sensor, table_value, converted, SENSOR_TEMP, SENSOR_FANRPM, SENSOR_VOLTS_DC.
  intros H.
  destruct (Z.eqb_spec t 0) as [->|T0].
  { destruct (table_set (temp o) dev (s_numt s) (celsius_of (s_value s))) as [tb|] eqn:E;
      [|discriminate].
    injection H as <-. cbn [temp fan volt].
    destruct (Z.eqb_spec 0 type) as [<-|Hne]; cbn [andb Z.eqb].
    - rewrite (table_get_set _ _ _ _ d k _ E).
      destruct ((d =? dev) && (k =? s_numt s)); reflexivity.
    - destruct (Z.eqb_spec type 0); [lia|]. reflexivity. }
  destruct (Z.eqb_spec t 1) as [->|T1].
  { destruct (table_set (fan o) dev (s_numt s) (u32 (s_value s))) as [tb|] eqn:E;
      [|discriminate].
    injection H as <-. cbn [temp fan volt].
    destruct (Z.eqb_spec 1 type) as [<-|Hne]; cbn [andb Z.eqb].
    - rewrite (table_get_set _ _ _ _ d k _ E).
      destruct ((d =? dev) && (k =? s_numt s)); reflexivity.
    - destruct (Z.eqb_spec type 0); [reflexivity|].
      destruct (Z.eqb_spec type 1); [lia|]. reflexivity. }
  destruct (Z.eqb_spec t 2) as [->|T2].
  { destruct (table_set (volt o) dev (s_numt s) (volts_of (s_value s))) as [tb|] eqn:E;
      [|discriminate].
    injection H as <-. cbn [temp fan volt].
    destruct (Z.eqb_spec 2 type) as [<-|Hne]; cbn [andb Z.eqb].
    - rewrite (table_get_set _ _ _ _ d k _ E).
      destruct ((d =? dev) && (k =? s_numt s)); reflexivity.
    - destruct (Z.eqb_spec type 0); [reflexivity|].
      destruct (Z.eqb_spec type 1); [reflexivity|].
      destruct (Z.eqb_spec type 2); [lia|]. reflexivity. }
  injection H as <-.
  destruct (Z.eqb_spec t type) as [<-|Hne]; cbn [andb]; [|reflexivity].
  destruct (Z.eqb_spec t 0); [contradiction|].
  destruct (Z.eqb_spec t 1); [contradiction|].
  destruct (Z.eqb_spec t 2); [contradiction|].
  destruct ((d =? dev) && (k =? s_numt s)); reflexivity.
Qed.

Lemma same_shape_refl (o : obsd_sensors_struct) : same_shape o o.
Proof. unfold same_shape. auto. Qed.

Lemma same_shape_trans (a b c : obsd_sensors_struct) :
  same_shape a b -> same_shape b c -> same_shape a c.
Proof.
  unfold same_shape. intros (A1 & A2 & A3 & A4 & A5) (B1 & B2 & B3 & B4 & B5).
  split; [congruence|]. split; [congruence|]. split; [congruence|]. split; [congruence|].
  intros H. apply B5, A5, H.
Qed.

Lemma record_sensor_shape (dev t : Z) (s : sensor) (o o' : obsd_sensors_struct) :
  record_sensor dev t s o = Some o' -> same_shape o o'.
Proof.
  unfold record_sensor. intros H.
  destruct (t =? SENSOR_TEMP).
  { destruct (table_set (temp o) dev (s_numt s) _) as [tb|] eqn:E; [|discriminate].
    injection H as <-. unfold same_shape, tables_ok. cbn [device temp fan volt].
    rewrite (table_set_length _ _ _ _ _ E).
    split; [reflexivity|]. split; [reflexivity|]. split; [reflexivity|].
    split; [reflexivity|]. intros (Ot & Of & Ov).
    split; [|split]; try assumption; (eapply table_set_ok; [|exact E]; assumption). }
  destruct (t =? SENSOR_FANRPM).
  { destruct (table_set (fan o) dev (s_numt s) _) as [tb|] eqn:E; [|discriminate].
    injection H as <-. unfold same_shape, tables_ok. cbn [device temp fan volt].
    rewrite (table_set_length _ _ _ _ _ E).
    split; [reflexivity|]. split; [reflexivity|]. split; [reflexivity|].
    split; [reflexivity|]. intros (Ot & Of & Ov).
    split; [|split]; try assumption; (eapply table_set_ok; [|exact E]; assumption). }
  destruct (t =? SENSOR_VOLTS_DC).
  { destruct (table_set (volt o) dev (s_numt s) _) as [tb|] eqn:E; [|discriminate].
    injection H as <-. unfold same_shape, tables_ok. cbn [device temp fan volt].
    rewrite (table_set_length _ _ _ _ _ E).
    split; [reflexivity|]. split; [reflexivity|]. split; [reflexivity|].
    split; [reflexivity|]. intros (Ot & Of & Ov).
    split; [|split]; try assumption; (eapply table_set_ok; [|exact E]; assumption). }
  injection H as <-. apply same_shape_refl.
Qed.

Lemma record_sensor_defined (dev t : Z) (s : sensor) (o : obsd_sensors_struct) :
  tables_ok o -> 0 <= dev < MAXSENSORDEVICES -> 0 <= s_numt s < OBSD_MAX_SENSORS ->
  is_Some (record_sensor dev t s o).
Proof.
  intros (Ht & Hf & Hv) Hd Hk. unfold record_sensor.
  destruct (t =? SENSOR_TEMP).
  { destruct (table_set_defined (temp o) dev (s_numt s) (celsius_of (s_value s)) Ht Hd Hk)
      as [tb ->]. eauto. }
  destruct (t =? SENSOR_FANRPM).
  { destruct (table_set_defined (fan o) dev (s_numt s) (u32 (s_value s)) Hf Hd Hk)
      as [tb ->]. eauto. }
  destruct (t =? SENSOR_VOLTS_DC).
  { destruct (table_set_defined (volt o) dev (s_numt s) (volts_of (s_value s)) Hv Hd Hk)
      as [tb ->]. eauto. }
  eauto.
Qed.

Lemma sensor_step_shape (env : sensor_env) (dev t n : Z) (o o' : obsd_sensors_struct) :
  sensor_step env dev t n o = Some o' -> same_shape o o'.
Proof.
  unfold sensor_step. intros H.
  destruct (read_sensor env dev t n) as [s|]; [|injection H as <-; apply same_shape_refl].
  destruct (negb (Z.land (s_flags s) SENSOR_FINVALID =? 0));
    [injection H as <-; apply same_shape_refl|].
  exact (record_sensor_shape dev t s o o' H).
Qed.

Lemma sensor_step_defined (env : sensor_env) (dev t n : Z) (o : obsd_sensors_struct) :
  tables_ok o -> 0 <= dev < MAXSENSORDEVICES -> sensors_in_row env dev ->
  is_Some (sensor_step env dev t n o).
Proof.
  intros Hok Hd Hrow. unfold sensor_step.
  destruct (read_sensor env dev t n) as [s|] eqn:E; [|eauto].
  destruct (negb (Z.land (s_flags s) SENSOR_FINVALID =? 0)); [eauto|].
  apply record_sensor_defined; [exact Hok|exact Hd|exact (Hrow t n s E)].
Qed.

(** A step writes nothing in the rows of the other devices. *)
Lemma sensor_step_other (env : sensor_env) (dev t n type d k : Z)
    (o o' : obsd_sensors_struct) :
  sensor_step env dev t n o = Some o' -> d <> dev ->
  table_value type o' d k = table_value type o d k.
Proof.
  unfold sensor_step. intros H Hd.
  destruct (read_sensor env dev t n) as [s|]; [|injection H as <-; reflexivity].
  destruct (negb (Z.land (s_flags s) SENSOR_FINVALID =? 0));
    [injection H as <-; reflexivity|].
  rewrite (record_sensor_value dev t type d k s o o' H).
  destruct (Z.eqb_spec d dev); [contradiction|]. rewrite andb_false_r. reflexivity.
Qed.

(** In the row of the device, a step refreshes the cell of the sensor
    it asks for and no other. *)
Lemma sensor_step_value (env : sensor_env) (dev t n type k : Z)
    (o o' : obsd_sensors_struct) :
  answers_as_asked env dev ->
  sensor_step env dev t n o = Some o' ->
  table_value type o' dev k =
  if (t =? type) && (n =? k) then refreshed env dev type k (table_value type o dev k)
  else table_value type o dev k.
Proof.
  intros Hask H. unfold sensor_step in H. unfold refreshed.
  destruct (read_sensor env dev t n) as [s|] eqn:E.
  - pose proof (Hask t n s E) as Hn.
    destruct (negb (Z.land (s_flags s) SENSOR_FINVALID =? 0)) eqn:Ev.
    + injection H as <-.
      destruct (Z.eqb_spec t type) as [->|_]; cbn [andb]; [|reflexivity].
      destruct (Z.eqb_spec n k) as [->|_]; [|reflexivity].
      rewrite E, Ev. reflexivity.
    + rewrite (record_sensor_value dev t type dev k s o o' H), Hn, Z.eqb_refl.
      rewrite andb_true_r.
      destruct (Z.eqb_spec t type) as [->|_]; cbn [andb]; [|reflexivity].
      rewrite (Z.eqb_sym k n).
      destruct (Z.eqb_spec n k) as [->|_]; [|reflexivity].
      rewrite E, Ev. reflexivity.
  - injection H as <-.
    destruct (Z.eqb_spec t type) as [->|_]; cbn [andb]; [|reflexivity].
    destruct (Z.eqb_spec n k) as [->|_]; [|reflexivity].
    rewrite E. reflexivity.
Qed.

(** ** The loops *)

Lemma numt_loop_shape (env : sensor_env) (dev t : Z) (todo : nat) :
  forall (n : Z) (o o' : obsd_sensors_struct),
    numt_loop env dev t todo n o = Some o' -> same_shape o o'.
Proof.
  induction todo as [|todo IH]; intros n o o' H; cbn [numt_loop] in H.
  - injection H as <-. apply same_shape_refl.
  - destruct (sensor_step env dev t n o) as [o1|] eqn:E; [|discriminate].
    exact (same_shape_trans _ _ _ (sensor_step_shape _ _ _ _ _ _ E) (IH _ _ _ H)).
Qed.

Lemma numt_loop_defined (env : sensor_env) (dev t : Z) (todo : nat) :
  0 <= dev < MAXSENSORDEVICES -> sensors_in_row env dev ->
  forall (n : Z) (o : obsd_sensors_struct),
    tables_ok o -> is_Some (numt_loop env dev t todo n o).
Proof.
  intros Hd Hrow. induction todo as [|todo IH]; intros n o Hok; cbn [numt_loop]; [eauto|].
  destruct (sensor_step_defined env dev t n o Hok Hd Hrow) as [o1 E]. rewrite E.
  apply IH. apply (sensor_step_shape _ _ _ _ _ _ E). exact Hok.
Qed.

Lemma numt_loop_other (env : sensor_env) (dev t type d k : Z) (todo : nat) :
  d <> dev ->
  forall (n : Z) (o o' : obsd_sensors_struct),
    numt_loop env dev t todo n o = Some o' ->
    table_value type o' d k = table_value type o d k.
Proof.
  intros Hd. induction todo as [|todo IH]; intros n o o' H; cbn [numt_loop] in H.
  - injection H as <-. reflexivity.
  - destruct (sensor_step env dev t n o) as [o1|] eqn:E; [|discriminate].
    rewrite (IH _ _ _ H). exact (sensor_step_other _ _ _ _ _ _ _ _ _ E Hd).
Qed.

Lemma numt_loop_value (env : sensor_env) (dev t type k : Z) (todo : nat) :
  answers_as_asked env dev ->
  forall (n : Z) (o o' : obsd_sensors_struct),
    numt_loop env dev t todo n o = Some o' ->
    table_value type o' dev k =
    if (t =? type) && (n <=? k) && (k <? n + Z.of_nat todo)
    then refreshed env dev type k (table_value type o dev k)
    else table_value type o dev k.
Proof.
  intros Hask. induction todo as [|todo IH]; intros n o o' H; cbn [numt_loop] in H.
  - injection H as <-.
    destruct (t =? type), (Z.leb_spec n k), (Z.ltb_spec k (n + Z.of_nat 0));
      cbn [andb]; try reflexivity; lia.
  - destruct (sensor_step env dev t n o) as [o1|] eqn:E; [|discriminate].
    rewrite (IH _ _ _ H), (sensor_step_value _ _ _ _ type k _ _ Hask E).
    destruct (Z.eqb_spec t type) as [->|Ht]; cbn [andb]; [|reflexivity].
    destruct (Z.eqb_spec n k) as [->|Hk].
    + destruct (Z.leb_spec (k + 1) k); [lia|]. cbn [andb].
      destruct (Z.leb_spec k k); [|lia].
      destruct (Z.ltb_spec k (k + Z.of_nat (S todo))); [|lia]. reflexivity.
    + destruct (Z.leb_spec (n + 1) k), (Z.leb_spec n k),
        (Z.ltb_spec k (n + 1 + Z.of_nat todo)), (Z.ltb_spec k (n + Z.of_nat (S todo)));
        cbn [andb]; try reflexivity; lia.
Qed.

Lemma type_loop_shape (env : sensor_env) (dev : Z) (sd : sensordev) (todo : nat) :
  forall (t : Z) (o o' : obsd_sensors_struct),
    type_loop env dev sd todo t o = Some o' -> same_shape o o'.
Proof.
  induction todo as [|todo IH]; intros t o o' H; cbn [type_loop] in H.
  - injection H as <-. apply same_shape_refl.
  - destruct (numt_loop env dev t _ 0 o) as [o1|] eqn:E; [|discriminate].
    exact (same_shape_trans _ _ _ (numt_loop_shape _ _ _ _ _ _ _ E) (IH _ _ _ H)).
Qed.

Lemma type_loop_defined (env : sensor_env) (dev : Z) (sd : sensordev) (todo : nat) :
  0 <= dev < MAXSENSORDEVICES -> sensors_in_row env dev ->
  forall (t : Z) (o : obsd_sensors_struct),
    tables_ok o -> is_Some (type_loop env dev sd todo t o).
Proof.
  intros Hd Hrow. induction todo as [|todo IH]; intros t o Hok; cbn [type_loop]; [eauto|].
  destruct (numt_loop_defined env dev t (Z.to_nat (maxnumt sd t)) Hd Hrow 0 o Hok) as [o1 E].
  rewrite E. apply IH. apply (numt_loop_shape _ _ _ _ _ _ _ E). exact Hok.
Qed.

Lemma type_loop_other (env : sensor_env) (dev type d k : Z) (sd : sensordev) (todo : nat) :
  d <> dev ->
  forall (t : Z) (o o' : obsd_sensors_struct),
    type_loop env dev sd todo t o = Some o' ->
    table_value type o' d k = table_value type o d k.
Proof.
  intros Hd. induction todo as [|todo IH]; intros t o o' H; cbn [type_loop] in H.
  - injection H as <-. reflexivity.
  - destruct (numt_loop env dev t _ 0 o) as [o1|] eqn:E; [|discriminate].
    rewrite (IH _ _ _ H). exact (numt_loop_other _ _ _ _ _ _ _ Hd _ _ _ E).
Qed.

Lemma type_loop_value (env : sensor_env) (dev type k : Z) (sd : sensordev) (todo : nat) :
  answers_as_asked env dev ->
  forall (t : Z) (o o' : obsd_sensors_struct),
    type_loop env dev sd todo t o = Some o' ->
    table_value type o' dev k =
    if (t <=? type) && (type <? t + Z.of_nat todo) && (0 <=? k) && (k <? maxnumt sd type)
    then refreshed env dev type k (table_value type o dev k)
    else table_value type o dev k.
Proof.
  intros Hask. induction todo as [|todo IH]; intros t o o' H; cbn [type_loop] in H.
  - injection H as <-.
    destruct (Z.leb_spec t type), (Z.ltb_spec type (t + Z.of_nat 0));
      cbn [andb]; try reflexivity; lia.
  - destruct (numt_loop env dev t _ 0 o) as [o1|] eqn:E; [|discriminate].
    rewrite (IH _ _ _ H), (numt_loop_value _ _ _ type k _ Hask _ _ _ E).
    destruct (Z.eqb_spec t type) as [->|Ht]; cbn [andb].
    + destruct (Z.leb_spec (type + 1) type); [lia|]. cbn [andb].
      destruct (Z.leb_spec type type); [|lia].
      destruct (Z.ltb_spec type (type + Z.of_nat (S todo))); [|lia]. cbn [andb].
      destruct (Z.leb_spec 0 k), (Z.ltb_spec k (maxnumt sd type)),
        (Z.ltb_spec k (0 + Z.of_nat (Z.to_nat (maxnumt sd type))));
        cbn [andb]; try reflexivity; lia.
    + destruct (Z.leb_spec (t + 1) type), (Z.leb_spec t type),
        (Z.ltb_spec type (t + 1 + Z.of_nat todo)), (Z.ltb_spec type (t + Z.of_nat (S todo)));
        cbn [andb]; try reflexivity; lia.
Qed.

(** From the cells of every type to the three tables. *)
Lemma table_value_fields (o o' : obsd_sensors_struct) (d k d' k' : Z) :
  (forall type : Z, table_value type o d k = table_value type o' d' k') ->
  table_get (temp o) d k = table_get (temp o') d' k' /\
  table_get (fan o) d k = table_get (fan o') d' k' /\
  table_get (volt o) d k = table_get (volt o') d' k'.
Proof.
  intros H.
  assert (H0 : FloatEntry <$> table_get (temp o) d k = FloatEntry <$> table_get (temp o') d' k')
    by exact (H SENSOR_TEMP).
  assert (H1 : CountEntry <$> table_get (fan o) d k = CountEntry <$> table_get (fan o') d' k')
    by exact (H SENSOR_FANRPM).
  assert (H2 : FloatEntry <$> table_get (volt o) d k = FloatEntry <$> table_get (volt o') d' k')
    by exact (H SENSOR_VOLTS_DC).
  repeat split.
  - destruct (table_get (temp o) d k), (table_get (temp o') d' k'); cbn in H0; congruence.
  - destruct (table_get (fan o) d k), (table_get (fan o') d' k'); cbn in H1; congruence.
  - destruct (table_get (volt o) d k), (table_get (volt o') d' k'); cbn in H2; congruence.
Qed.

(** ** The update *)

(** X18: with tables of the declared size, a selected device inside
    them and sensors whose index is inside a row, the update is defined
    and returns 0 with tables of the declared size; it reads one device,
    the one selected in [obsd_sensors.device]: the rows of all the other
    devices, in the three tables, are left as they were, and so is the
    selection; and when the device itself cannot be read nothing changes
    at all, [init_sensors] included. *)
Theorem update_obsd_sensors_one_device (types : nat) (env : sensor_env) (st : sensors_state)
    (Hok : tables_ok (obsd_sensors st))
    (Hdev : 0 <= device (obsd_sensors st) < MAXSENSORDEVICES)
    (Hrow : sensors_in_row env (device (obsd_sensors st))) :
  exists st' : sensors_state,
    update_obsd_sensors types env st = Some (0, st') /\
    tables_ok (obsd_sensors st') /\
    other_rows_kept (device (obsd_sensors st)) (obsd_sensors st) (obsd_sensors st') /\
    (read_sensordev env (device (obsd_sensors st)) = None -> st' = st).
Proof.
  unfold update_obsd_sensors.
  destruct (read_sensordev env (device (obsd_sensors st))) as [sd|].
  - destruct (type_loop_defined env (device (obsd_sensors st)) sd types Hdev Hrow 0
                (obsd_sensors st) Hok) as [o' E].
    rewrite E. eexists. split; [reflexivity|]. cbn [obsd_sensors].
    destruct (type_loop_shape _ _ _ _ _ _ _ E) as (Sd & _ & _ & _ & Sok).
    split; [exact (Sok Hok)|]. split; [|discriminate].
    split; [exact Sd|]. intros d k Hd.
    apply table_value_fields. intros type.
    exact (type_loop_other _ _ type d k _ _ Hd _ _ _ E).
  - exists st. split; [reflexivity|]. split; [exact Hok|]. split; [|reflexivity].
    split; [reflexivity|]. intros d k _. auto.
Qed.

(** ** The cells of the selected device *)

(** X20: with tables of the declared size, a selected device inside
    them, and a kernel that answers with the sensor it is asked for, at
    an index inside a row, an update that could read the device is
    defined and leaves in each cell of the row of that device the
    converted value of its sensor when the sensor was asked for (its type
    below [SENSOR_MAX_TYPES], its number below [maxnumt]), could be read
    and is valid, and what the cell held before in every other case. *)
Theorem update_obsd_sensors_cells (types : nat) (env : sensor_env) (st : sensors_state)
    (sd : sensordev)
    (Hok : tables_ok (obsd_sensors st))
    (Hrange : 0 <= device (obsd_sensors st) < MAXSENSORDEVICES)
    (Hdev : read_sensordev env (device (obsd_sensors st)) = Some sd)
    (Hrow : sensors_in_row env (device (obsd_sensors st)))
    (Hask : answers_as_asked env (device (obsd_sensors st))) :
  let dev := device (obsd_sensors st) in
  exists st' : sensors_state,
    update_obsd_sensors types env st = Some (0, st') /\
    forall type k : Z,
      table_value type (obsd_sensors st') dev k =
      if asked types sd type k
      then refreshed env dev type k (table_value type (obsd_sensors st) dev k)
      else table_value type (obsd_sensors st) dev k.
Proof.
  cbv zeta. unfold update_obsd_sensors. rewrite Hdev.
  destruct (type_loop_defined env (device (obsd_sensors st)) sd types Hrange Hrow 0
              (obsd_sensors st) Hok) as [o' E].
  rewrite E. eexists. split; [reflexivity|]. intros type k. cbn [obsd_sensors].
  rewrite (type_loop_value _ _ type k _ _ Hask _ _ _ E). unfold asked.
  rewrite Z.add_0_l. reflexivity.
Qed.

(** ** What is printed *)

(** The update a print function runs, and the tables it then reads. *)
Lemma print_update (types : nat) (env : sensor_env) (d : Z) (st : sensors_state) :
  tables_ok (obsd_sensors st) -> 0 <= d < MAXSENSORDEVICES ->
  sensors_in_row env d -> answers_as_asked env d ->
  exists st' : sensors_state,
    update_obsd_sensors types env (select_device d st) = Some (0, st') /\
    device (obsd_sensors st') = d /\
    tables_ok (obsd_sensors st') /\
    forall type l : Z,
      table_value type (obsd_sensors st') d l =
      match read_sensordev env d with
      | Some sd =>
          if asked types sd type l
          then refreshed env d type l (table_value type (obsd_sensors st) d l)
          else table_value type (obsd_sensors st) d l
      | None => table_value type (obsd_sensors st) d l
      end.
Proof.
  intros Hok Hd Hrow Hask. unfold update_obsd_sensors.
  cbn [select_device obsd_sensors device].
  destruct (read_sensordev env d) as [sd|].
  - set (o := {| device := d; temp := temp (obsd_sensors st); fan := fan (obsd_sensors st);
                 volt := volt (obsd_sensors st) |}).
    assert (Hok' : tables_ok o) by exact Hok.
    destruct (type_loop_defined env d sd types Hd Hrow 0 o Hok') as [o' E].
    rewrite E. eexists. split; [reflexivity|]. cbn [obsd_sensors].
    destruct (type_loop_shape _ _ _ _ _ _ _ E) as (Sd & _ & _ & _ & Sok).
    split; [exact Sd|]. split; [exact (Sok Hok')|]. intros type l.
    rewrite (type_loop_value _ _ type l _ _ Hask _ _ _ E). unfold asked.
    rewrite Z.add_0_l. reflexivity.
  - eexists. split; [reflexivity|]. cbn [obsd_sensors device].
    split; [reflexivity|]. split; [exact Hok|]. intros type l. reflexivity.
Qed.

(** X21: with tables of the declared size and a setting [sensor_device]
    inside them, the print functions hand over the value the kernel
    reports for the sensor, converted: degrees Celsius from microkelvin,
    the fan value on 32 bits, volts from microvolts, when the sensor is
    one the update asks for, readable and valid. *)
Theorem print_obsd_sensors_reports_kernel_value (types : nat) (env : sensor_env)
    (d l type : Z) (st : sensors_state) (sd : sensordev) (s : sensor)
    (Hok : tables_ok (obsd_sensors st))
    (Hd : 0 <= d < MAXSENSORDEVICES)
    (Hdev : read_sensordev env d = Some sd)
    (Hrow : sensors_in_row env d)
    (Hask : answers_as_asked env d)
    (Hasked : asked types sd type l = true)
    (Hs : read_sensor env d type l = Some s)
    (Hvalid : Z.land (s_flags s) SENSOR_FINVALID = 0) :
  (type = SENSOR_TEMP ->
   fst <$> print_obsd_sensors_temp types env d l st = Some (celsius_of (s_value s))) /\
  (type = SENSOR_FANRPM ->
   fst <$> print_obsd_sensors_fan types env d l st = Some (u32 (s_value s))) /\
  (type = SENSOR_VOLTS_DC ->
   fst <$> print_obsd_sensors_volt types env d l st = Some (volts_of (s_value s))).
Proof.
  destruct (print_update types env d st Hok Hd Hrow Hask) as (st' & Eu & Ed & _ & Hv).
  specialize (Hv type l). rewrite Hdev, Hasked in Hv. unfold refreshed in Hv.
  rewrite Hs, Hvalid in Hv. cbn [Z.eqb negb] in Hv.
  unfold print_obsd_sensors_temp, print_obsd_sensors_fan, print_obsd_sensors_volt.
  rewrite Eu, Ed.
  repeat split; intros ->.
  - assert (E : FloatEntry <$> table_get (temp (obsd_sensors st')) d l =
                Some (FloatEntry (celsius_of (s_value s)))) by exact Hv.
    destruct (table_get (temp (obsd_sensors st')) d l); cbn in E |- *; congruence.
  - assert (E : CountEntry <$> table_get (fan (obsd_sensors st')) d l =
                Some (CountEntry (u32 (s_value s)))) by exact Hv.
    destruct (table_get (fan (obsd_sensors st')) d l); cbn in E |- *; congruence.
  - assert (E : FloatEntry <$> table_get (volt (obsd_sensors st')) d l =
                Some (FloatEntry (volts_of (s_value s)))) by exact Hv.
    destruct (table_get (volt (obsd_sensors st')) d l); cbn in E |- *; congruence.
Qed.

(** X22: with tables of the declared size, a setting [sensor_device]
    inside them and a sensor number inside a row, when the device cannot
    be read, or the sensor number [l] is unreadable or flagged invalid
    for every type, the print functions are defined and hand over what
    the tables held in that cell before the call: an earlier value, or
    the initial content. *)
Theorem print_obsd_sensors_stale (types : nat) (env : sensor_env)
    (d l : Z) (st : sensors_state)
    (Hok : tables_ok (obsd_sensors st))
    (Hd : 0 <= d < MAXSENSORDEVICES)
    (Hl : 0 <= l < OBSD_MAX_SENSORS)
    (Hrow : sensors_in_row env d)
    (Hask : answers_as_asked env d)
    (Hstale : read_sensordev env d = None \/
              forall (type : Z) (s : sensor),
                read_sensor env d type l = Some s ->
                Z.land (s_flags s) SENSOR_FINVALID <> 0) :
  exists (x : spec_float) (n : Z) (v : spec_float),
    table_get (temp (obsd_sensors st)) d l = Some x /\
    table_get (fan (obsd_sensors st)) d l = Some n /\
    table_get (volt (obsd_sensors st)) d l = Some v /\
    fst <$> print_obsd_sensors_temp types env d l st = Some x /\
    fst <$> print_obsd_sensors_fan types env d l st = Some n /\
    fst <$> print_obsd_sensors_volt types env d l st = Some v.
Proof.
  destruct (print_update types env d st Hok Hd Hrow Hask) as (st' & Eu & Ed & _ & Hv).
  assert (Hsame : forall type : Z,
            table_value type (obsd_sensors st') d l = table_value type (obsd_sensors st) d l).
  { intros type. rewrite (Hv type l). destruct Hstale as [Hnone|Hinv].
    - rewrite Hnone. reflexivity.
    - destruct (read_sensordev env d) as [sd|]; [|reflexivity].
      destruct (asked types sd type l); [|reflexivity].
      unfold refreshed. destruct (read_sensor env d type l) as [s|] eqn:E; [|reflexivity].
      specialize (Hinv type s E).
      destruct (Z.eqb_spec (Z.land (s_flags s) SENSOR_FINVALID) 0); [contradiction|].
      reflexivity. }
  destruct (table_value_fields _ _ _ _ _ _ Hsame) as (Ft & Ff & Fv).
  destruct Hok as (Ot & Of & Ov).
  destruct (table_get_defined (temp (obsd_sensors st)) d l Ot Hd Hl) as [x Hx].
  destruct (table_get_defined (fan (obsd_sensors st)) d l Of Hd Hl) as [n Hn].
  destruct (table_get_defined (volt (obsd_sensors st)) d l Ov Hd Hl) as [v Hvv].
  exists x, n, v. split; [exact Hx|]. split; [exact Hn|]. split; [exact Hvv|].
  unfold print_obsd_sensors_temp, print_obsd_sensors_fan, print_obsd_sensors_volt.
  rewrite Eu, Ed, Ft, Ff, Fv, Hx, Hn, Hvv. repeat split.
Qed.

(** X23: the setting [sensor_device] is not checked: with a value
    outside the tables, the cell a print function reads is outside the
    array whatever the kernel answers, if the update has not left the
    tables before that. *)
Theorem print_obsd_sensors_device_unchecked (types : nat) (env : sensor_env)
    (d l : Z) (st : sensors_state)
    (Hok : tables_ok (obsd_sensors st))
    (Hd : ~ 0 <= d < MAXSENSORDEVICES) :
  print_obsd_sensors_temp types env d l st = None /\
  print_obsd_sensors_fan types env d l st = None /\
  print_obsd_sensors_volt types env d l st = None.
Proof.
  unfold print_obsd_sensors_temp, print_obsd_sensors_fan, print_obsd_sensors_volt.
  destruct (update_obsd_sensors types env (select_device d st)) as [[r st']|] eqn:Eu;
    [|repeat split].
  assert (Hs : same_shape (obsd_sensors (select_device d st)) (obsd_sensors st')).
  { unfold update_obsd_sensors in Eu.
    destruct (read_sensordev env (device (obsd_sensors (select_device d st)))) as [sd|].
    - destruct (type_loop env _ sd types 0 (obsd_sensors (select_device d st)))
        as [o'|] eqn:E; [|discriminate].
      injection Eu as _ <-. exact (type_loop_shape _ _ _ _ _ _ _ E).
    - injection Eu as _ <-. apply same_shape_refl. }
  destruct Hs as (Sd & St & Sf & Sv & _). cbn [select_device obsd_sensors device temp fan volt]
    in Sd, St, Sf, Sv.
  destruct Hok as ((Lt & _) & (Lf & _) & (Lv & _)).
  rewrite Sd.
  rewrite !table_get_outside by (congruence || exact Hd). repeat split.
Qed.

(** *** The functions on concrete inputs *)

Lemma kernel_of_one_fan (d : Z) : sensors_in_row one_fan d /\ answers_as_asked one_fan d.
Proof.
  split; intros type numt s; cbn;
    destruct ((type =? SENSOR_FANRPM) && (numt =? 0)) eqn:E; try discriminate;
    intros [= <-]; apply andb_true_iff in E; destruct E as [_ E];
    apply Z.eqb_eq in E; cbn; unfold OBSD_MAX_SENSORS; lia.
Qed.

Lemma parse_obsd_sensor_round_trip_witness :
  parse_obsd_sensor (fun s => digits_value s 0) (pretty 42%N) = (42, false).
Proof.
  apply (parse_obsd_sensor_round_trip (fun s => digits_value s 0) 42%N).
  - intros s _ _. reflexivity.
  - lia.
Defined.

Lemma update_obsd_sensors_one_device_witness :
  exists st' : sensors_state,
    update_obsd_sensors 3 one_sensor_each empty_tables = Some (0, st') /\
    tables_ok (obsd_sensors st').
Proof.
  destruct (update_obsd_sensors_one_device 3 one_sensor_each empty_tables)
    as (st' & H1 & H2 & _).
  - exact empty_tables_ok.
  - unfold MAXSENSORDEVICES. cbn. lia.
  - intros type numt s Hs. injection Hs as <-. cbn. unfold OBSD_MAX_SENSORS. lia.
  - exists st'. split; [exact H1|exact H2].
Defined.

Lemma update_obsd_sensors_cells_witness :
  exists st' : sensors_state,
    update_obsd_sensors 3 one_fan empty_tables = Some (0, st') /\
    table_value SENSOR_FANRPM (obsd_sensors st') 0 0 = Some (CountEntry 1200).
Proof.
  destruct (update_obsd_sensors_cells 3 one_fan empty_tables {| maxnumt := fun _ => 1 |})
    as (st' & H1 & H2).
  - exact empty_tables_ok.
  - unfold MAXSENSORDEVICES. cbn. lia.
  - reflexivity.
  - apply kernel_of_one_fan.
  - apply kernel_of_one_fan.
  - exists st'. split; [exact H1|].
    refine (eq_trans (H2 SENSOR_FANRPM 0) _). reflexivity.
Defined.

Lemma print_obsd_sensors_reports_kernel_value_witness :
  fst <$> print_obsd_sensors_fan 3 one_fan 0 0 empty_tables = Some 1200.
Proof.
  destruct (print_obsd_sensors_reports_kernel_value 3 one_fan 0 0 SENSOR_FANRPM empty_tables
              {| maxnumt := fun _ => 1 |}
              {| s_flags := 0; s_numt := 0; s_value := 1200 |}) as (_ & H & _).
  - exact empty_tables_ok.
  - unfold MAXSENSORDEVICES. lia.
  - reflexivity.
  - apply kernel_of_one_fan.
  - apply kernel_of_one_fan.
  - reflexivity.
  - reflexivity.
  - reflexivity.
  - exact (H eq_refl).
Defined.

Lemma print_obsd_sensors_stale_witness :
  fst <$> print_obsd_sensors_fan 3 one_fan 0 1 empty_tables = Some 0.
Proof.
  destruct (print_obsd_sensors_stale 3 one_fan 0 1 empty_tables)
    as (x & n & v & _ & Hn & _ & _ & H & _).
  - exact empty_tables_ok.
  - unfold MAXSENSORDEVICES. lia.
  - unfold OBSD_MAX_SENSORS. lia.
  - apply kernel_of_one_fan.
  - apply kernel_of_one_fan.
  - right. intros type s. cbn. rewrite andb_false_r. discriminate.
  - rewrite H. rewrite <- Hn. reflexivity.
Defined.

Lemma print_obsd_sensors_device_unchecked_witness :
  print_obsd_sensors_fan 3 one_fan 128 0 empty_tables = None.
Proof.
  destruct (print_obsd_sensors_device_unchecked 3 one_fan 128 0 empty_tables) as (_ & H & _).
  - exact empty_tables_ok.
  - unfold MAXSENSORDEVICES. lia.
  - exact H.
Defined.

End SensorFacts.

(** * Facts about [to_conky_time] *)

Module ProcTimeFacts.

Section AnyFormat.

Variables prec emax : Z.
Hypothesis Hprec : 1 < prec.

Lemma shifted_range_any (q s : Z) :
  2 ^ (prec - 1) <= q -> s = Zdigits2 q - prec ->
  0 <= s /\ 2 ^ (prec - 1) <= q / 2 ^ s < 2 ^ prec.
Proof.
  intros Hq ->.
  assert (H0 : 0 < 2 ^ (prec - 1)) by (apply Z.pow_pos_nonneg; lia).
  destruct (Zdigits2_bounds q ltac:(lia)) as [Hd [Hlo Hhi]].
  set (d := Zdigits2 q) in *.
  assert (prec <= d).
  { destruct (Z.lt_ge_cases d prec) as [Hlt|]; [|assumption].
    assert (2 ^ d <= 2 ^ (prec - 1)) by (apply Z.pow_le_mono_r; lia). lia. }
  split; [lia|].
  assert (Hp : 0 < 2 ^ (d - prec)) by (apply Z.pow_pos_nonneg; lia).
  replace (2 ^ (d - 1)) with (2 ^ (prec - 1) * 2 ^ (d - prec)) in Hlo
    by (rewrite <- Z.pow_add_r by lia; f_equal; lia).
  replace (2 ^ d) with (2 ^ prec * 2 ^ (d - prec)) in Hhi
    by (rewrite <- Z.pow_add_r by lia; f_equal; lia).
  split.
  - apply Z.div_le_lower_bound; lia.
  - apply Z.div_lt_upper_bound; lia.
Qed.

Lemma rounded_range_any (q : Z) (l : location) (s : Z) :
  2 ^ (prec - 1) <= q -> s = Zdigits2 q - prec ->
  q / 2 ^ s <= rounded q l s <= q / 2 ^ s + 1 /\
  2 ^ (prec - 1) <= rounded q l s <= 2 ^ prec.
Proof.
  intros Hq Hs. destruct (shifted_range_any q s Hq Hs) as [Hs0 Hk].
  assert (H0 : 0 < 2 ^ (prec - 1)) by (apply Z.pow_pos_nonneg; lia).
  unfold rounded. cbv zeta.
  pose proof (round_nearest_even_range (shr_m (shifted q l s))
                (loc_of_shr_record (shifted q l s))) as H.
  rewrite shifted_m in H by lia. rewrite shifted_m by lia. lia.
Qed.

Lemma binary_round_aux_any (q e : Z) (l : location) :
  2 ^ (prec - 1) <= q ->
  3 - emax - prec <= e + (Zdigits2 q - prec) <= emax - prec - 1 ->
  binary_round_aux prec emax false q e l =
  renorm prec (rounded q l (Zdigits2 q - prec)) (e + (Zdigits2 q - prec)).
Proof.
  intros Hq He.
  set (s := Zdigits2 q - prec) in *.
  assert (H0 : 0 < 2 ^ (prec - 1)) by (apply Z.pow_pos_nonneg; lia).
  assert (H2 : 2 ^ prec = 2 * 2 ^ (prec - 1)).
  { replace prec with (Z.succ (prec - 1)) at 1 by lia. apply Z.pow_succ_r. lia. }
  destruct (shifted_range_any q s Hq eq_refl) as [Hs0 Hk].
  destruct (rounded_range_any q l s Hq eq_refl) as [_ Hr].
  unfold binary_round_aux, shr_fexp at 1.
  assert (Hsh : fexp prec emax (Zdigits2 q + e) - e = s).
  { unfold fexp, emin. lia. }
  rewrite Hsh.
  assert (Hshr : shr (shr_record_of_loc q l) e s = (shifted q l s, e + s)).
  { unfold shr, shifted. destruct s as [|p|p]; try lia; [f_equal; lia|].
    rewrite iter_pos_iter. reflexivity. }
  rewrite Hshr. fold (rounded q l s).
  set (k1 := rounded q l s) in *.
  unfold renorm. destruct (Z.ltb_spec k1 (2 ^ prec)) as [Hlt|Hge].
  - assert (Hd : Zdigits2 k1 = prec) by (apply Zdigits2_unique; lia).
    unfold shr_fexp. rewrite Hd.
    assert (Hz : fexp prec emax (prec + (e + s)) - (e + s) = 0).
    { unfold fexp, emin. lia. }
    rewrite Hz. cbn [shr shr_record_of_loc shr_m].
    destruct k1 as [|p|p]; try lia.
    assert (Hle : (e + s <=? emax - prec) = true) by (apply Z.leb_le; lia).
    rewrite Hle. reflexivity.
  - assert (E : k1 = 2 ^ prec) by lia. rewrite E.
    assert (Hd : Zdigits2 (2 ^ prec) = prec + 1).
    { apply Zdigits2_unique; [|lia]. replace (prec + 1 - 1) with prec by lia.
      replace (prec + 1) with (Z.succ prec) by lia. rewrite Z.pow_succ_r by lia. lia. }
    unfold shr_fexp. rewrite Hd.
    assert (Hz : fexp prec emax (prec + 1 + (e + s)) - (e + s) = 1).
    { unfold fexp, emin. lia. }
    rewrite Hz.
    assert (Hshr1 : shr (shr_record_of_loc (2 ^ prec) loc_Exact) (e + s) 1 =
                    ({| shr_m := 2 ^ (prec - 1); shr_r := false; shr_s := false |}, e + s + 1)).
    { unfold shr. cbn [shr_record_of_loc SpecFloat.iter_pos].
      rewrite shr_1_nonneg by lia. f_equal. f_equal.
      - rewrite H2. rewrite Z.mul_comm, Z.div_mul by lia. reflexivity.
      - rewrite H2. rewrite Z.odd_mul. reflexivity. }
    rewrite Hshr1. cbv beta iota zeta. cbn [shr_m].
    destruct (2 ^ (prec - 1)) as [|p|p] eqn:Ep; try lia.
    assert (Hle : (e + s + 1 <=? emax - prec) = true) by (apply Z.leb_le; lia).
    rewrite Hle. reflexivity.
Qed.

End AnyFormat.

(** ** binary64 *)

Lemma f64_of_Z_exact (u : Z) :
  0 < u -> Zdigits2 u < 53 ->
  f64_of_Z u =
  S754_finite false (Z.to_pos (u * 2 ^ (53 - Zdigits2 u))) (Zdigits2 u - 53).
Proof.
  intros Hu Hd53.
  destruct (Zdigits2_bounds u Hu) as [Hd [Hlo Hhi]].
  destruct u as [|p|p]; try lia.
  unfold f64_of_Z, binary_normalize, binary_round.
  change (Z.pos (digits2_pos p)) with (Zdigits2 (Z.pos p)).
  set (d := Zdigits2 (Z.pos p)) in *.
  assert (Hf : fexp prec64 emax64 (d + 0) = d - 53).
  { unfold fexp, emin, prec64, emax64. lia. }
  rewrite Hf. unfold shl_align.
  destruct (d - 53 - 0) as [|k|k] eqn:Ek; try lia.
  assert (Hk : Z.pos k = 53 - d) by lia.
  assert (Hm : Z.pos (Pos.iter xO p k) = Z.pos p * 2 ^ (53 - d)).
  { rewrite iter_xO, Hk. reflexivity. }
  assert (Hp : 0 < 2 ^ (53 - d)) by (apply Z.pow_pos_nonneg; lia).
  assert (Hrange : 2 ^ 52 <= Z.pos (Pos.iter xO p k) < 2 ^ 53).
  { rewrite Hm.
    replace (2 ^ 52) with (2 ^ (d - 1) * 2 ^ (53 - d))
      by (rewrite <- Z.pow_add_r by lia; f_equal; lia).
    replace (2 ^ 53) with (2 ^ d * 2 ^ (53 - d))
      by (rewrite <- Z.pow_add_r by lia; f_equal; lia).
    nia. }
  assert (Hdm : Zdigits2 (Z.pos (Pos.iter xO p k)) = 53)
    by (apply Zdigits2_unique; [exact Hrange|lia]).
  rewrite (binary_round_aux_any prec64 emax64 ltac:(unfold prec64; lia)).
  - rewrite Hdm. unfold prec64. change (53 - 53) with 0.
    rewrite rounded_exact_0, Z.add_0_r. unfold renorm.
    destruct (Z.ltb_spec (Z.pos (Pos.iter xO p k)) (2 ^ 53)); [|lia].
    rewrite <- Hm. reflexivity.
  - unfold prec64. exact (proj1 Hrange).
  - rewrite Hdm. unfold prec64, emax64. lia.
Qed.

Lemma trunc_renorm (k e : Z) :
  2 ^ 52 <= k <= 2 ^ 53 -> e < -1 ->
  trunc_f64 (renorm 53 k e) = k / 2 ^ (- e).
Proof.
  intros Hk He. unfold renorm.
  destruct (Z.ltb_spec k (2 ^ 53)) as [Hlt|Hge].
  - unfold trunc_f64. destruct e as [|p|p]; try lia.
    rewrite Z2Pos.id by lia. reflexivity.
  - assert (k = 2 ^ 53) as -> by lia.
    unfold trunc_f64. destruct (e + 1) as [|p|p] eqn:E; try lia.
    change (Z.pos (Z.to_pos (2 ^ (53 - 1)))) with (2 ^ 52).
    replace (- e) with (Z.succ (Z.pos p)) by lia.
    rewrite Z.pow_succ_r by lia. change (2 ^ 53) with (2 * 2 ^ 52).
    assert (0 < 2 ^ Z.pos p) by (apply Z.pow_pos_nonneg; lia).
    rewrite Z.div_mul_cancel_l by lia. reflexivity.
Qed.

Lemma usec_part_positive (u : Z) :
  0 < u < 2 ^ 32 -> usec_part u = u / 10000.
Proof.
  intros Hu.
  destruct (Zdigits2_bounds u ltac:(lia)) as [Hd [Hlo Hhi]].
  set (d := Zdigits2 u) in *.
  assert (Hd32 : d <= 32).
  { destruct (Z.le_gt_cases d 32) as [|G]; [assumption|].
    assert (2 ^ 32 <= 2 ^ (d - 1)) by (apply Z.pow_le_mono_r; lia). lia. }
  unfold usec_part. rewrite f64_of_Z_exact by (fold d; lia). fold d.
  rewrite f64_0_0001_value.
  set (A := 2 ^ (53 - d)).
  assert (HA : 2 ^ 21 <= A) by (apply Z.pow_le_mono_r; lia).
  assert (Hmu : 2 ^ 52 <= u * A < 2 ^ 53).
  { unfold A.
    replace (2 ^ 52) with (2 ^ (d - 1) * 2 ^ (53 - d))
      by (rewrite <- Z.pow_add_r by lia; f_equal; lia).
    replace (2 ^ 53) with (2 ^ d * 2 ^ (53 - d))
      by (rewrite <- Z.pow_add_r by lia; f_equal; lia).
    fold A. nia. }
  unfold f64_mul, SFmul. cbn [xorb].
  rewrite Pos2Z.inj_mul, Z2Pos.id by lia.
  fold m_0_0001.
  set (P := u * A * m_0_0001).
  assert (HP : 2 ^ 104 <= P < 2 ^ 106) by (unfold P, m_0_0001; nia).
  destruct (Zdigits2_bounds P ltac:(lia)) as [HdP [HloP HhiP]].
  set (dP := Zdigits2 P) in *.
  assert (HdP2 : 105 <= dP <= 106).
  { split.
    - destruct (Z.le_gt_cases 105 dP) as [|G]; [assumption|].
      assert (2 ^ dP <= 2 ^ 104) by (apply Z.pow_le_mono_r; lia). lia.
    - destruct (Z.le_gt_cases dP 106) as [|G]; [assumption|].
      assert (2 ^ 106 <= 2 ^ (dP - 1)) by (apply Z.pow_le_mono_r; lia). lia. }
  rewrite (binary_round_aux_any prec64 emax64 ltac:(unfold prec64; lia));
    [|unfold prec64; lia|fold dP; unfold prec64, emax64; lia].
  fold dP. unfold prec64.
  set (s := dP - 53).
  destruct (rounded_range_any 53 ltac:(lia) P loc_Exact s ltac:(lia) eq_refl) as [Hk Hkr].
  set (k' := rounded P loc_Exact s) in *.
  rewrite trunc_renorm by lia.
  set (T := 2 ^ (- (d - 53 + -66 + s))).
  set (S := 2 ^ s) in *.
  assert (HS : 0 < S <= 2 ^ 53).
  { unfold S. split; [apply Z.pow_pos_nonneg; lia|apply Z.pow_le_mono_r; lia]. }
  assert (HT : 0 < T) by (apply Z.pow_pos_nonneg; lia).
  assert (HTS : T * S = 2 ^ 66 * A).
  { unfold T, S, A. rewrite <- !Z.pow_add_r by lia. f_equal. lia. }
  pose proof (Z.div_mod u 10000 ltac:(lia)) as Du.
  pose proof (Z.mod_pos_bound u 10000 ltac:(lia)) as Bu.
  set (K := u / 10000) in *.
  assert (HK : 0 <= K < 429497) by lia.
  symmetry. apply Z.div_unique with (r := k' - K * T).
  - left. split.
    + assert (K * T <= P / S); [|lia].
      apply Z.div_le_lower_bound; [lia|].
      assert (K * 2 ^ 66 <= u * m_0_0001) by (unfold m_0_0001; lia).
      replace (S * (K * T)) with (K * (T * S)) by ring. rewrite HTS.
      unfold P. nia.
    + assert (P / S + 1 < (K + 1) * T); [|lia].
      assert (P / S < (K + 1) * T - 1); [|lia].
      apply Z.div_lt_upper_bound; [lia|].
      replace (S * ((K + 1) * T - 1)) with ((K + 1) * (T * S) - S) by ring.
      rewrite HTS.
      assert (u * m_0_0001 + 2 ^ 52 <= (K + 1) * 2 ^ 66) by (unfold m_0_0001; lia).
      unfold P.
      assert (u * m_0_0001 * A + 2 ^ 52 * A <= (K + 1) * 2 ^ 66 * A) by nia.
      assert (S < 2 ^ 52 * A) by nia.
      lia.
  - lia.
Qed.

(** X19: [to_conky_time] gives hundredths of a second: the
    seconds times one hundred, on 32 bits, plus the whole hundredths in
    the microseconds; the product by the double 0.0001 loses nothing. *)
Theorem to_conky_time_centiseconds (sec usec : Z) :
  0 <= sec < 2 ^ 32 -> 0 <= usec < 2 ^ 32 ->
  to_conky_time sec usec = (sec * 100) mod 2 ^ 32 + usec / 10000 /\
  (sec * 100 < 2 ^ 32 -> to_conky_time sec usec = sec * 100 + usec / 10000).
Proof.
  intros Hsec Husec.
  assert (Hu : usec_part usec = usec / 10000).
  { destruct (Z.eq_dec usec 0) as [->|Hn]; [reflexivity|].
    apply usec_part_positive. lia. }
  assert (Hq : 0 <= usec / 10000 < 2 ^ 32).
  { split; [apply Z.div_pos; lia|].
    apply Z.div_lt_upper_bound; lia. }
  assert (Hm : 0 <= (sec * 100) mod 2 ^ 32 < 2 ^ 32)
    by (apply Z.mod_pos_bound; lia).
  assert (E : to_conky_time sec usec = (sec * 100) mod 2 ^ 32 + usec / 10000).
  { unfold to_conky_time, u64_add, u64, u32. rewrite Hu.
    change Mem.two32 with (2 ^ 32). change two64 with (2 ^ 64).
    apply Z.mod_small. lia. }
  split; [exact E|].
  intros Hs. rewrite E, Z.mod_small by lia. reflexivity.
Qed.

Lemma to_conky_time_centiseconds_witness :
  to_conky_time 12 345678 = 1234.
Proof.
  destruct (to_conky_time_centiseconds 12 345678) as [_ H]; [lia|lia|].
  rewrite H by lia. reflexivity.
Defined.

End ProcTimeFacts.
